(** * SAEDashboard: the Neuronpedia batch runner

  A shallow embedding of [sae_dashboard/neuronpedia/neuronpedia_runner.py]
  (class [NeuronpediaRunner]) and the properties of its batch pipeline:
  the feature batch plan, the token corpus, the prefix/suffix splice, the
  vocabulary table and the resumable batch loop.

  Python integers are [Z], lengths and loop ordinals are [nat], a [dict]
  is a [gmap], a [set] a [gset], a 2-D token tensor is a list of rows
  together with its second dimension, and a raised exception is the
  [Raise] branch of [result].  The one double of the program, the quotient
  in [get_feature_batches], is a significand and an exponent with the
  rounding of binary64; the values of an int64 tensor built from Python
  integers are checked for their range; paths are pure POSIX paths. *)

From stdpp Require Import gmap strings list fin_maps pretty.

#[local] Set Warnings "-clear-no-such-hyp".

Open Scope Z_scope.

(** ** Python values and exceptions *)

Module Py.

(** The exceptions the runner can raise or let through. *)
Inductive exn : Type :=
| ValueError (msg : string)
| AssertionError (msg : string)
| ZeroDivisionError
| OverflowError
| IndexError
| RuntimeError (msg : string)
| StopIteration
| UnpicklingError
| SystemExit.

Inductive result (A : Type) : Type :=
| Ok (a : A)
| Raise (e : exn).
Arguments Ok {A} a.
Arguments Raise {A} e.

Definition is_ok {A} (r : result A) : bool :=
  match r with Ok _ => true | Raise _ => false end.

(** Sequencing: a raised exception ends the computation. *)
Definition rbind {A B} (c : result A) (k : A -> result B) : result B :=
  match c with
  | Ok a => k a
  | Raise e => Raise e
  end.

(** [range(n)] *)
Definition range (n : Z) : list Z := seqZ 0 n.

(** [l[st:en]] for indices that are already non-negative. *)
Definition slice {A} (st en : nat) (l : list A) : list A :=
  take (en - st) (drop st l).

(** [l[:k]]: a negative bound counts from the end. *)
Definition slice_to {A} (k : Z) (l : list A) : list A :=
  if k <? 0 then take (length l - Z.to_nat (- k)) l
  else take (Z.to_nat k) l.

(** [range(a, b)] *)
Definition range2 (a b : Z) : list Z := seqZ a (b - a).

(** [enumerate(l)] *)
Definition enumerate {A} (l : list A) : list (nat * A) :=
  zip (seq 0 (length l)) l.

(** A Python [str] is a sequence of Unicode code points. *)
Definition str : Type := list N.

Definition str_of_ascii (s : string) : str :=
  Ascii.N_of_ascii <$> String.list_ascii_of_string s.

Fixpoint startswith (s p : str) : bool :=
  match p, s with
  | [], _ => true
  | a :: p', b :: s' => (a =? b)%N && startswith s' p'
  | _ :: _, [] => false
  end.

(** [s.replace(old, new)] for a non-empty [old]: scan left to right; at a
    match emit [new] and jump over the match ([skip] counts the code points
    of the match still to be dropped), otherwise copy one code point. *)
Fixpoint replace_go (old new : str) (skip : nat) (s : str) : str :=
  match s with
  | [] => []
  | c :: s' =>
      match skip with
      | S k => replace_go old new k s'
      | O =>
          if startswith s old
          then new ++ replace_go old new (length old - 1) s'
          else c :: replace_go old new 0 s'
      end
  end.

(** [s.replace(old, new)]; an empty [old] matches before every code point
    and at the end. *)
Definition replace (s old new : str) : str :=
  match old with
  | [] => new ++ flat_map (fun c => c :: new) s
  | _ :: _ => replace_go old new 0 s
  end.

(** Truth value of an [Optional[List[int]]]: [None] and [[]] are false. *)
Definition truthy {A} (o : option (list A)) : bool :=
  match o with
  | Some (_ :: _) => true
  | _ => false
  end.

End Py.

Import Py.

Notation "'let?' x ':=' c 'in' k" := (rbind c (fun x => k))
  (at level 10, x name, c at level 100, k at level 200, only parsing).

(** ** Floating point: binary64 as far as the planner reaches it

  [get_feature_batches] computes its section count as
  [np.ceil(len(feature_idx) / n_features_at_a_time).astype(int)]: Python's
  true division of two integers, which is the quotient correctly rounded to
  a double (round to nearest, ties to even; 53 significant bits; exponents
  down to the subnormal [2^-1074]), numpy's [ceil] on that double and a
  conversion to int64. *)

Module Float64.

(** A finite double: [significand * 2 ^ exponent].  The sign of a zero is
    not kept: nothing below looks at it. *)
Record float : Type := mkFloat {
  significand : Z;
  exponent : Z
}.

(** The integer nearest to [num / den] for [den > 0], a tie going to the
    even one. *)
Definition round_half_even (num den : Z) : Z :=
  let q := num / den in
  let r := num mod den in
  if (den <? 2 * r) || ((2 * r =? den) && Z.odd q) then q + 1 else q.

(** [floor(log2(a / b))] for positive [a] and [b]. *)
Definition log2_quotient (a b : Z) : Z :=
  let d := Z.log2 a - Z.log2 b in
  if a * 2 ^ Z.max 0 (- d) <? b * 2 ^ Z.max 0 d then d - 1 else d.

(** [a / b] on Python integers.  The exponent [e] is the one that puts the
    rounded quotient on 53 bits, or [-1074] when that is smaller. *)
Definition true_divide (a b : Z) : result float :=
  if b =? 0 then Raise ZeroDivisionError
  else if a =? 0 then Ok (mkFloat 0 0)
  else
    let e := Z.max (log2_quotient (Z.abs a) (Z.abs b) - 52) (-1074) in
    let m :=
      round_half_even (Z.abs a * 2 ^ Z.max 0 (- e)) (Z.abs b * 2 ^ Z.max 0 e) in
    if (0 <=? e) && (2 ^ 1024 <=? m * 2 ^ e) then Raise OverflowError
    else Ok (mkFloat (Z.sgn a * Z.sgn b * m) e).

(** [np.ceil(x)] *)
Definition np_ceil (x : float) : float :=
  if exponent x <? 0
  then mkFloat (- ((- significand x) / 2 ^ (- exponent x))) 0
  else x.

(** [x.astype(int)]: truncation to int64.  A value outside int64 has no
    defined conversion in C; on x86-64 it comes out as [-2^63]. *)
Definition astype_int (x : float) : Z :=
  let v :=
    if exponent x <? 0 then Z.quot (significand x) (2 ^ (- exponent x))
    else significand x * 2 ^ exponent x in
  if (- 2 ^ 63 <=? v) && (v <? 2 ^ 63) then v else - 2 ^ 63.

End Float64.

(** ** numpy's [array_split] along axis 0

  The library routine the planner calls, following its code: a scalar
  section count must be positive; [divmod(Ntotal, Nsections)] gives
  [Neach_section] and [extras]; the section sizes are [extras] times
  [Neach_section + 1] followed by [Nsections - extras] times
  [Neach_section]; the division points are the running sums of
  [[0] + sizes]; section [i] is [ary[div_points[i] : div_points[i+1]]]. *)

Module Numpy.

Fixpoint cumsum_from (acc : nat) (l : list nat) : list nat :=
  match l with
  | [] => []
  | x :: l' => (acc + x)%nat :: cumsum_from (acc + x) l'
  end.

Definition cumsum (l : list nat) : list nat := cumsum_from 0 l.

Definition section_sizes (Ntotal Nsections : nat) : list nat :=
  let Neach_section := (Ntotal / Nsections)%nat in
  let extras := (Ntotal mod Nsections)%nat in
  replicate extras (Neach_section + 1)%nat
    ++ replicate (Nsections - extras) Neach_section.

Definition div_points (Ntotal Nsections : nat) : list nat :=
  cumsum (0%nat :: section_sizes Ntotal Nsections).

Fixpoint sub_arys {A} (points : list nat) (sary : list A) : list (list A) :=
  match points with
  | st :: rest =>
      match rest with
      | en :: _ => slice st en sary :: sub_arys rest sary
      | [] => []
      end
  | [] => []
  end.

Definition array_split {A} (ary : list A) (indices_or_sections : Z)
  : result (list (list A)) :=
  if indices_or_sections <=? 0
  then Raise (ValueError "number sections must be larger than 0.")
  else Ok (sub_arys (div_points (length ary) (Z.to_nat indices_or_sections)) ary).

End Numpy.

(** ** VocabularyNormalizer: [get_vocab_dict] *)

Definition OUT_OF_RANGE_TOKEN : str := str_of_ascii "<|outofrange|>".

(** The [HTML_ANOMALIES] literal, in insertion order, as code points.  The
    source text of the third entry opens its value with three double quotes,
    so that value is a triple-quoted string running up to the three double
    quotes of the next line: a comma, a newline, four spaces and the text
    of the next line's key and colon.  The dict therefore has nine entries. *)
Definition HTML_ANOMALIES : list (str * str) :=
  [ ([0xe2; 0x122; 0x136], [0x2014]);
    ([0xe2; 0x122; 0x135], [0x2013]);
    ([0xe2; 0x122; 0x13e],
       [0x2c; 0x0a; 0x20; 0x20; 0x20; 0x20; 0x22; 0xe2; 0x122; 0x13f; 0x22;
        0x3a; 0x20]);
    ([0xe2; 0x122; 0x13a], [0x27]);
    ([0xe2; 0x122; 0x13b], [0x27]);
    ([0xe2; 0x122; 0x12d], [0x20]);
    ([0x120], [0x20]);
    ([0x10a], [0x0a]);
    ([0x109], [0x09]) ]%N.

(** The inner loop of [get_vocab_dict]: every anomaly replaced in turn. *)
Definition fix_anomalies (k : str) : str :=
  foldl (fun modified_key '(anomaly, fixed) => replace modified_key anomaly fixed)
        k HTML_ANOMALIES.

(** What the spec calls the known mis-decoded artifacts with their intended
    characters: the table as its ten source lines are meant, one entry per
    line.  Each key is the byte-level rendering of the UTF-8 bytes of a
    character (or of one byte); the two curly double quotes stand for the
    ASCII double quote, as the two curly single quotes stand for the ASCII
    apostrophe. *)
Definition intended_characters : list (str * str) :=
  [ ([0xe2; 0x122; 0x136], [0x2014]);
    ([0xe2; 0x122; 0x135], [0x2013]);
    ([0xe2; 0x122; 0x13e], [0x22]);
    ([0xe2; 0x122; 0x13f], [0x22]);
    ([0xe2; 0x122; 0x13a], [0x27]);
    ([0xe2; 0x122; 0x13b], [0x27]);
    ([0xe2; 0x122; 0x12d], [0x20]);
    ([0x120], [0x20]);
    ([0x10a], [0x0a]);
    ([0x109], [0x09]) ]%N.

(** A string with each known artifact replaced by its intended character. *)
Definition substitute_intended (k : str) : str :=
  foldl (fun modified_key '(anomaly, fixed) => replace modified_key anomaly fixed)
        k intended_characters.

(** [tokenizer.vocab] is a dict from token string to id, iterated in
    insertion order; [new_vocab_dict[v] = modified_key] inverts it. *)
Definition invert_vocab (vocab : list (str * Z)) : gmap Z str :=
  foldl (fun new_vocab_dict '(k, v) => <[v := fix_anomalies k]> new_vocab_dict)
        ∅ vocab.

Definition pad_vocab (vocab_dict : gmap Z str) (d_vocab : Z) : gmap Z str :=
  foldl (fun m i => <[i := OUT_OF_RANGE_TOKEN]> m) vocab_dict
        (range2 (Z.of_nat (size vocab_dict)) d_vocab).

Definition get_vocab_dict (vocab : list (str * Z)) (d_vocab : Z) : gmap Z str :=
  pad_vocab (invert_vocab vocab) d_vocab.

(** ** Token tensors *)

Module Torch.

(** A 2-D integer tensor: [shape1] is [t.shape[1]], the rows are
    [t[0], t[1], ...]; [t.shape[0]] is the number of rows. *)
Record Tensor2 : Type := mkTensor2 {
  shape1 : nat;
  rows : list (list Z)
}.

Definition shape0 (t : Tensor2) : nat := length (rows t).

(** The values an int64 tensor holds. *)
Definition int64 (x : Z) : bool := (- 2 ^ 63 <=? x) && (x <? 2 ^ 63).

(** [torch.tensor(l)] of a list of Python integers: an int64 tensor, and an
    error on an integer outside int64.  (The class and the text of that
    error are torch's; they have changed between versions.) *)
Definition torch_tensor (l : list Z) : result (list Z) :=
  if forallb int64 l then Ok l
  else Raise (RuntimeError "Overflow when unpacking long").

(** Every row has the length the shape announces. *)
Definition wf (t : Tensor2) : Prop :=
  Forall (fun r => length r = shape1 t) (rows t).

(** Length of [l[:k]] for a list of length [n]. *)
Definition slice_to_len (k : Z) (n : nat) : nat :=
  if k <? 0 then (n - Z.to_nat (- k))%nat else (Z.to_nat k `min` n)%nat.

(** [t[:, :k]] *)
Definition slice_cols (k : Z) (t : Tensor2) : Tensor2 :=
  {| shape1 := slice_to_len k (shape1 t); rows := slice_to k <$> rows t |}.

(** [t[:k]] *)
Definition slice_rows (k : Z) (t : Tensor2) : Tensor2 :=
  {| shape1 := shape1 t; rows := slice_to k (rows t) |}.

(** [t[:, 0]]: out of bounds when the second dimension is empty. *)
Definition column0 (t : Tensor2) : result (list Z) :=
  if (shape1 t =? 0)%nat then Raise IndexError
  else Ok ((fun r => default 0 (head r)) <$> rows t).

(** [v.unsqueeze(1)]: a column. *)
Definition unsqueeze1 (v : list Z) : Tensor2 :=
  {| shape1 := 1; rows := (fun x => [x]) <$> v |}.

(** [v.unsqueeze(0).repeat(n, 1)]: [n] copies of the row [v]. *)
Definition repeat_row (v : list Z) (n : nat) : Tensor2 :=
  {| shape1 := length v; rows := replicate n v |}.

(** [torch.cat([a, b], dim=1)]: the row counts must agree. *)
Definition cat1 (a b : Tensor2) : result Tensor2 :=
  if (shape0 a =? shape0 b)%nat
  then Ok {| shape1 := shape1 a + shape1 b;
             rows := zip_with app (rows a) (rows b) |}
  else Raise (RuntimeError "Sizes of tensors must match except in dimension 1").

(** [torch.cat(l, dim=0)] of tensors of shape [1, L], each given by its
    row: the list must be non-empty and the row lengths must agree. *)
Definition cat0 (l : list (list Z)) : result Tensor2 :=
  match l with
  | [] => Raise (RuntimeError "torch.cat(): expected a non-empty list of Tensors")
  | r :: _ =>
      if forallb (fun r' => (length r' =? length r)%nat) l
      then Ok {| shape1 := length r; rows := l |}
      else Raise (RuntimeError "Sizes of tensors must match except in dimension 0")
  end.

(** [t[perm]] for an index tensor [perm] whose entries are row numbers of
    [t] (as [torch.randperm(t.shape[0])] delivers them). *)
Definition index_rows (t : Tensor2) (perm : list nat) : Tensor2 :=
  {| shape1 := shape1 t; rows := omap (fun i => rows t !! i) perm |}.

End Torch.

Import Torch.

(** ** FeatureBatchPlanner: [get_alive_features] and [get_feature_batches] *)

(** [list(range(self.sae.cfg.d_sae))]: the sparsity filter is disabled, every
  feature is a target. *)
Definition get_alive_features (d_sae : Z) : list Z := range d_sae.

Definition get_feature_batches (target_feature_indexes : list Z)
    (n_features_at_a_time : Z) : result (list (list Z)) :=
  let? feature_idx := torch_tensor target_feature_indexes in
  let? quotient :=
    Float64.true_divide (Z.of_nat (length feature_idx)) n_features_at_a_time in
  let n_subarrays := Float64.astype_int (Float64.np_ceil quotient) in
  Numpy.array_split feature_idx n_subarrays.


(** Modelled from the spec: [has_duplicate_rows] of
    [sae_dashboard.utils_fns], which is not part of the sources at hand;
    the corpus invariant it re-validates on load is that no two sequences
    are identical. *)
Definition has_duplicate_rows (tokens : Tensor2) : bool :=
  negb (bool_decide (NoDup (rows tokens))).

(** The sequences of a run of batches, in draw order, and how many distinct
    ones there are. *)
Definition drawn (batches : list Tensor2) : list (list Z) :=
  concat (rows <$> batches).

Definition unique_count (batches : list Tensor2) : nat :=
  size (list_to_set (drawn batches) : gset (list Z)).

(** All sequences of a run of batches have one length. *)
Definition uniform (batches : list Tensor2) : Prop :=
  exists n : nat, Forall (fun r => length r = n) (drawn batches).

(** ** SequenceAugmenter: [add_prefix_suffix_to_tokens] *)


Definition add_prefix_suffix_to_tokens
    (prefix_tokens suffix_tokens : option (list Z)) (prepend_bos : bool)
    (tokens : Tensor2) : result Tensor2 :=
  let original_length := shape1 tokens in
  let? bos_tokens := column0 tokens in
  let prefix_length :=
    if truthy prefix_tokens then length (default [] prefix_tokens) else 0%nat in
  let suffix_length :=
    if truthy suffix_tokens then length (default [] suffix_tokens) else 0%nat in
  match prefix_tokens, suffix_tokens with
  | None, None => Ok tokens
  | _, _ =>
      let keep_length :=
        Z.of_nat original_length - Z.of_nat prefix_length - Z.of_nat suffix_length in
      if keep_length <=? 0
      then Raise (ValueError "Prefix and suffix are too long for the given tokens.")
      else
        let tokens := slice_cols (keep_length - Z.b2z prepend_bos) tokens in
        let? tokens :=
          if truthy prefix_tokens then
            let? prefix := torch_tensor (default [] prefix_tokens) in
            let prefix_repeated := repeat_row prefix (shape0 tokens) in
            let? prefix_repeated :=
              if prepend_bos then cat1 (unsqueeze1 bos_tokens) prefix_repeated
              else Ok prefix_repeated in
            cat1 prefix_repeated tokens
          else Ok tokens in
        let? tokens :=
          if truthy suffix_tokens then
            let? suffix := torch_tensor (default [] suffix_tokens) in
            cat1 tokens (repeat_row suffix (shape0 tokens))
          else Ok tokens in
        if (shape1 tokens =? original_length)%nat then Ok tokens
        else Raise (AssertionError "")
  end.

(** ** Configuration, collaborators and the state of a run *)

(** The fields of [NeuronpediaRunnerConfig] the pipeline reads. *)
Record NeuronpediaRunnerConfig : Type := mkConfig {
  sae_set : string;
  outputs_dir : string;
  sparsity_threshold : Z;
  n_prompts_total : Z;
  n_prompts_in_forward_pass : Z;
  n_features_at_a_time : Z;
  start_batch : Z;
  end_batch : option Z;
  shuffle_tokens : bool;
  prefix_tokens : option (list Z);
  suffix_tokens : option (list Z);
  use_transcoder : bool;
  use_skip_transcoder : bool;
  use_clt : bool;
  clt_layer_idx : option Z
}.

(** What the encoder and model loaders of [__init__] deliver: the encoder's
    [d_sae] and [prepend_bos], the ids under which the run is filed, the
    tokenizer's vocabulary with the model's [d_vocab], and the output
    directory as [create_output_directory] resolves it. *)
Record Loaded : Type := mkLoaded {
  loaded_d_sae : Z;
  loaded_prepend_bos : bool;
  loaded_model_id : string;
  loaded_layer : string;
  tokenizer_vocab : list (str * Z);
  d_vocab : Z;
  resolved_outputs_dir : string
}.

(** [ActivationsStore]: the streaming token source.  [__init__] creates it
    with [store_batch_size_prompts = cfg.n_prompts_in_forward_pass];
    [pending] is what the stream still holds, batch by batch; an exhausted
    stream raises. *)
Record ActivationsStore : Type := mkStore {
  store_batch_size_prompts : Z;
  pending : list Tensor2
}.

(** The external collaborators of the pipeline: the loaders, torch's random
    permutations (threading the generator state), the feature-extraction
    engine [SaeVisRunner(...).run] and the serializer
    [NeuronpediaConverter.convert_to_np_json]. *)
Class Collaborators : Type := {
  FeatureData : Type;
  Generator : Type;
  load_models : NeuronpediaRunnerConfig -> result Loaded;
  randperm : Generator -> nat -> list nat * Generator;
  randperm_perm : forall g n, (randperm g n).1 ≡ₚ seq 0 n;
  SaeVisRunner_run : list Z -> Tensor2 -> result FeatureData;
  convert_to_np_json : FeatureData -> gmap Z str -> result string
}.

(** What a file of the output directory holds. *)
Inductive Content : Type :=
| RunSettings (settings : NeuronpediaRunnerConfig)
| SkippedIndexes (model_id layer set_name : string) (log_sparsity : Z)
    (skipped_indexes : list Z)
| TokensPt (tokens : Tensor2)
| BatchJson (json_object : string).

Section Runner.

Context `{Collaborators}.

(** The mutable world of a run: the files, the token stream, the random
    generator, and a log of the feature lists handed to the extraction
    engine, in call order. *)
Record World : Type := mkWorld {
  fs : gmap string Content;
  activations_store : ActivationsStore;
  generator : Generator;
  extraction_calls : list (list Z)
}.

(** State and exceptions: the world survives a raise. *)
Definition M (A : Type) : Type := World -> result A * World.

Definition ret {A} (a : A) : M A := fun w => (Ok a, w).

Definition raise {A} (e : exn) : M A := fun w => (Raise e, w).

Definition bind {A B} (c : M A) (k : A -> M B) : M B :=
  fun w =>
    match c w with
    | (Ok a, w') => k a w'
    | (Raise e, w') => (Raise e, w')
    end.

Definition lift {A} (r : result A) : M A := fun w => (r, w).

Local Notation "'let!' x ':=' c 'in' k" := (bind c (fun x => k))
  (at level 10, x name, c at level 100, k at level 200, only parsing).

(** [os.path.isfile(path)] *)
Definition isfile (path : string) : M bool :=
  fun w => (Ok (bool_decide (is_Some (fs w !! path))), w).

(** [with open(path, "w") as f: f.write(...)], [torch.save] *)
Definition write_file (path : string) (c : Content) : M unit :=
  fun w =>
    (Ok tt, {| fs := <[path := c]> (fs w);
               activations_store := activations_store w;
               generator := generator w;
               extraction_calls := extraction_calls w |}).

(** [torch.load(path)] of a file known to exist. *)
Definition torch_load (path : string) : M Tensor2 :=
  fun w =>
    match fs w !! path with
    | Some (TokensPt t) => (Ok t, w)
    | _ => (Raise UnpicklingError, w)
    end.

(** [activations_store.get_batch_tokens()] *)
Definition get_batch_tokens : M Tensor2 :=
  fun w =>
    match pending (activations_store w) with
    | [] => (Raise StopIteration, w)
    | batch_tokens :: rest =>
        (Ok batch_tokens,
         {| fs := fs w;
            activations_store :=
              {| store_batch_size_prompts :=
                   store_batch_size_prompts (activations_store w);
                 pending := rest |};
            generator := generator w;
            extraction_calls := extraction_calls w |})
    end.

(** [torch.randperm(n)] *)
Definition torch_randperm (n : nat) : M (list nat) :=
  fun w =>
    let '(perm, g) := randperm (generator w) n in
    (Ok perm,
     {| fs := fs w;
        activations_store := activations_store w;
        generator := g;
        extraction_calls := extraction_calls w |}).

(** [SaeVisRunner(...).run(encoder, model, tokens)] on a feature list. *)
Definition extract (features : list Z) (tokens : Tensor2) : M FeatureData :=
  fun w =>
    (SaeVisRunner_run features tokens,
     {| fs := fs w;
        activations_store := activations_store w;
        generator := generator w;
        extraction_calls := extraction_calls w ++ [features] |}).

(** [w'] differs from [w] at most in how far the stream was read and in the
    state of the random generator. *)
Definition only_drew (w w' : World) : Prop :=
  fs w' = fs w
  /\ extraction_calls w' = extraction_calls w
  /\ store_batch_size_prompts (activations_store w')
     = store_batch_size_prompts (activations_store w).

(** ** TokenCorpusBuilder: [hash_tensor], [generate_tokens], [get_tokens] *)

(** [tuple(tensor.cpu().numpy().flatten().tolist())]: the values of a row. *)
Definition hash_tensor (tensor : list Z) : list Z := tensor.

(** One turn of the inner loop: keep [seq] unless its hash was seen. *)
Definition keep_unique (acc : list (list Z) * gset (list Z)) (seq : list Z)
  : list (list Z) * gset (list Z) :=
  let '(all_tokens_list, unique_sequences) := acc in
  let seq_hash := hash_tensor seq in
  if decide (seq_hash ∈ unique_sequences) then acc
  else (all_tokens_list ++ [seq], {[seq_hash]} ∪ unique_sequences).

(** The invariant of the two accumulators: the kept list has no repeats and
    the set holds exactly its hashes. *)
Definition kept_inv (acc : list (list Z) * gset (list Z)) : Prop :=
  NoDup acc.1 /\ acc.2 = list_to_set acc.1.

(** [t[torch.randperm(t.shape[0])]] when shuffling is on. *)
Definition shuffled (shuffle : bool) (t : Tensor2) : M Tensor2 :=
  if shuffle then
    let! perm := torch_randperm (shape0 t) in
    ret (index_rows t perm)
  else ret t.

(** The [for _ in pbar] loop with its early [break]; [iters] turns are left. *)
Fixpoint generate_loop (shuffle : bool) (n_prompts : Z) (iters : nat)
    (acc : list (list Z) * gset (list Z)) : M (list (list Z)) :=
  match iters with
  | O => ret acc.1
  | S iters' =>
      let! batch_tokens := get_batch_tokens in
      let! batch_tokens := shuffled shuffle batch_tokens in
      let acc' := foldl keep_unique acc (rows batch_tokens) in
      if n_prompts <=? Z.of_nat (length acc'.1) then ret acc'.1
      else generate_loop shuffle n_prompts iters' acc'
  end.

Definition generate_tokens (shuffle : bool) (n_prompts : Z) : M Tensor2 :=
  fun w =>
    let batch_size := store_batch_size_prompts (activations_store w) in
    if batch_size =? 0 then (Raise ZeroDivisionError, w)
    else
      (let! all_tokens_list :=
         generate_loop shuffle n_prompts (Z.to_nat (n_prompts / batch_size))
           ([], ∅) in
       let! all_tokens := lift (cat0 all_tokens_list) in
       shuffled shuffle (slice_rows n_prompts all_tokens)) w.

Definition tokens_path (cfg : NeuronpediaRunnerConfig) : string :=
  outputs_dir cfg +:+ "/tokens_" +:+ pretty (n_prompts_total cfg) +:+ ".pt".

Definition get_tokens (cfg : NeuronpediaRunnerConfig) : M Tensor2 :=
  let tokens_file := tokens_path cfg in
  let! file_exists := isfile tokens_file in
  let! tokens :=
    (if file_exists : bool then torch_load tokens_file
     else
       let! tokens := generate_tokens (shuffle_tokens cfg) (n_prompts_total cfg) in
       let! _ := write_file tokens_file (TokensPt tokens) in
       ret tokens) in
  if has_duplicate_rows tokens
  then raise (AssertionError "Duplicate rows in tokens")
  else ret tokens.

(** ** The runner: construction *)

Record NeuronpediaRunner : Type := mkRunner {
  cfg : NeuronpediaRunnerConfig;
  sae_cfg_d_sae : Z;
  sae_cfg_prepend_bos : bool;
  model_id : string;
  layer : string;
  vocab_dict : gmap Z str
}.

(** [self.cfg.outputs_dir = self.create_output_directory()] *)
Definition with_outputs_dir (c : NeuronpediaRunnerConfig) (dir : string)
  : NeuronpediaRunnerConfig :=
  {| sae_set := sae_set c;
     outputs_dir := dir;
     sparsity_threshold := sparsity_threshold c;
     n_prompts_total := n_prompts_total c;
     n_prompts_in_forward_pass := n_prompts_in_forward_pass c;
     n_features_at_a_time := n_features_at_a_time c;
     start_batch := start_batch c;
     end_batch := end_batch c;
     shuffle_tokens := shuffle_tokens c;
     prefix_tokens := prefix_tokens c;
     suffix_tokens := suffix_tokens c;
     use_transcoder := use_transcoder c;
     use_skip_transcoder := use_skip_transcoder c;
     use_clt := use_clt c;
     clt_layer_idx := clt_layer_idx c |}.

(** [__init__]: the validation block, then the loaders, then the
    vocabulary table. *)
Definition NeuronpediaRunner_init (c : NeuronpediaRunnerConfig)
  : result NeuronpediaRunner :=
  let flags := [use_transcoder c; use_skip_transcoder c; use_clt c] in
  if 1 <? foldr Z.add 0 (Z.b2z <$> flags)
  then Raise (ValueError
    "Only one of --use-transcoder, --use-skip-transcoder, or --use-clt can be set.")
  else if use_clt c && bool_decide (clt_layer_idx c = None)
  then Raise (ValueError "--clt-layer-idx must be specified when using --use-clt.")
  else
    let? l := load_models c in
    Ok {| cfg := with_outputs_dir c (resolved_outputs_dir l);
          sae_cfg_d_sae := loaded_d_sae l;
          sae_cfg_prepend_bos := loaded_prepend_bos l;
          model_id := loaded_model_id l;
          layer := loaded_layer l;
          vocab_dict := get_vocab_dict (tokenizer_vocab l) (d_vocab l) |}.

(** ** BatchExecutionController: [record_skipped_features] and [run] *)

Definition RUN_SETTINGS_FILE : string := "run_settings.json".

Definition run_settings_path (c : NeuronpediaRunnerConfig) : string :=
  outputs_dir c +:+ "/" +:+ RUN_SETTINGS_FILE.

Definition skipped_indexes_path (c : NeuronpediaRunnerConfig) : string :=
  outputs_dir c +:+ "/skipped_indexes.json".

(** [f"{self.cfg.outputs_dir}/batch-{feature_batch_count}.json"] *)
Definition batch_path (c : NeuronpediaRunnerConfig) (feature_batch_count : nat)
  : string :=
  outputs_dir c +:+ "/batch-" +:+ pretty feature_batch_count +:+ ".json".

Definition record_skipped_features (r : NeuronpediaRunner) (n_features : Z)
    (target_feature_indexes : list Z) : M unit :=
  let skipped_indexes : gset Z :=
    list_to_set (range n_features) ∖ list_to_set target_feature_indexes in
  write_file (skipped_indexes_path (cfg r))
    (SkippedIndexes (model_id r) (layer r) (sae_set (cfg r))
       (sparsity_threshold (cfg r)) (elements skipped_indexes)).

(** [self.cfg.end_batch is not None and feature_batch_count > self.cfg.end_batch] *)
Definition after_end (c : NeuronpediaRunnerConfig) (feature_batch_count : nat)
  : bool :=
  match end_batch c with
  | Some e => e <? Z.of_nat feature_batch_count
  | None => false
  end.

(** The two bounds tests of the loop body, together: the batch is neither
    before [start_batch] nor after a configured [end_batch]. *)
Definition in_bounds (c : NeuronpediaRunnerConfig) (feature_batch_count : nat)
  : bool :=
  negb (Z.of_nat feature_batch_count <? start_batch c)
  && negb (after_end c feature_batch_count).

(** The batches the loop has work for in an output directory holding
    [files]: within the bounds and with no artifact at their path. *)
Definition to_run (c : NeuronpediaRunnerConfig) (files : gmap string Content)
    (b : nat * list Z) : bool :=
  in_bounds c b.1 && bool_decide (files !! batch_path c b.1 = None).

(** The body of the batch loop for one [(feature_batch_count,
    features_to_process)] of the enumeration.  (Telemetry and the release
    of buffers after a batch touch nothing modelled here.) *)
Definition run_batch (r : NeuronpediaRunner) (tokens : Tensor2)
    (feature_batch_count : nat) (features_to_process : list Z) : M unit :=
  if Z.of_nat feature_batch_count <? start_batch (cfg r) then ret tt
  else if after_end (cfg r) feature_batch_count then ret tt
  else
    let output_file := batch_path (cfg r) feature_batch_count in
    let! file_exists := isfile output_file in
    if file_exists : bool then ret tt
    else
      let! feature_data := extract features_to_process tokens in
      let! json_object :=
        lift (convert_to_np_json feature_data (vocab_dict r)) in
      write_file output_file (BatchJson json_object).

Fixpoint batch_loop (r : NeuronpediaRunner) (tokens : Tensor2)
    (batches : list (nat * list Z)) : M unit :=
  match batches with
  | [] => ret tt
  | (feature_batch_count, features_to_process) :: rest =>
      let! _ := run_batch r tokens feature_batch_count features_to_process in
      batch_loop r tokens rest
  end.

Definition run (r : NeuronpediaRunner) : M unit :=
  let! _ := write_file (run_settings_path (cfg r)) (RunSettings (cfg r)) in
  let n_features := sae_cfg_d_sae r in
  let target_feature_indexes := get_alive_features n_features in
  let! feature_idx :=
    lift (get_feature_batches target_feature_indexes
            (n_features_at_a_time (cfg r))) in
  if Z.of_nat (length feature_idx) <=? start_batch (cfg r) then raise SystemExit
  else
    let! _ := record_skipped_features r n_features target_feature_indexes in
    let! tokens := get_tokens (cfg r) in
    let! tokens :=
      lift (add_prefix_suffix_to_tokens (prefix_tokens (cfg r))
              (suffix_tokens (cfg r)) (sae_cfg_prepend_bos r) tokens) in
    batch_loop r tokens (enumerate feature_idx).

End Runner.

(** ** The rest of [__init__]: devices, loader family, CLT weights, dataset
    path, output subdirectory *)

(** ** pathlib: pure POSIX paths

  What [Path(a).joinpath(b)] and [str] do with path strings: the string is
  cut at its slashes; empty components and [.] components are dropped; a
  path that starts with a slash has the root [/] (exactly two leading
  slashes make the root [//]); joining an absolute path replaces what was
  there; an empty path prints as [.]. *)

Module Pathlib.

(** The character [/]. *)
Definition slash : Ascii.ascii := Ascii.ascii_of_N 47.

(** [s.split("/")] *)
Fixpoint split_slash (s : string) : list string :=
  match s with
  | EmptyString => [EmptyString]
  | String c s' =>
      if Ascii.eqb c slash then EmptyString :: split_slash s'
      else
        match split_slash s' with
        | x :: xs => String c x :: xs
        | [] => [String c EmptyString]
        end
  end.

Definition starts_with_slash (s : string) : bool :=
  match s with
  | String c _ => Ascii.eqb c slash
  | EmptyString => false
  end.

Definition root (s : string) : string :=
  match s with
  | String c1 s1 =>
      if Ascii.eqb c1 slash then
        if starts_with_slash s1
        then match s1 with
             | String _ s2 => if starts_with_slash s2 then "/" else "//"
             | EmptyString => "/"
             end
        else "/"
      else ""
  | EmptyString => ""
  end.

Definition kept (x : string) : bool :=
  negb (String.eqb x "") && negb (String.eqb x ".").

Definition parts (s : string) : list string :=
  List.filter kept (split_slash s).

Record PurePath : Type := mkPath {
  path_root : string;
  path_parts : list string
}.

(** [Path(s)] *)
Definition Path (s : string) : PurePath := mkPath (root s) (parts s).

(** [p.joinpath(s)] *)
Definition joinpath (p : PurePath) (s : string) : PurePath :=
  if String.eqb (root s) ""
  then mkPath (path_root p) (path_parts p ++ parts s)
  else Path s.

(** ["/".join(l)] *)
Fixpoint join_slash (l : list string) : string :=
  match l with
  | [] => ""
  | x :: l' =>
      match l' with
      | [] => x
      | _ :: _ => x +:+ "/" +:+ join_slash l'
      end
  end.

(** [str(p)], which is [p.as_posix()] on POSIX *)
Definition to_str (p : PurePath) : string :=
  let s := path_root p +:+ join_slash (path_parts p) in
  if String.eqb s "" then "." else s.

End Pathlib.

Module Init.

(** Truth value of an [Optional[str]] and of an [Optional[int]]. *)
Definition str_set (x : option string) : bool :=
  match x with
  | Some s => negb (bool_decide (s = ""))
  | None => false
  end.

Definition int_set (x : option Z) : bool :=
  match x with
  | Some n => negb (n =? 0)
  | None => false
  end.

(** [x or d] *)
Definition or_str (x : option string) (d : string) : option string :=
  if str_set x then x else Some d.

Definition or_int (x : option Z) (d : Z) : option Z :=
  if int_set x then x else Some d.

(** The device fields of the configuration. *)
Record DeviceConfig : Type := mkDeviceConfig {
  sae_device : option string;
  model_device : option string;
  model_n_devices : option Z;
  activation_store_device : option string
}.

(** What torch reports: [torch.backends.mps.is_available()],
    [torch.cuda.is_available()], [torch.cuda.device_count()]. *)
Record TorchEnv : Type := mkTorchEnv {
  mps_is_available : bool;
  cuda_is_available : bool;
  cuda_device_count : Z
}.

(** The device block of [__init__]: the configuration after it, and
    [device_count]. *)
Definition resolve_devices (env : TorchEnv) (c : DeviceConfig)
  : DeviceConfig * Z :=
  if mps_is_available env then
    ({| sae_device := or_str (sae_device c) "mps";
        model_device := or_str (model_device c) "mps";
        model_n_devices := or_int (model_n_devices c) 1;
        activation_store_device := or_str (activation_store_device c) "mps" |},
     1)
  else if cuda_is_available env then
    let device_count := cuda_device_count env in
    let c1 :=
      if 1 <? device_count then
        {| sae_device :=
             or_str (sae_device c) ("cuda:" +:+ pretty (device_count - 1));
           model_device := model_device c;
           model_n_devices := or_int (model_n_devices c) (device_count - 1);
           activation_store_device := activation_store_device c |}
      else
        {| sae_device := or_str (sae_device c) "cuda";
           model_device := model_device c;
           model_n_devices := model_n_devices c;
           activation_store_device := activation_store_device c |} in
    ({| sae_device := or_str (sae_device c1) "cuda";
        model_device := or_str (model_device c1) "cuda";
        model_n_devices := model_n_devices c1;
        activation_store_device := or_str (activation_store_device c1) "cuda" |},
     device_count)
  else
    ({| sae_device := or_str (sae_device c) "cpu";
        model_device := or_str (model_device c) "cpu";
        model_n_devices := or_int (model_n_devices c) 1;
        activation_store_device := or_str (activation_store_device c) "cpu" |},
     1).

(** The encoder families of the [if]/[elif] chain that picks a loader. *)
Inductive Family : Type :=
| SkipTranscoderFamily
| TranscoderFamily
| CLTFamily
| SAEFamily.

Definition loader_family (c : NeuronpediaRunnerConfig) : Family :=
  if use_skip_transcoder c then SkipTranscoderFamily
  else if use_transcoder c then TranscoderFamily
  else if use_clt c then CLTFamily
  else SAEFamily.

(** The validation block of [__init__] alone: [None] when it lets the
    configuration through, the message of its [ValueError] otherwise. *)
Definition validation_error (c : NeuronpediaRunnerConfig) : option string :=
  let flags := [use_transcoder c; use_skip_transcoder c; use_clt c] in
  if 1 <? foldr Z.add 0 (Z.b2z <$> flags)
  then Some "Only one of --use-transcoder, --use-skip-transcoder, or --use-clt can be set."
  else if use_clt c && bool_decide (clt_layer_idx c = None)
  then Some "--clt-layer-idx must be specified when using --use-clt."
  else None.

(** The search for the CLT weights file.  [path_join dir name] is
    [Path(dir) / name], [is_file] is [Path.is_file], and
    [glob_safetensors dir] is [sorted(Path(dir).glob("*.safetensors"))]. *)
Section CLTWeights.

Variable Path : Type.
Variable path_join : string -> string -> Path.
Variable is_file : Path -> bool.
Variable glob_safetensors : string -> list Path.

Definition candidate_paths (sae_path explicit_filename : string) : list Path :=
  let candidate_paths :=
    if bool_decide (explicit_filename = "") then []
    else [path_join sae_path explicit_filename] in
  let search :=
    match candidate_paths with
    | [] => true
    | first :: _ => negb (is_file first)
    end in
  if search then
    candidate_paths ++ glob_safetensors sae_path
      ++ [path_join sae_path "model.safetensors";
          path_join sae_path "model.pt";
          path_join sae_path "model.bin"]
  else candidate_paths.

(** [for cand in candidate_paths: if cand.is_file(): weights_path = cand; break] *)
Definition weights_path (sae_path explicit_filename : string) : option Path :=
  List.find is_file (candidate_paths sae_path explicit_filename).

End CLTWeights.

(** The two dataset-path steps of [__init__]: an empty
    [cfg.huggingface_dataset_path] takes the encoder's [dataset_path]; later
    an encoder config without dataset path takes the configuration's.
    Returns the configuration's and the encoder's value after both. *)
Definition reconcile_dataset_path (huggingface_dataset_path : string)
    (sae_dataset_path : option string) : option string * option string :=
  let huggingface_dataset_path :=
    if bool_decide (huggingface_dataset_path = "") then sae_dataset_path
    else Some huggingface_dataset_path in
  let model_dataset_path :=
    if str_set sae_dataset_path then sae_dataset_path
    else huggingface_dataset_path in
  (huggingface_dataset_path, model_dataset_path).

(** The first two statements of [create_output_directory], the name of the
    subdirectory: [f"{model_id}_{sae_set}_{hook_name}_{d_sae}"], then
    [f"_{suffix}"] when [np_sae_id_suffix] is not [None].  The path the
    function returns is built from it below. *)
Definition outputs_subdir (model_id sae_set hook_name : string) (d_sae : Z)
    (np_sae_id_suffix : option string) : string :=
  let outputs_subdir :=
    model_id +:+ "_" +:+ sae_set +:+ "_" +:+ hook_name +:+ "_" +:+ pretty d_sae in
  match np_sae_id_suffix with
  | Some suffix => outputs_subdir +:+ "_" +:+ suffix
  | None => outputs_subdir
  end.

(** [create_output_directory]: the subdirectory name joined to
    [cfg.outputs_dir]; a [ValueError] when a file sits at that path;
    otherwise the path as a string.  [is_file p] is
    [p.exists() and p.is_file()].  ([mkdir(parents=True, exist_ok=True)]
    creates the directory before the return; the operating-system errors it
    can end in are not modelled.) *)
Definition create_output_directory (is_file : string -> bool)
    (cfg_outputs_dir model_id sae_set hook_name : string) (d_sae : Z)
    (np_sae_id_suffix : option string) : result string :=
  let outputs_subdir :=
    outputs_subdir model_id sae_set hook_name d_sae np_sae_id_suffix in
  let outputs_dir :=
    Pathlib.joinpath (Pathlib.Path cfg_outputs_dir) outputs_subdir in
  if is_file (Pathlib.to_str outputs_dir)
  then Raise (ValueError
         ("Error: Output directory " +:+ Pathlib.to_str outputs_dir
          +:+ " exists and is a file."))
  else Ok (Pathlib.to_str outputs_dir).

End Init.

(** ** A concrete run

    Collaborators, a token stream and configurations on which the
    definitions above are evaluated below.  The stream is the scenario of
    three draws of four sequences in which the fifth sequence repeats the
    first and the ninth repeats the second. *)

Module Demo.

#[export] Instance collaborators : Collaborators := {|
  FeatureData := list Z;
  Generator := unit;
  load_models := fun c =>
    Ok {| loaded_d_sae := 6;
          loaded_prepend_bos := true;
          loaded_model_id := "gpt2-small";
          loaded_layer := "0";
          tokenizer_vocab := [(str_of_ascii "a", 0); (str_of_ascii "b", 1)];
          d_vocab := 3;
          resolved_outputs_dir := outputs_dir c +:+ "/gpt2-small_res-jb" |};
  randperm := fun g n => (reverse (seq 0 n), g);
  randperm_perm := fun g n => reverse_Permutation (seq 0 n);
  SaeVisRunner_run := fun features tokens => Ok features;
  convert_to_np_json := fun feature_data vocab =>
    Ok ("features:" +:+ pretty (length feature_data))
|}.

Definition sequence (k : Z) : list Z := [k; k + 100].

Definition batch (ks : list Z) : Tensor2 :=
  {| shape1 := 2; rows := sequence <$> ks |}.

Definition stream : list Tensor2 :=
  [batch [1; 2; 3; 4]; batch [1; 6; 7; 8]; batch [2; 10; 11; 12]].

Definition world (files : gmap string Content) : World :=
  {| fs := files;
     activations_store := {| store_batch_size_prompts := 4; pending := stream |};
     generator := tt;
     extraction_calls := [] |}.

Definition config_of (start : Z) (stop : option Z)
    (prefix suffix : option (list Z)) (transcoder clt : bool)
  : NeuronpediaRunnerConfig :=
  {| sae_set := "res-jb";
     outputs_dir := "out";
     sparsity_threshold := 1;
     n_prompts_total := 8;
     n_prompts_in_forward_pass := 4;
     n_features_at_a_time := 2;
     start_batch := start;
     end_batch := stop;
     shuffle_tokens := false;
     prefix_tokens := prefix;
     suffix_tokens := suffix;
     use_transcoder := transcoder;
     use_skip_transcoder := false;
     use_clt := clt;
     clt_layer_idx := Some 0 |}.

Definition config : NeuronpediaRunnerConfig :=
  config_of 0 None None None false false.

(** The runner [__init__] builds from a configuration and the loaders above. *)
Definition runner (c : NeuronpediaRunnerConfig) : NeuronpediaRunner :=
  {| cfg := with_outputs_dir c (outputs_dir c +:+ "/gpt2-small_res-jb");
     sae_cfg_d_sae := 6;
     sae_cfg_prepend_bos := true;
     model_id := "gpt2-small";
     layer := "0";
     vocab_dict :=
       get_vocab_dict [(str_of_ascii "a", 0); (str_of_ascii "b", 1)] 3 |}.

(** A corpus of three sequences of length 4. *)
Definition corpus : Tensor2 :=
  {| shape1 := 4; rows := [[1; 2; 3; 4]; [1; 5; 6; 7]; [1; 8; 9; 10]] |}.



End Demo.

(** * Properties *)

(** Arithmetic on tensor shapes, after unfolding local abbreviations. *)
Local Ltac splice_arith :=
  repeat match goal with x := _ : Z |- _ => subst x end;
  cbn [rows shape1 unsqueeze1 repeat_row Z.b2z] in *; lia.

(** ** Python and numpy on small inputs *)

Example replace_example :
  replace (str_of_ascii "aaa") (str_of_ascii "aa") (str_of_ascii "b")
  = str_of_ascii "ba".
Proof. reflexivity. Qed.

Example replace_empty_pattern :
  replace (str_of_ascii "abc") [] (str_of_ascii "-") = str_of_ascii "-a-b-c-".
Proof. reflexivity. Qed.

Example fix_anomalies_example :
  fix_anomalies ([0x120; 0x74; 0x68; 0x65; 0xe2; 0x122; 0x136]%N)
  = [0x20; 0x74; 0x68; 0x65; 0x2014]%N.
Proof. reflexivity. Qed.

Example slice_to_negative : slice_to (-1) [1; 2; 3] = [1; 2].
Proof. reflexivity. Qed.

Example array_split_10_3 :
  Numpy.array_split [0; 1; 2; 3; 4; 5; 6; 7; 8; 9] 3
  = Ok [[0; 1; 2; 3]; [4; 5; 6]; [7; 8; 9]].
Proof. reflexivity. Qed.

Example array_split_zero_sections :
  Numpy.array_split [0; 1] 0
  = Raise (ValueError "number sections must be larger than 0.").
Proof. reflexivity. Qed.

Example plan_8_4 :
  get_feature_batches (get_alive_features 8) 4
  = Ok [[0; 1; 2; 3]; [4; 5; 6; 7]].
Proof. by vm_compute. Qed.

Example plan_zero_batch_size :
  get_feature_batches (get_alive_features 8) 0 = Raise ZeroDivisionError.
Proof. by vm_compute. Qed.

Example true_divide_third :
  Float64.true_divide 1 3 = Ok (Float64.mkFloat 6004799503160661 (-54)).
Proof. by vm_compute. Qed.

Example true_divide_tie_to_even :
  Float64.true_divide 1 (2 ^ 1075) = Ok (Float64.mkFloat 0 (-1074))
  /\ Float64.true_divide 3 (2 ^ 1075) = Ok (Float64.mkFloat 2 (-1074)).
Proof. split; by vm_compute. Qed.

Example true_divide_overflow :
  Float64.true_divide (2 ^ 1024) 1 = Raise OverflowError.
Proof. by vm_compute. Qed.

Example pathlib_join :
  Pathlib.to_str (Pathlib.joinpath (Pathlib.Path "out//x/./") "a/b/")
  = "out/x/a/b"
  /\ Pathlib.to_str (Pathlib.joinpath (Pathlib.Path "out") "/abs//m")
     = "/abs/m"
  /\ Pathlib.to_str (Pathlib.Path "") = ".".
Proof. repeat split; by vm_compute. Qed.

(** ** The feature batch plan *)

Section PlannerFacts.

Context {A : Type}.
Implicit Types (l : list A) (sizes : list nat).

Lemma sub_arys_length sizes a l :
  length (Numpy.sub_arys (a :: Numpy.cumsum_from a sizes) l) = length sizes.
Proof.
  revert a; induction sizes as [|x sizes IH]; intros a; simpl; [done|].
  f_equal. apply IH.
Qed.

Lemma sub_arys_concat sizes a l :
  concat (Numpy.sub_arys (a :: Numpy.cumsum_from a sizes) l)
  = take (sum_list sizes) (drop a l).
Proof.
  revert a; induction sizes as [|x sizes IH]; intros a.
  - simpl. by rewrite take_0.
  - change (concat (slice a (a + x) l
              :: Numpy.sub_arys ((a + x)%nat :: Numpy.cumsum_from (a + x) sizes) l)
            = take (x + sum_list sizes) (drop a l)).
    rewrite concat_cons, IH. unfold slice.
    replace (a + x - a)%nat with x by lia.
    rewrite <- take_take_drop, drop_drop. done.
Qed.

Lemma sub_arys_lookup sizes a l i s :
  (a + sum_list sizes <= length l)%nat ->
  sizes !! i = Some s ->
  exists g, Numpy.sub_arys (a :: Numpy.cumsum_from a sizes) l !! i = Some g
            /\ length g = s.
Proof.
  revert a i; induction sizes as [|x sizes IH]; intros a i Hle Hi; [done|].
  change (exists g,
    (slice a (a + x) l
       :: Numpy.sub_arys ((a + x)%nat :: Numpy.cumsum_from (a + x) sizes) l) !! i
    = Some g /\ length g = s).
  simpl in Hle. destruct i as [|i]; simpl in Hi.
  - injection Hi as ->. eexists; split; [done|].
    unfold slice. rewrite length_take, length_drop. lia.
  - apply (IH (a + x)%nat i); [lia | done].
Qed.

End PlannerFacts.

Lemma section_sizes_sum (Ntotal Nsections : nat) :
  (0 < Nsections)%nat ->
  sum_list (Numpy.section_sizes Ntotal Nsections) = Ntotal.
Proof.
  intros Hpos. unfold Numpy.section_sizes.
  rewrite sum_list_with_app, !sum_list_replicate.
  pose proof (Nat.div_mod_eq Ntotal Nsections) as E.
  pose proof (Nat.mod_upper_bound Ntotal Nsections ltac:(lia)) as B.
  nia.
Qed.

Lemma section_sizes_length (Ntotal Nsections : nat) :
  (0 < Nsections)%nat ->
  length (Numpy.section_sizes Ntotal Nsections) = Nsections.
Proof.
  intros Hn. unfold Numpy.section_sizes. rewrite length_app, !length_replicate.
  pose proof (Nat.mod_upper_bound Ntotal Nsections ltac:(lia)). lia.
Qed.

Lemma section_sizes_lookup (Ntotal Nsections i : nat) :
  (i < Nsections)%nat ->
  Numpy.section_sizes Ntotal Nsections !! i
  = Some (if decide (i < Ntotal mod Nsections)%nat
          then (Ntotal / Nsections + 1)%nat else (Ntotal / Nsections)%nat).
Proof.
  intros Hi. unfold Numpy.section_sizes.
  pose proof (Nat.mod_upper_bound Ntotal Nsections ltac:(lia)) as B.
  case_decide.
  - rewrite lookup_app_l by (rewrite length_replicate; lia).
    by apply lookup_replicate_2.
  - rewrite lookup_app_r by (rewrite length_replicate; lia).
    rewrite length_replicate. apply lookup_replicate_2. lia.
Qed.

(** What [array_split] returns for a positive section count. *)
Lemma array_split_spec {A} (ary : list A) (n : Z) :
  0 < n ->
  exists groups,
    Numpy.array_split ary n = Ok groups
    /\ length groups = Z.to_nat n
    /\ concat groups = ary
    /\ forall i, (i < Z.to_nat n)%nat ->
         exists g, groups !! i = Some g
           /\ length g =
                if decide (i < length ary mod Z.to_nat n)%nat
                then (length ary / Z.to_nat n + 1)%nat
                else (length ary / Z.to_nat n)%nat.
Proof.
  intros Hn. unfold Numpy.array_split.
  destruct (n <=? 0) eqn:E; [lia|]. eexists; split; [done|].
  unfold Numpy.div_points, Numpy.cumsum.
  change (Numpy.cumsum_from 0 (0%nat :: ?s))
    with (0%nat :: Numpy.cumsum_from 0 s).
  assert (Hsum := section_sizes_sum (length ary) (Z.to_nat n) ltac:(lia)).
  split; [|split].
  - rewrite sub_arys_length, section_sizes_length; lia.
  - rewrite sub_arys_concat, Hsum, drop_0. by apply take_ge.
  - intros i Hi. apply sub_arys_lookup; [lia|].
    by apply section_sizes_lookup.
Qed.

(** ** Rounding and the section count *)

Lemma round_half_even_nonneg (num den : Z) :
  0 < den -> 0 <= num -> 0 <= Float64.round_half_even num den.
Proof.
  intros Hd Hn. unfold Float64.round_half_even.
  pose proof (Z.div_pos num den Hn Hd).
  destruct (_ || _); lia.
Qed.

Lemma round_half_even_le (num den N : Z) :
  0 < den -> num <= N * den -> Float64.round_half_even num den <= N.
Proof.
  intros Hd Hn. unfold Float64.round_half_even.
  pose proof (Z.div_mod num den ltac:(lia)) as E.
  pose proof (Z.mod_pos_bound num den Hd) as B.
  destruct (_ || _) eqn:Hup.
  - apply orb_true_iff in Hup as [Hup|Hup].
    + apply Z.ltb_lt in Hup. nia.
    + apply andb_true_iff in Hup as [Hup _]. apply Z.eqb_eq in Hup. nia.
  - nia.
Qed.

Lemma round_half_even_gt (num den N : Z) :
  0 < den -> den < 2 * (num - N * den) ->
  N + 1 <= Float64.round_half_even num den.
Proof.
  intros Hd Hn. unfold Float64.round_half_even.
  pose proof (Z.div_mod num den ltac:(lia)) as E.
  pose proof (Z.mod_pos_bound num den Hd) as B.
  destruct (_ || _) eqn:Hup.
  - nia.
  - apply orb_false_iff in Hup as [Hup _]. apply Z.ltb_ge in Hup. nia.
Qed.

Lemma round_half_even_zero (num den : Z) :
  0 <= num -> 2 * num <= den -> 0 < den ->
  Float64.round_half_even num den = 0.
Proof.
  intros Hn Hh Hd. unfold Float64.round_half_even.
  rewrite Z.div_small, Z.mod_small by lia.
  destruct (Z.ltb_spec den (2 * num)); [lia|]. simpl.
  by rewrite andb_false_r.
Qed.

Lemma log2_quotient_le (a b : Z) :
  Float64.log2_quotient a b <= Z.log2 a - Z.log2 b.
Proof. unfold Float64.log2_quotient. destruct (_ <? _); lia. Qed.

(** The double [a / b] for a numerator below [2^53]. *)
Lemma true_divide_small (a b : Z) :
  0 < a < 2 ^ 53 -> b <> 0 ->
  let e := Z.max (Float64.log2_quotient a (Z.abs b) - 52) (-1074) in
  let m := Float64.round_half_even (a * 2 ^ (- e)) (Z.abs b) in
  -1074 <= e <= 0
  /\ 0 <= m <= a * 2 ^ (- e)
  /\ Float64.true_divide a b = Ok (Float64.mkFloat (Z.sgn b * m) e).
Proof.
  intros Ha Hb e m.
  assert (Z.log2 a < 53) as Hla by (apply Z.log2_lt_pow2; lia).
  pose proof (Z.log2_nonneg (Z.abs b)) as Hlb.
  pose proof (log2_quotient_le a (Z.abs b)) as Ht.
  assert (-1074 <= e <= 0) as He by (subst e; lia).
  assert (0 < 2 ^ (- e)) as HE by (apply Z.pow_pos_nonneg; lia).
  assert (0 <= m <= a * 2 ^ (- e)) as Hm.
  { subst m. split.
    - apply round_half_even_nonneg; nia.
    - apply round_half_even_le; nia. }
  split; [done|]. split; [done|].
  unfold Float64.true_divide.
  destruct (Z.eqb_spec b 0) as [?|_]; [done|].
  destruct (Z.eqb_spec a 0) as [?|_]; [lia|].
  rewrite (Z.abs_eq a) by lia. fold e.
  rewrite (Z.max_r 0 (- e)), (Z.max_l 0 e) by lia.
  rewrite Z.pow_0_r, Z.mul_1_r. fold m.
  assert ((0 <=? e) && (2 ^ 1024 <=? m * 2 ^ e) = false) as ->.
  { destruct (Z.leb_spec 0 e); [|done]. simpl.
    assert (e = 0) as He0 by lia. rewrite He0 in *.
    rewrite Z.pow_0_r, Z.mul_1_r in *. apply Z.leb_gt.
    assert (2 ^ 53 < 2 ^ 1024) by (apply Z.pow_lt_mono_r; lia). lia. }
  rewrite (Z.sgn_pos a) by lia. by rewrite Z.mul_1_l.
Qed.

(** [np.ceil(x).astype(int)] of a double with a non-positive exponent. *)
Lemma astype_ceil (s e : Z) :
  e <= 0 ->
  - 2 ^ 63 <= - ((- s) / 2 ^ (- e)) < 2 ^ 63 ->
  Float64.astype_int (Float64.np_ceil (Float64.mkFloat s e))
  = - ((- s) / 2 ^ (- e)).
Proof.
  intros He Hr. unfold Float64.np_ceil, Float64.astype_int. simpl.
  destruct (Z.ltb_spec e 0) as [Hneg|Hz]; simpl.
  - rewrite Z.mul_1_r.
    destruct (Z.leb_spec (- 2 ^ 63) (- ((- s) / 2 ^ (- e)))); [|lia].
    destruct (Z.ltb_spec (- ((- s) / 2 ^ (- e))) (2 ^ 63)); [done|lia].
  - assert (e = 0) as -> by lia. simpl in *.
    rewrite Z.div_1_r, Z.opp_involutive in *.
    destruct (Z.ltb_spec 0 0); [lia|]. rewrite Z.mul_1_r.
    destruct (Z.leb_spec (- 2 ^ 63) s); [|lia].
    destruct (Z.ltb_spec s (2 ^ 63)); [done|lia].
Qed.

(** Rounding does not move the ceiling when the distance of the quotient
    to the integer below it is more than half a unit of the scale [E]. *)
Lemma ceil_rounded (a b E c : Z) :
  0 < b -> 0 < E ->
  (c - 1) * b < a <= c * b ->
  b < 2 * (a - (c - 1) * b) * E ->
  - ((- Float64.round_half_even (a * E) b) / E) = c.
Proof.
  intros Hb HE Hc Hgap.
  pose proof (round_half_even_le (a * E) b (c * E) Hb ltac:(nia)) as Hup.
  pose proof (round_half_even_gt (a * E) b ((c - 1) * E) Hb ltac:(nia)) as Hlo.
  set (m := Float64.round_half_even (a * E) b) in *.
  pose proof (Z.div_mod (- m) E ltac:(lia)) as D.
  pose proof (Z.mod_pos_bound (- m) E HE) as B.
  nia.
Qed.

Lemma ceil_quotient_bounds (a b : Z) :
  0 < b ->
  ((a + b - 1) / b - 1) * b < a <= (a + b - 1) / b * b.
Proof.
  intros Hb.
  pose proof (Z.div_mod (a + b - 1) b ltac:(lia)) as E.
  pose proof (Z.mod_pos_bound (a + b - 1) b Hb) as B.
  nia.
Qed.

(** The section count the planner computes, for a list of fewer than
    [2^53] entries and a positive batch size: the exact ceiling of the
    quotient, unless the quotient is at most [2^-1075] and underflows to
    zero. *)
Lemma true_divide_ceil (a b : Z) :
  0 < a < 2 ^ 53 -> 0 < b ->
  exists q,
    Float64.true_divide a b = Ok q
    /\ Float64.astype_int (Float64.np_ceil q)
       = if a * 2 ^ 1075 <=? b then 0 else (a + b - 1) / b.
Proof.
  intros Ha Hb.
  destruct (true_divide_small a b Ha ltac:(lia)) as (He & Hm & ->).
  rewrite (Z.abs_eq b) in * by lia. rewrite (Z.sgn_pos b), Z.mul_1_l by lia.
  set (e := Z.max (Float64.log2_quotient a b - 52) (-1074)) in *.
  set (E := 2 ^ (- e)) in *.
  assert (0 < E) as HE by (apply Z.pow_pos_nonneg; lia).
  assert (2 ^ 53 < 2 ^ 63) as H63 by (apply Z.pow_lt_mono_r; lia).
  assert (2 ^ 1075 = 2 * 2 ^ 1074) as H1075
    by (change 1075 with (Z.succ 1074); apply Z.pow_succ_r; lia).
  assert (Z.log2 a < 53) as Hla by (apply Z.log2_lt_pow2; lia).
  pose proof (Z.log2_nonneg a) as Hla0.
  pose proof (proj1 (Z.log2_spec a ltac:(lia))) as Halo.
  pose proof (Z.log2_spec b Hb) as [Hblo Hbhi].
  pose proof (log2_quotient_le a b) as Ht.
  eexists; split; [done|].
  destruct (Z.leb_spec (a * 2 ^ 1075) b) as [Hunder|Hnorm].
  - (* the quotient underflows *)
    assert (Z.log2 a + 1075 <= Z.log2 b) as Hlb.
    { apply Z.log2_le_pow2; [lia|]. rewrite Z.pow_add_r by lia.
      assert (0 < 2 ^ 1075) by (apply Z.pow_pos_nonneg; lia). nia. }
    assert (e = -1074) as He' by (subst e; lia).
    assert (E = 2 ^ 1074) as HE' by (subst E; by rewrite He').
    assert (Float64.round_half_even (a * E) b = 0) as Hz
      by (apply round_half_even_zero; nia).
    rewrite Hz. rewrite astype_ceil; fold E; simpl; rewrite ?Z.div_0_l; lia.
  - set (c := (a + b - 1) / b).
    pose proof (ceil_quotient_bounds a b Hb) as Hc. fold c in Hc.
    assert (1 <= c <= a) as Hc1 by nia.
    assert (b < 2 * (a - (c - 1) * b) * E) as Hgap.
    { destruct (Z.max_spec (Float64.log2_quotient a b - 52) (-1074))
        as [[Hlt Hmax]|[Hge Hmax]]; fold e in Hmax.
      - (* subnormal scale *)
        assert (E = 2 ^ 1074) as HE' by (subst E; by rewrite Hmax).
        destruct (Z.lt_ge_cases b (2 * E)) as [?|Hbig]; [nia|].
        assert (c = 1) as ->; [|nia].
        assert (2 ^ 53 < 2 ^ 1075) by (apply Z.pow_lt_mono_r; lia). nia.
      - assert (2 ^ Z.log2 b <= E) as HEb
          by (subst E; apply Z.pow_le_mono_r; lia).
        rewrite Z.pow_succ_r in Hbhi by apply Z.log2_nonneg. nia. }
    pose proof (ceil_rounded a b E c Hb HE Hc Hgap) as Hceil.
    rewrite astype_ceil; fold E; rewrite ?Hceil; lia.
Qed.

(** A negative batch size gives a section count that is not positive. *)
Lemma true_divide_ceil_neg (a b : Z) :
  0 < a < 2 ^ 53 -> b < 0 ->
  exists q,
    Float64.true_divide a b = Ok q
    /\ Float64.astype_int (Float64.np_ceil q) <= 0.
Proof.
  intros Ha Hb.
  destruct (true_divide_small a b Ha ltac:(lia)) as (He & Hm & ->).
  rewrite (Z.sgn_neg b) by lia.
  set (e := Z.max (Float64.log2_quotient a (Z.abs b) - 52) (-1074)) in *.
  set (m := Float64.round_half_even (a * 2 ^ (- e)) (Z.abs b)) in *.
  set (E := 2 ^ (- e)) in *.
  assert (0 < E) as HE by (apply Z.pow_pos_nonneg; lia).
  assert (2 ^ 53 < 2 ^ 63) as H63 by (apply Z.pow_lt_mono_r; lia).
  eexists; split; [done|].
  replace (-1 * m) with (- m) by lia.
  pose proof (Z.div_mod m E ltac:(lia)) as D.
  pose proof (Z.mod_pos_bound m E HE) as B.
  rewrite astype_ceil; fold E; rewrite ?Z.opp_involutive; [nia|lia|nia].
Qed.

Lemma get_alive_features_length (n : Z) :
  0 <= n -> Z.of_nat (length (get_alive_features n)) = n.
Proof.
  intros Hn. unfold get_alive_features, range. rewrite length_seqZ. lia.
Qed.

Lemma torch_tensor_Ok (l : list Z) :
  Forall (fun x => - 2 ^ 63 <= x < 2 ^ 63) l -> torch_tensor l = Ok l.
Proof.
  intros Hl. unfold torch_tensor.
  assert (forallb int64 l = true) as ->; [|done].
  apply List.forallb_forall. intros x Hx%list_elem_of_In.
  pose proof (proj1 (Forall_forall _ _) Hl x Hx) as Hr. cbv beta in Hr.
  unfold int64. apply andb_true_iff. split; [apply Z.leb_le|apply Z.ltb_lt]; lia.
Qed.

Lemma torch_tensor_Raise (l : list Z) :
  ~ Forall (fun x => - 2 ^ 63 <= x < 2 ^ 63) l ->
  torch_tensor l = Raise (RuntimeError "Overflow when unpacking long").
Proof.
  intros Hl. unfold torch_tensor.
  destruct (forallb int64 l) eqn:Hall; [|done]. exfalso. apply Hl.
  apply Forall_forall. intros x Hx%list_elem_of_In.
  pose proof (proj1 (List.forallb_forall _ _) Hall x Hx) as Hr.
  unfold int64 in Hr. apply andb_true_iff in Hr as [?%Z.leb_le ?%Z.ltb_lt]. lia.
Qed.

Lemma torch_tensor_features (n : Z) :
  n < 2 ^ 63 -> torch_tensor (get_alive_features n) = Ok (get_alive_features n).
Proof.
  intros Hn. apply torch_tensor_Ok, Forall_forall.
  intros x Hx. unfold get_alive_features, range in Hx.
  apply elem_of_seqZ in Hx.
  assert (0 < 2 ^ 63) by (apply Z.pow_pos_nonneg; lia). lia.
Qed.

(** The plan of a feature count below [2^53] and a batch size whose
    quotient does not underflow, with everything [array_split] guarantees
    about it. *)
Lemma get_feature_batches_spec (n k : Z) :
  0 < n < 2 ^ 53 -> 0 < k < n * 2 ^ 1075 ->
  exists plan,
    get_feature_batches (get_alive_features n) k = Ok plan
    /\ length plan = Z.to_nat ((n + k - 1) / k)
    /\ (0 < length plan)%nat
    /\ concat plan = seqZ 0 n
    /\ forall i, (i < length plan)%nat ->
         exists g, plan !! i = Some g
           /\ length g =
                if decide (i < Z.to_nat n mod length plan)%nat
                then (Z.to_nat n / length plan + 1)%nat
                else (Z.to_nat n / length plan)%nat.
Proof.
  intros Hn Hk. unfold get_feature_batches.
  assert (2 ^ 53 < 2 ^ 63) as H63 by (apply Z.pow_lt_mono_r; lia).
  rewrite torch_tensor_features by lia. cbn [rbind].
  rewrite get_alive_features_length by lia.
  destruct (true_divide_ceil n k Hn ltac:(lia)) as (q & -> & Hq).
  cbn [rbind]. rewrite Hq.
  destruct (Z.leb_spec (n * 2 ^ 1075) k) as [?|_]; [lia|].
  pose proof (ceil_quotient_bounds n k ltac:(lia)) as B.
  assert (0 < (n + k - 1) / k) as Hm by nia.
  destruct (array_split_spec (get_alive_features n) ((n + k - 1) / k) Hm)
    as (plan & -> & Hlen & Hcat & Hsz).
  assert (length (get_alive_features n) = Z.to_nat n) as Hl
    by (pose proof (get_alive_features_length n); lia).
  exists plan. rewrite Hlen. split; [done|]. split; [done|].
  split; [lia|]. split; [done|].
  intros i Hi. destruct (Hsz i Hi) as (g & Hg & Hgl).
  exists g. split; [done|]. by rewrite <- Hl.
Qed.

(** A batch size below [2^1075] is below the underflow threshold of every
    positive feature count. *)
Lemma below_underflow (n k : Z) : 0 < n -> k < 2 ^ 1075 -> k < n * 2 ^ 1075.
Proof.
  intros Hn Hk. assert (0 < 2 ^ 1075) by (apply Z.pow_pos_nonneg; lia). nia.
Qed.

(** C4: the planner misses on a huge batch size.  For 10 features and
    [n_features_at_a_time = 10^400] the claim asks for
    [ceil(10 / 10^400) = 1] group holding [0 .. 9]; the quotient
    [10 / 10^400] underflows to the double [0.0], its ceiling is 0, and
    [array_split] refuses a section count of 0. *)
Theorem get_feature_batches_huge_batch_size :
  0 < 10 /\ 0 < 10 ^ 400
  /\ (10 + 10 ^ 400 - 1) / 10 ^ 400 = 1
  /\ Float64.true_divide 10 (10 ^ 400) = Ok (Float64.mkFloat 0 (-1074))
  /\ get_feature_batches (get_alive_features 10) (10 ^ 400)
     = Raise (ValueError "number sections must be larger than 0.").
Proof.
  split; [lia|]. split; [by vm_compute|].
  split; [by vm_compute|]. split; by vm_compute.
Qed.

(** X26: for a feature count below [2^53] and a positive batch size below
    [2^1075], the planner returns exactly
    [ceil(n_features / n_features_at_a_time)] groups, and their
    concatenation in plan order is the ascending sequence
    [0, 1, ..., n_features - 1]: no index is duplicated, none is missing. *)
Theorem get_feature_batches_partition (n_features n_features_at_a_time : Z) :
  0 < n_features < 2 ^ 53 -> 0 < n_features_at_a_time < 2 ^ 1075 ->
  exists plan,
    get_feature_batches (get_alive_features n_features) n_features_at_a_time
    = Ok plan
    /\ Z.of_nat (length plan)
       = (n_features + n_features_at_a_time - 1) / n_features_at_a_time
    /\ n_features_at_a_time * (Z.of_nat (length plan) - 1) < n_features
       <= n_features_at_a_time * Z.of_nat (length plan)
    /\ concat plan = seqZ 0 n_features
    /\ NoDup (concat plan)
    /\ forall i, i ∈ concat plan <-> 0 <= i < n_features.
Proof.
  intros Hn Hk.
  destruct (get_feature_batches_spec n_features n_features_at_a_time Hn)
    as (plan & Hplan & Hlen & Hpos & Hcat & _).
  { split; [lia|]. apply below_underflow; lia. }
  pose proof (ceil_quotient_bounds n_features n_features_at_a_time ltac:(lia))
    as B.
  exists plan. split; [done|].
  assert (Z.of_nat (length plan)
          = (n_features + n_features_at_a_time - 1) / n_features_at_a_time)
    as Hl by lia.
  split; [done|]. split; [rewrite Hl; lia|].
  split; [done|]. rewrite Hcat. split; [apply NoDup_seqZ|].
  intros i. rewrite elem_of_seqZ. lia.
Qed.

(** The partition theorem at 10 features in batches of 4. *)
Lemma get_feature_batches_partition_witness :
  0 < 10 < 2 ^ 53 /\ 0 < 4 < 2 ^ 1075 /\
  exists plan,
    get_feature_batches (get_alive_features 10) 4 = Ok plan
    /\ Z.of_nat (length plan) = (10 + 4 - 1) / 4
    /\ 4 * (Z.of_nat (length plan) - 1) < 10 <= 4 * Z.of_nat (length plan)
    /\ concat plan = seqZ 0 10
    /\ NoDup (concat plan)
    /\ forall i, i ∈ concat plan <-> 0 <= i < 10.
Proof.
  assert (0 < 10 < 2 ^ 53) as Hn by (by vm_compute).
  assert (0 < 4 < 2 ^ 1075) as Hk by (by vm_compute).
  split; [exact Hn|]. split; [exact Hk|].
  exact (get_feature_batches_partition 10 4 Hn Hk).
Defined.

(** C3 (as the code has it): for a feature count below [2^53] and a
    positive batch size below [2^1075], the plan has
    [g = ceil(n_features / n_features_at_a_time)] groups, every group is
    non-empty and has at most [n_features_at_a_time] indices, and the groups
    are balanced: the first [n_features mod g] have [n_features / g + 1]
    indices and the others [n_features / g].  For [n_features = 10] and
    [n_features_at_a_time = 4] the plan is [[0,1,2,3],[4,5,6],[7,8,9]]. *)
Theorem get_feature_batches_balanced (n_features n_features_at_a_time : Z) :
  0 < n_features < 2 ^ 53 -> 0 < n_features_at_a_time < 2 ^ 1075 ->
  exists plan,
    get_feature_batches (get_alive_features n_features) n_features_at_a_time
    = Ok plan
    /\ Z.of_nat (length plan)
       = (n_features + n_features_at_a_time - 1) / n_features_at_a_time
    /\ n_features_at_a_time * (Z.of_nat (length plan) - 1) < n_features
       <= n_features_at_a_time * Z.of_nat (length plan)
    /\ (forall i g, plan !! i = Some g ->
          (1 <= length g)%nat
          /\ Z.of_nat (length g) <= n_features_at_a_time
          /\ length g =
               if decide (i < Z.to_nat n_features mod length plan)%nat
               then (Z.to_nat n_features / length plan + 1)%nat
               else (Z.to_nat n_features / length plan)%nat)
    /\ (n_features = 10 -> n_features_at_a_time = 4 ->
        plan = [[0; 1; 2; 3]; [4; 5; 6]; [7; 8; 9]]).
Proof.
  intros Hn Hk.
  destruct (get_feature_batches_spec n_features n_features_at_a_time Hn)
    as (plan & Hplan & Hlen & Hpos & Hcat & Hsz).
  { split; [lia|]. apply below_underflow; lia. }
  pose proof (ceil_quotient_bounds n_features n_features_at_a_time ltac:(lia))
    as B.
  assert (Z.of_nat (length plan)
          = (n_features + n_features_at_a_time - 1) / n_features_at_a_time)
    as Hg by lia.
  exists plan. split; [done|]. split; [done|]. split; [rewrite Hg; lia|].
  split.
  - intros i g Hi'.
    assert (i < length plan)%nat as Hi by (by eapply lookup_lt_Some).
    destruct (Hsz i Hi) as (g' & Hg' & Hgl).
    assert (g' = g) as -> by congruence.
    rewrite <- Hg in B. clear Hg Hlen Hplan Hsz Hcat.
    set (m := length plan) in *. set (N := Z.to_nat n_features) in *.
    assert (Z.of_nat N = n_features) as HN by lia.
    pose proof (Nat.div_mod_eq N m) as E.
    pose proof (Nat.mod_upper_bound N m ltac:(lia)) as R.
    assert (m <= N)%nat as HmN by nia.
    assert (1 <= N / m)%nat as Hq by (apply Nat.div_str_pos; lia).
    split; [|split]; [| |done].
    + rewrite Hgl. case_decide; lia.
    + rewrite Hgl. case_decide; nia.
  - intros -> ->. vm_compute in Hplan. by injection Hplan as <-.
Qed.

(** The balance theorem at 10 features in batches of 4. *)
Lemma get_feature_batches_balanced_witness :
  0 < 10 < 2 ^ 53 /\ 0 < 4 < 2 ^ 1075 /\
  exists plan,
    get_feature_batches (get_alive_features 10) 4 = Ok plan
    /\ Z.of_nat (length plan) = (10 + 4 - 1) / 4
    /\ 4 * (Z.of_nat (length plan) - 1) < 10 <= 4 * Z.of_nat (length plan)
    /\ (forall i g, plan !! i = Some g ->
          (1 <= length g)%nat
          /\ Z.of_nat (length g) <= 4
          /\ length g =
               if decide (i < Z.to_nat 10 mod length plan)%nat
               then (Z.to_nat 10 / length plan + 1)%nat
               else (Z.to_nat 10 / length plan)%nat)
    /\ (10 = 10 -> 4 = 4 -> plan = [[0; 1; 2; 3]; [4; 5; 6]; [7; 8; 9]]).
Proof.
  assert (0 < 10 < 2 ^ 53) as Hn by (by vm_compute).
  assert (0 < 4 < 2 ^ 1075) as Hk by (by vm_compute).
  split; [exact Hn|]. split; [exact Hk|].
  exact (get_feature_batches_balanced 10 4 Hn Hk).
Defined.

(** C3 as stated fails.  The plan for 10 features in batches of 4 is
    [[0,1,2,3],[4,5,6],[7,8,9]], not [[0,1,2,3],[4,5,6,7],[8,9]]: the second
    of its three groups has 3 indices, so it is not the case that every
    group but the last has exactly [n_features_at_a_time]. *)
Lemma get_feature_batches_not_fixed_size :
  get_feature_batches (get_alive_features 10) 4
  = Ok [[0; 1; 2; 3]; [4; 5; 6]; [7; 8; 9]]
  /\ get_feature_batches (get_alive_features 10) 4
     <> Ok [[0; 1; 2; 3]; [4; 5; 6; 7]; [8; 9]]
  /\ ~ (forall n k : Z, 0 < n -> 0 < k ->
         exists plan,
           get_feature_batches (get_alive_features n) k = Ok plan
           /\ forall i g, plan !! i = Some g -> (S i < length plan)%nat ->
                 Z.of_nat (length g) = k).
Proof.
  split; [by vm_compute|]. split; [by vm_compute|].
  intros Hclaim.
  destruct (Hclaim 10 4 ltac:(lia) ltac:(lia)) as (plan & Hplan & Hsz).
  vm_compute in Hplan. injection Hplan as <-.
  specialize (Hsz 1%nat [4; 5; 6] eq_refl ltac:(simpl; lia)).
  simpl in Hsz. lia.
Qed.

(** ** The prefix/suffix splice *)

Lemma slice_to_length {A} (k : Z) (l : list A) :
  length (slice_to k l) = slice_to_len k (length l).
Proof.
  unfold slice_to, slice_to_len. destruct (k <? 0); rewrite length_take; lia.
Qed.

Lemma wf_slice_cols (k : Z) (t : Tensor2) : wf t -> wf (slice_cols k t).
Proof.
  unfold wf, slice_cols; simpl. intros Hwf.
  apply Forall_fmap. eapply Forall_impl; [exact Hwf|].
  intros r Hr; simpl. by rewrite slice_to_length, Hr.
Qed.

Lemma wf_repeat_row (v : list Z) (n : nat) : wf (repeat_row v n).
Proof. unfold wf, repeat_row; simpl. by apply Forall_replicate. Qed.

Lemma wf_unsqueeze1 (v : list Z) : wf (unsqueeze1 v).
Proof. unfold wf, unsqueeze1; simpl. apply Forall_fmap. by apply Forall_true. Qed.

Lemma zip_with_app_lengths (n m : nat) (a b : list (list Z)) :
  Forall (fun r => length r = n) a ->
  Forall (fun r => length r = m) b ->
  Forall (fun r => length r = (n + m)%nat) (zip_with app a b).
Proof.
  intros Ha; revert b; induction Ha as [|x a Hx Ha IH]; intros b Hb; [done|].
  destruct Hb as [|y b Hy Hb]; [done|]. simpl. constructor.
  - rewrite length_app. lia.
  - by apply IH.
Qed.

Lemma cat1_spec (a b : Tensor2) :
  wf a -> wf b -> shape0 a = shape0 b ->
  exists c, cat1 a b = Ok c
    /\ wf c /\ shape0 c = shape0 a /\ shape1 c = (shape1 a + shape1 b)%nat.
Proof.
  intros Ha Hb Hab. unfold cat1. rewrite Hab, Nat.eqb_refl.
  eexists; split; [done|]. split; [|split]; simpl; [| |done].
  - by apply zip_with_app_lengths.
  - unfold shape0 in *; simpl. rewrite length_zip_with. lia.
Qed.

Lemma both_none_match {A B} (p s : option A) (X Y : B) :
  match p, s with
  | None, None => X
  | _, _ => Y
  end = if bool_decide (p = None /\ s = None) then X else Y.
Proof.
  destruct p, s; case_bool_decide as Hd;
    first [done | by destruct Hd | by exfalso; apply Hd].
Qed.

(** C2: the length assertion at the end of [add_prefix_suffix_to_tokens]
    does fail under [keep_length > 0]: with a suffix and no prefix, on an
    encoder with a leading marker, the corpus [[1,2,3]] with suffix [7] has
    [keep_length = 2], is cut to one column for the marker, the marker is
    put back only in the prefix branch, and the result [[1,7]] has length 2,
    not 3. *)
Theorem add_prefix_suffix_suffix_only_marker_fails :
  let tokens := {| shape1 := 3; rows := [[1; 2; 3]] |} in
  wf tokens
  /\ 0 < Z.of_nat (shape1 tokens) - 0 - Z.of_nat (length [7])
  /\ add_prefix_suffix_to_tokens None (Some [7]) true tokens
     = Raise (AssertionError "").
Proof.
  split; [|split]; [|done|reflexivity].
  repeat constructor.
Qed.

(** The splice is length preserving whenever the marker that was cut is put
    back: with a non-empty prefix, or on an encoder without leading marker,
    for prefix and suffix ids that fit int64. *)
Lemma add_prefix_suffix_length_preserved
    (prefix suffix : option (list Z)) (prepend_bos : bool) (tokens : Tensor2) :
  wf tokens ->
  0 < Z.of_nat (shape1 tokens)
      - Z.of_nat (length (default [] prefix))
      - Z.of_nat (length (default [] suffix)) ->
  truthy prefix = true \/ prepend_bos = false ->
  Forall (fun x => - 2 ^ 63 <= x < 2 ^ 63) (default [] prefix) ->
  Forall (fun x => - 2 ^ 63 <= x < 2 ^ 63) (default [] suffix) ->
  exists out,
    add_prefix_suffix_to_tokens prefix suffix prepend_bos tokens = Ok out
    /\ shape1 out = shape1 tokens
    /\ shape0 out = shape0 tokens
    /\ wf out.
Proof.
  intros Hwf Hkeep Hcase Hpre Hsuf. unfold add_prefix_suffix_to_tokens.
  rewrite !torch_tensor_Ok by done. cbn [rbind].
  assert ((shape1 tokens =? 0)%nat = false) as Hcol
    by (apply Nat.eqb_neq; lia).
  unfold column0. rewrite Hcol. cbn [rbind].
  set (bos := (fun r => default 0 (head r)) <$> rows tokens).
  assert (length bos = shape0 tokens) as Hbos
    by (unfold bos, shape0; by rewrite length_fmap).
  assert (forall d : option (list Z),
            (if truthy d then length (default [] d) else 0%nat)
            = length (default [] d)) as Hlen
    by (by intros [[|??]|]).
  rewrite !Hlen.
  set (keep := Z.of_nat (shape1 tokens)
               - Z.of_nat (length (default [] prefix))
               - Z.of_nat (length (default [] suffix))) in *.
  rewrite both_none_match. case_bool_decide as Hnone.
  { exists tokens. by repeat split. }
  destruct (keep <=? 0) eqn:Ek; [lia|]. cbv zeta.
  set (t1 := slice_cols (keep - Z.b2z prepend_bos) tokens).
  assert (wf t1) as Hwf1 by (by apply wf_slice_cols).
  assert (shape0 t1 = shape0 tokens) as H01
    by (unfold t1, shape0, slice_cols; simpl; by rewrite length_fmap).
  assert (shape1 t1 = Z.to_nat (keep - Z.b2z prepend_bos)) as H11.
  { unfold t1, slice_cols, slice_to_len; simpl.
    destruct prepend_bos; simpl; destruct (_ <? 0) eqn:E; lia. }
  (* the prefix branch *)
  assert (exists t2,
    (if truthy prefix then
       let? prefix_repeated :=
         if prepend_bos
         then cat1 (unsqueeze1 bos) (repeat_row (default [] prefix) (shape0 t1))
         else Ok (repeat_row (default [] prefix) (shape0 t1)) in
       cat1 prefix_repeated t1
     else Ok t1) = Ok t2
    /\ wf t2 /\ shape0 t2 = shape0 tokens
    /\ Z.of_nat (shape1 t2)
       = Z.of_nat (shape1 tokens) - Z.of_nat (length (default [] suffix)))
    as (t2 & -> & Hwf2 & H02 & H12).
  { destruct (truthy prefix) eqn:Ep.
    - pose proof (wf_repeat_row (default [] prefix) (shape0 t1)) as Hwr.
      destruct prepend_bos.
      + destruct (cat1_spec (unsqueeze1 bos)
                    (repeat_row (default [] prefix) (shape0 t1)))
          as (pr & -> & Hwp & H0p & H1p);
          [apply wf_unsqueeze1 | done
          | unfold shape0, unsqueeze1, repeat_row; cbn [rows];
            rewrite length_fmap, length_replicate; unfold shape0 in *; lia|].
        cbn [rbind].
        destruct (cat1_spec pr t1) as (t2 & -> & ? & H0 & H1); [done..| |].
        { rewrite H0p. unfold shape0, unsqueeze1; cbn [rows shape1].
          rewrite length_fmap. unfold shape0 in *; lia. }
        exists t2. split; [done|]. split; [done|]. split.
        * rewrite H0, H0p. unfold shape0, unsqueeze1; cbn [rows shape1].
          rewrite length_fmap. by unfold shape0 in Hbos.
        * rewrite H1, H1p, H11. splice_arith.
      + cbn [rbind].
        destruct (cat1_spec (repeat_row (default [] prefix) (shape0 t1)) t1)
          as (t2 & -> & ? & H0 & H1); [done..| |].
        { unfold shape0, repeat_row; cbn [rows shape1]. by rewrite length_replicate. }
        exists t2. split; [done|]. split; [done|]. split.
        * rewrite H0. unfold shape0, repeat_row; cbn [rows shape1].
          rewrite length_replicate. by unfold shape0 in H01.
        * rewrite H1, H11. splice_arith.
    - destruct Hcase as [?| ->]; [done|].
      exists t1. split; [done|]. split; [done|]. split; [done|].
      rewrite H11. simpl in *.
      assert (length (default [] prefix) = 0%nat) as Hp0
        by (by destruct prefix as [[|??]|]).
      lia. }
  cbn [rbind].
  (* the suffix branch *)
  destruct (truthy suffix) eqn:Es.
  - destruct (cat1_spec t2 (repeat_row (default [] suffix) (shape0 t2)))
      as (t3 & -> & ? & H0 & H1); [done|apply wf_repeat_row| |].
    { unfold shape0, repeat_row; cbn [rows shape1]. by rewrite length_replicate. }
    cbn [rbind].
    assert (shape1 t3 = shape1 tokens) as H13 by splice_arith.
    rewrite H13, Nat.eqb_refl. exists t3. repeat split; try done. congruence.
  - cbn [rbind].
    assert (length (default [] suffix) = 0%nat) as Hs0
      by (by destruct suffix as [[|??]|]).
    assert (shape1 t2 = shape1 tokens) as H13 by splice_arith.
    rewrite H13, Nat.eqb_refl. exists t2. by repeat split.
Qed.

(** The defect in general: on an encoder with a leading marker, any splice
    without a non-empty prefix (a suffix alone, with ids that fit int64, or
    empty lists) cuts one column for the marker, never puts it back, and
    trips the assertion. *)
Lemma add_prefix_suffix_marker_dropped
    (prefix suffix : option (list Z)) (tokens : Tensor2) :
  wf tokens ->
  0 < Z.of_nat (shape1 tokens)
      - Z.of_nat (length (default [] prefix))
      - Z.of_nat (length (default [] suffix)) ->
  truthy prefix = false ->
  prefix <> None \/ suffix <> None ->
  Forall (fun x => - 2 ^ 63 <= x < 2 ^ 63) (default [] suffix) ->
  add_prefix_suffix_to_tokens prefix suffix true tokens
  = Raise (AssertionError "").
Proof.
  intros Hwf Hkeep Hp Hsome Hsuf. unfold add_prefix_suffix_to_tokens, column0.
  rewrite (torch_tensor_Ok (default [] suffix)) by done.
  assert ((shape1 tokens =? 0)%nat = false) as -> by (apply Nat.eqb_neq; lia).
  cbn [rbind]. rewrite both_none_match.
  rewrite bool_decide_false by (intros [? ?]; by destruct Hsome).
  assert (forall d : option (list Z),
            (if truthy d then length (default [] d) else 0%nat)
            = length (default [] d)) as Hlen
    by (by intros [[|??]|]).
  rewrite !Hlen.
  assert (length (default [] prefix) = 0%nat) as Hp0
    by (by destruct prefix as [[|??]|]).
  set (keep := Z.of_nat (shape1 tokens)
               - Z.of_nat (length (default [] prefix))
               - Z.of_nat (length (default [] suffix))) in *.
  destruct (keep <=? 0) eqn:Ek; [lia|]. cbv zeta. rewrite Hp. cbn [rbind].
  set (t1 := slice_cols (keep - Z.b2z true) tokens).
  assert (wf t1) as Hwf1 by (by apply wf_slice_cols).
  assert (shape1 t1 = Z.to_nat (keep - 1)) as H11.
  { unfold t1, slice_cols, slice_to_len; cbn [shape1 Z.b2z].
    destruct (_ <? 0) eqn:E; lia. }
  destruct (truthy suffix) eqn:Es.
  - cbn [rbind].
    destruct (cat1_spec t1 (repeat_row (default [] suffix) (shape0 t1)))
      as (t3 & -> & _ & _ & H1); [done|apply wf_repeat_row| |].
    { unfold shape0, repeat_row; cbn [rows]. by rewrite length_replicate. }
    cbn [rbind].
    assert ((shape1 t3 =? shape1 tokens)%nat = false) as ->; [|done].
    apply Nat.eqb_neq. rewrite H1, H11. splice_arith.
  - cbn [rbind].
    assert (length (default [] suffix) = 0%nat) as Hs0
      by (by destruct suffix as [[|??]|]).
    assert ((shape1 t1 =? shape1 tokens)%nat = false) as ->; [|done].
    apply Nat.eqb_neq. rewrite H11. splice_arith.
Qed.

(** The scenario of a one-token prefix on sequences of length 16 without
    leading marker: 15 tokens of each sequence are kept, the length stays 16. *)
Example add_prefix_scenario :
  add_prefix_suffix_to_tokens (Some [101]) (Some []) false
    {| shape1 := 16; rows := [seqZ 1 16] |}
  = Ok {| shape1 := 16; rows := [101 :: seqZ 1 15] |}.
Proof. reflexivity. Qed.

(** ** The token corpus *)

Lemma omap_lookup_seq {A} (l : list A) (n k : nat) :
  (k + n)%nat = length l ->
  omap (fun i => l !! i) (seq k n) = drop k l.
Proof.
  revert k; induction n as [|n IH]; intros k Hk; simpl.
  - by rewrite drop_ge by lia.
  - destruct (lookup_lt_is_Some_2 l k ltac:(lia)) as [x Hx].
    rewrite Hx. rewrite (drop_S l x k Hx). f_equal. apply IH. lia.
Qed.

Lemma index_rows_perm (t : Tensor2) (perm : list nat) :
  perm ≡ₚ seq 0 (shape0 t) -> rows (index_rows t perm) ≡ₚ rows t.
Proof.
  intros Hp. unfold index_rows; simpl. rewrite Hp.
  by rewrite (omap_lookup_seq (rows t) (shape0 t) 0 eq_refl), drop_0.
Qed.

Lemma keep_unique_inv acc seq :
  kept_inv acc ->
  kept_inv (keep_unique acc seq)
  /\ (keep_unique acc seq).2 = acc.2 ∪ {[seq]}.
Proof.
  destruct acc as [l s]. intros [Hnd Hs]; simpl in *. subst s.
  unfold keep_unique, hash_tensor, kept_inv. case_decide as Hin; simpl.
  - split; [done|]. set_solver.
  - split; [split|].
    + apply NoDup_app. split; [done|]. split; [|apply NoDup_singleton].
      intros x Hx ->%list_elem_of_singleton. apply Hin.
      by apply elem_of_list_to_set.
    + rewrite list_to_set_snoc_L. set_solver.
    + set_solver.
Qed.

Lemma foldl_keep_unique_inv seqs acc :
  kept_inv acc ->
  kept_inv (foldl keep_unique acc seqs)
  /\ (foldl keep_unique acc seqs).2 = acc.2 ∪ list_to_set seqs.
Proof.
  revert acc; induction seqs as [|x seqs IH]; intros acc Hinv; simpl.
  - split; [done|]. set_solver.
  - destruct (keep_unique_inv acc x Hinv) as [Hinv' Hset].
    destruct (IH _ Hinv') as [Hinv'' Hset'].
    split; [done|]. rewrite Hset', Hset. set_solver.
Qed.

Lemma kept_inv_length acc : kept_inv acc -> length acc.1 = size acc.2.
Proof.
  intros [Hnd ->]. by rewrite size_list_to_set.
Qed.

Section CorpusFacts.

Context `{Collaborators}.

Lemma only_drew_refl w : only_drew w w.
Proof. by repeat split. Qed.

Lemma only_drew_trans w1 w2 w3 :
  only_drew w1 w2 -> only_drew w2 w3 -> only_drew w1 w3.
Proof.
  intros (? & ? & ?) (? & ? & ?). repeat split; congruence.
Qed.

Lemma get_batch_tokens_nil w :
  pending (activations_store w) = [] ->
  get_batch_tokens w = (Raise StopIteration, w).
Proof. intros Hp. unfold get_batch_tokens. by rewrite Hp. Qed.

Lemma get_batch_tokens_cons w b rest :
  pending (activations_store w) = b :: rest ->
  exists w', get_batch_tokens w = (Ok b, w')
    /\ pending (activations_store w') = rest /\ only_drew w w'.
Proof.
  intros Hp. unfold get_batch_tokens. rewrite Hp.
  eexists; split; [done|]. by repeat split.
Qed.

Lemma shuffled_spec shuffle t w :
  exists t' w', shuffled shuffle t w = (Ok t', w')
    /\ rows t' ≡ₚ rows t /\ shape1 t' = shape1 t
    /\ pending (activations_store w') = pending (activations_store w)
    /\ only_drew w w'.
Proof.
  unfold shuffled. destruct shuffle.
  - unfold bind, torch_randperm, ret.
    pose proof (randperm_perm (generator w) (shape0 t)) as Hp.
    destruct (randperm (generator w) (shape0 t)) as [perm g]; simpl in *.
    eexists _, _; split; [done|]. split; [by apply index_rows_perm|].
    by repeat split.
  - exists t, w. by repeat split.
Qed.

Lemma generate_loop_S shuffle n iters acc w :
  generate_loop shuffle n (S iters) acc w
  = match get_batch_tokens w with
    | (Ok b, w1) =>
        match shuffled shuffle b w1 with
        | (Ok b', w2) =>
            let acc' := foldl keep_unique acc (rows b') in
            if n <=? Z.of_nat (length acc'.1) then (Ok acc'.1, w2)
            else generate_loop shuffle n iters acc' w2
        | (Raise e, w2) => (Raise e, w2)
        end
    | (Raise e, w1) => (Raise e, w1)
    end.
Proof.
  simpl. unfold bind at 1. destruct (get_batch_tokens w) as [[b|e] w1]; [|done].
  unfold bind at 1. destruct (shuffled shuffle b w1) as [[b'|e] w2]; [|done].
  simpl. by destruct (_ <=? _).
Qed.

(** The loop of [generate_tokens]: which batches it pulls, and what it has
    kept when it ends. *)
Lemma generate_loop_spec shuffle n iters : forall acc w,
  kept_inv acc ->
  exists pulled rest,
    pending (activations_store w) = pulled ++ rest
    /\ (length pulled <= iters)%nat
    /\ (forall k, (0 < k < length pulled)%nat ->
          Z.of_nat (size (acc.2 ∪ list_to_set (drawn (take k pulled)))) < n)
    /\ match generate_loop shuffle n iters acc w with
       | (Ok l, w') =>
           pending (activations_store w') = rest
           /\ only_drew w w'
           /\ NoDup l
           /\ list_to_set l = acc.2 ∪ list_to_set (drawn pulled)
           /\ (length pulled = iters
               \/ (pulled <> [] /\ n <= Z.of_nat (length l)))
       | (Raise e, w') =>
           e = StopIteration /\ rest = [] /\ (length pulled < iters)%nat
       end.
Proof.
  induction iters as [|iters IH]; intros acc w Hinv.
  - exists [], (pending (activations_store w)). split; [done|]. split; [done|].
    split; [simpl; lia|]. simpl. unfold ret.
    split; [done|]. split; [apply only_drew_refl|].
    destruct Hinv as [Hnd Hs]. split; [done|]. split; [|by left].
    rewrite Hs. unfold drawn; simpl. set_solver.
  - rewrite generate_loop_S.
    destruct (pending (activations_store w)) as [|b rest0] eqn:Hp.
    { exists [], []. rewrite (get_batch_tokens_nil w Hp).
      split; [done|]. split; [simpl; lia|]. split; [simpl; lia|].
      split; [done|]. split; [done|]. simpl; lia. }
    destruct (get_batch_tokens_cons w b rest0 Hp) as (w1 & -> & Hp1 & Hd1).
    destruct (shuffled_spec shuffle b w1) as (b' & w2 & -> & Hperm & _ & Hp2 & Hd2).
    destruct (foldl_keep_unique_inv (rows b') acc Hinv) as [Hinv' Hset].
    set (acc' := foldl keep_unique acc (rows b')) in *. cbv zeta.
    assert (acc'.2 = acc.2 ∪ list_to_set (rows b)) as Hset'
      by (by rewrite Hset, Hperm).
    pose proof (only_drew_trans _ _ _ Hd1 Hd2) as Hd.
    destruct (Z.leb_spec n (Z.of_nat (length acc'.1))) as [En|En].
    + exists [b], rest0. split; [done|]. split; [simpl; lia|].
      split; [simpl; lia|].
      split; [congruence|]. split; [done|].
      destruct Hinv' as [Hnd' Hs']. split; [done|]. split.
      * rewrite <- Hs', Hset'. unfold drawn; simpl. by rewrite app_nil_r.
      * right. split; [done|]. lia.
    + destruct (IH acc' w2 Hinv') as (pulled & rest & Hpend & Hlen & Hmin & Hres).
      exists (b :: pulled), rest. split; [|split; [|split]].
      * simpl. f_equal. congruence.
      * simpl; lia.
      * intros k Hk. destruct k as [|k]; [lia|]. simpl in Hk.
        change (take (S k) (b :: pulled)) with (b :: take k pulled).
        assert (acc.2 ∪ list_to_set (drawn (b :: take k pulled))
                = acc'.2 ∪ list_to_set (drawn (take k pulled))) as ->.
        { rewrite Hset'. unfold drawn; simpl.
          rewrite list_to_set_app_L. set_solver. }
        destruct k as [|k].
        -- rewrite take_0. unfold drawn; simpl.
           rewrite (kept_inv_length acc' Hinv') in En.
           by rewrite (right_id_L ∅ (∪)).
        -- apply Hmin. lia.
      * destruct (generate_loop shuffle n iters acc' w2) as [[l|e] w'].
        -- destruct Hres as (Hr & Hdw & Hnd & Hl & Hstop).
           split; [done|]. split; [by eapply only_drew_trans|].
           split; [done|]. split.
           ++ rewrite Hl, Hset'. unfold drawn; simpl.
              rewrite list_to_set_app_L. set_solver.
           ++ destruct Hstop as [?|[? ?]]; [left; simpl; lia|by right].
        -- destruct Hres as (-> & -> & Hlt). repeat split; simpl; lia.
Qed.

Lemma generate_tokens_unfold shuffle n w :
  store_batch_size_prompts (activations_store w) <> 0 ->
  generate_tokens shuffle n w
  = match generate_loop shuffle n
            (Z.to_nat (n / store_batch_size_prompts (activations_store w)))
            ([], ∅) w with
    | (Ok l, w1) =>
        match cat0 l with
        | Ok all_tokens => shuffled shuffle (slice_rows n all_tokens) w1
        | Raise e => (Raise e, w1)
        end
    | (Raise e, w1) => (Raise e, w1)
    end.
Proof.
  intros Hbs. unfold generate_tokens.
  destruct (_ =? 0) eqn:E; [lia|]. unfold bind at 1.
  destruct (generate_loop _ _ _ _ w) as [[l|e] w1]; [|done].
  unfold bind, lift. by destruct (cat0 l).
Qed.

Lemma cat0_Ok l t :
  cat0 l = Ok t -> rows t = l /\ wf t /\ l <> [].
Proof.
  unfold cat0. destruct l as [|r l]; [done|].
  destruct (forallb _ _) eqn:E; [|done]. intros [= <-].
  split; [done|]. split; [|done]. unfold wf; simpl.
  apply Forall_forall. intros x Hx%list_elem_of_In.
  apply Nat.eqb_eq. by apply (proj1 (List.forallb_forall _ _) E).
Qed.

Lemma cat0_Raise l e :
  cat0 l = Raise e ->
  (exists msg, e = RuntimeError msg)
  /\ (l = [] \/ exists r r', r ∈ l /\ r' ∈ l /\ length r <> length r').
Proof.
  unfold cat0. destruct l as [|r l]; [intros [= <-]; eauto|].
  destruct (forallb _ _) eqn:E; [done|]. intros [= <-]. split; [eauto|].
  right.
  destruct (decide (Forall (fun r' => length r' = length r) (r :: l)))
    as [Hall|Hex].
  - exfalso. apply not_true_iff_false in E. apply E.
    apply List.forallb_forall. intros x Hx%list_elem_of_In.
    apply Nat.eqb_eq. by apply (proj1 (Forall_forall _ _) Hall).
  - apply not_Forall_Exists in Hex; [|apply _].
    apply Exists_exists in Hex as (r' & Hr' & Hne).
    exists r', r. split; [done|]. split; [left|done].
Qed.

Lemma slice_to_sublist {A} (k : Z) (l : list A) : slice_to k l `sublist_of` l.
Proof. unfold slice_to. destruct (k <? 0); apply sublist_take. Qed.

Lemma wf_slice_rows k t : wf t -> wf (slice_rows k t).
Proof.
  unfold wf, slice_rows; simpl. intros Hwf.
  unfold slice_to. destruct (k <? 0); by apply Forall_take.
Qed.

(** What [generate_tokens] returns is a shuffle of a leading part of the
    kept list. *)
Lemma generate_tokens_Ok shuffle n w tokens w' :
  store_batch_size_prompts (activations_store w) <> 0 ->
  generate_tokens shuffle n w = (Ok tokens, w') ->
  exists l w1 all_tokens,
    generate_loop shuffle n
      (Z.to_nat (n / store_batch_size_prompts (activations_store w)))
      ([], ∅) w = (Ok l, w1)
    /\ cat0 l = Ok all_tokens
    /\ rows tokens ≡ₚ slice_to n l
    /\ shape1 tokens = shape1 all_tokens
    /\ pending (activations_store w') = pending (activations_store w1)
    /\ only_drew w1 w'.
Proof.
  intros Hbs. rewrite generate_tokens_unfold by done.
  destruct (generate_loop _ _ _ _ w) as [[l|e] w1]; [|done].
  destruct (cat0 l) as [a|e] eqn:Ecat; [|done].
  destruct (shuffled_spec shuffle (slice_rows n a) w1)
    as (t' & w2 & -> & Hperm & Hs1 & Hp & Hd).
  intros [= <- <-]. exists l, w1, a. split; [done|]. split; [done|].
  apply cat0_Ok in Ecat as (Hrows & _ & _).
  split; [by rewrite Hperm; simpl; rewrite Hrows|].
  split; [exact Hs1|]. split; [exact Hp|exact Hd].
Qed.

End CorpusFacts.

Section CorpusTheorems.

Context `{Collaborators}.

(** C7: whatever the source draws, the corpus [generate_tokens] returns
    holds no sequence twice: two positions with the same content are the
    same position; and every sequence of it was drawn from the source. *)
Theorem generate_tokens_no_duplicates shuffle n w tokens w' :
  generate_tokens shuffle n w = (Ok tokens, w') ->
  NoDup (rows tokens)
  /\ (forall i j r,
        rows tokens !! i = Some r -> rows tokens !! j = Some r -> i = j)
  /\ rows tokens ⊆ drawn (pending (activations_store w)).
Proof.
  intros Hgen.
  destruct (decide (store_batch_size_prompts (activations_store w) = 0))
    as [Hz|Hbs].
  { unfold generate_tokens in Hgen. rewrite Hz in Hgen. done. }
  destruct (generate_tokens_Ok _ _ _ _ _ Hbs Hgen)
    as (l & w1 & a & Hloop & _ & Hperm & _).
  destruct (generate_loop_spec shuffle n
              (Z.to_nat (n / store_batch_size_prompts (activations_store w)))
              ([], ∅) w) as (pulled & rest & Hpend & _ & _ & Hres).
  { split; [constructor|done]. }
  rewrite Hloop in Hres. destruct Hres as (_ & _ & Hnd & Hset & _).
  assert (NoDup (rows tokens)) as Hnd'.
  { rewrite Hperm. eapply sublist_NoDup; [done|apply slice_to_sublist]. }
  split; [done|]. split.
  - intros i j r Hi Hj. by eapply NoDup_lookup.
  - intros r Hr. rewrite Hperm in Hr.
    apply (sublist_subseteq _ _ (slice_to_sublist n l)) in Hr.
    apply (elem_of_list_to_set (C:=gset (list Z))) in Hr.
    rewrite Hset in Hr. simpl in Hr.
    rewrite Hpend. unfold drawn. rewrite fmap_app, concat_app.
    apply elem_of_app. left.
    apply (elem_of_list_to_set (C:=gset (list Z))). set_solver.
Qed.

(** C1 (as the code has it): with a positive draw size and a non-negative
    target, [generate_tokens] pulls at most [n_prompts // batch_size]
    batches; it stops before that only once the kept sequences have reached
    [n_prompts]; it returns the kept sequences cut to [n_prompts], that is
    the smaller of [n_prompts] and the number of distinct sequences pulled,
    without telling a short corpus from a full one.  It raises only the
    source's own exhaustion error, met within those pulls, or [torch.cat]'s
    error on an empty or ragged list. *)
Theorem generate_tokens_spec shuffle n_prompts w :
  let batch_size := store_batch_size_prompts (activations_store w) in
  0 < batch_size -> 0 <= n_prompts ->
  exists pulled rest,
    pending (activations_store w) = pulled ++ rest
    /\ Z.of_nat (length pulled) <= n_prompts / batch_size
    /\ (forall k, (0 < k < length pulled)%nat ->
          Z.of_nat (unique_count (take k pulled)) < n_prompts)
    /\ match generate_tokens shuffle n_prompts w with
       | (Ok tokens, w') =>
           pending (activations_store w') = rest
           /\ only_drew w w'
           /\ (Z.of_nat (length pulled) = n_prompts / batch_size
               \/ n_prompts <= Z.of_nat (unique_count pulled))
           /\ Z.of_nat (shape0 tokens)
              = Z.min n_prompts (Z.of_nat (unique_count pulled))
           /\ rows tokens ⊆ drawn pulled
           /\ wf tokens
       | (Raise e, w') =>
           (e = StopIteration /\ rest = []
            /\ Z.of_nat (length pulled) < n_prompts / batch_size)
           \/ ((exists msg, e = RuntimeError msg)
               /\ (drawn pulled = [] \/ ~ uniform pulled))
       end.
Proof.
  intros batch_size Hbs Hn.
  assert (0 <= n_prompts / batch_size) as Hq by (apply Z.div_pos; lia).
  destruct (generate_loop_spec shuffle n_prompts
              (Z.to_nat (n_prompts / batch_size)) ([], ∅) w)
    as (pulled & rest & Hpend & Hlen & Hmin & Hres).
  { split; [constructor|done]. }
  exists pulled, rest. split; [done|]. split; [lia|]. split.
  { intros k Hk. specialize (Hmin k Hk). simpl in Hmin.
    unfold unique_count. by rewrite (left_id_L ∅ (∪)) in Hmin. }
  rewrite generate_tokens_unfold by (fold batch_size; lia). fold batch_size.
  destruct (generate_loop _ _ _ _ w) as [[l|e] w1].
  - destruct Hres as (Hrest & Hd1 & Hnd & Hset & Hstop).
    simpl in Hset. rewrite (left_id_L ∅ (∪)) in Hset.
    assert (length l = unique_count pulled) as Hcount.
    { unfold unique_count. by rewrite <- Hset, size_list_to_set. }
    assert (forall r, r ∈ l <-> r ∈ drawn pulled) as Hmem.
    { intros r. rewrite <- (elem_of_list_to_set (C:=gset (list Z)) r l), Hset.
      apply elem_of_list_to_set. }
    destruct (cat0 l) as [a|e] eqn:Ecat.
    + destruct (cat0_Ok _ _ Ecat) as (Hrows & Hwf & Hne).
      destruct (shuffled_spec shuffle (slice_rows n_prompts a) w1)
        as (t' & w2 & -> & Hperm & Hs1 & Hp & Hd2).
      simpl in Hperm. rewrite Hrows in Hperm.
      assert (slice_to n_prompts l = take (Z.to_nat n_prompts) l) as Hslice
        by (unfold slice_to; destruct (n_prompts <? 0) eqn:E; [lia|done]).
      rewrite Hslice in Hperm.
      split; [congruence|]. split; [by eapply only_drew_trans|].
      split; [destruct Hstop as [?|[_ ?]]; lia|]. split; [|split].
      * unfold shape0. rewrite Hperm, length_take. lia.
      * intros r Hr. rewrite Hperm in Hr. apply Hmem.
        by apply (subseteq_take (Z.to_nat n_prompts) l).
      * unfold wf. rewrite Hperm, Hs1. simpl.
        apply Forall_take. by rewrite <- Hrows.
    + right. destruct (cat0_Raise _ _ Ecat) as (Hmsg & Hwhy).
      split; [done|]. destruct Hwhy as [->|(r & r' & Hr & Hr' & Hlen')].
      * left. destruct (drawn pulled) as [|x ?] eqn:Edr; [done|].
        exfalso. assert (x ∈ []) as Hx by (apply Hmem; left).
        by inversion Hx.
      * right. intros [m Hall].
        apply Hmem in Hr, Hr'.
        pose proof (proj1 (Forall_forall _ _) Hall r Hr).
        pose proof (proj1 (Forall_forall _ _) Hall r' Hr'). congruence.
  - left. destruct Hres as (-> & -> & Hlt). repeat split; lia.
Qed.

End CorpusTheorems.

(** The duplicate-free corpus on the stream with repeats, shuffling on: seven
    sequences come back, all distinct. *)
Lemma generate_tokens_no_duplicates_witness :
  exists tokens w',
    generate_tokens (H := Demo.collaborators) true 8 (Demo.world ∅)
    = (Ok tokens, w')
    /\ shape0 tokens = 7%nat
    /\ NoDup (rows tokens)
    /\ (forall i j r,
          rows tokens !! i = Some r -> rows tokens !! j = Some r -> i = j)
    /\ rows tokens ⊆ drawn Demo.stream.
Proof.
  eexists _, _.
  assert (generate_tokens (H := Demo.collaborators) true 8 (Demo.world ∅)
          = (Ok _, _)) as Hrun by (vm_compute; reflexivity).
  split; [exact Hrun|]. split; [reflexivity|].
  exact (generate_tokens_no_duplicates true 8 (Demo.world ∅) _ _ Hrun).
Defined.

(** The corpus theorem on the stream with repeats: target 8, draws of 4. *)
Lemma generate_tokens_spec_witness :
  0 < 4 /\ 0 <= 8 /\
  exists pulled rest,
    Demo.stream = pulled ++ rest
    /\ Z.of_nat (length pulled) <= 8 / 4
    /\ (forall k, (0 < k < length pulled)%nat ->
          Z.of_nat (unique_count (take k pulled)) < 8)
    /\ match generate_tokens (H := Demo.collaborators) false 8 (Demo.world ∅) with
       | (Ok tokens, w') =>
           pending (activations_store w') = rest
           /\ only_drew (Demo.world ∅) w'
           /\ (Z.of_nat (length pulled) = 8 / 4
               \/ 8 <= Z.of_nat (unique_count pulled))
           /\ Z.of_nat (shape0 tokens)
              = Z.min 8 (Z.of_nat (unique_count pulled))
           /\ rows tokens ⊆ drawn pulled
           /\ wf tokens
       | (Raise e, w') =>
           (e = StopIteration /\ rest = []
            /\ Z.of_nat (length pulled) < 8 / 4)
           \/ ((exists msg, e = RuntimeError msg)
               /\ (drawn pulled = [] \/ ~ uniform pulled))
       end.
Proof.
  split; [lia|]. split; [lia|].
  apply (generate_tokens_spec (H := Demo.collaborators) false 8 (Demo.world ∅));
    simpl; lia.
Defined.

(** C1 as stated fails.  Target 8, draws of 4, a stream of three batches in
    which the fifth sequence repeats the first: [generate_tokens] pulls
    [8 // 4 = 2] batches, keeps 7 sequences and raises nothing; [get_tokens]
    returns and saves that corpus of 7 sequences, and the third batch is
    left unread. *)
Lemma get_tokens_short_corpus :
  exists tokens w',
    (generate_tokens (H := Demo.collaborators) false 8 (Demo.world ∅)).1
    = Ok tokens
    /\ get_tokens (H := Demo.collaborators) Demo.config (Demo.world ∅)
       = (Ok tokens, w')
    /\ n_prompts_total Demo.config = 8
    /\ shape0 tokens = 7%nat
    /\ length (pending (activations_store (Demo.world ∅))) = 3%nat
    /\ length (pending (activations_store w')) = 1%nat
    /\ fs w' !! "out/tokens_8.pt" = Some (TokensPt tokens).
Proof.
  eexists _, _. split; [vm_compute; reflexivity|].
  split; [vm_compute; reflexivity|].
  split; [reflexivity|]. split; [reflexivity|]. split; [reflexivity|].
  split; [reflexivity|]. vm_compute. reflexivity.
Qed.

(** ** The vocabulary table *)

Lemma replace_go_elem_of (old new : str) (skip : nat) (s : str) (c : N) :
  c ∈ replace_go old new skip s -> c ∈ s \/ c ∈ new.
Proof.
  revert skip; induction s as [|x s IH]; intros skip Hc;
    cbn [replace_go] in Hc.
  - by inversion Hc.
  - destruct skip as [|k].
    + destruct (startswith (x :: s) old).
      * apply elem_of_app in Hc as [?|Hc]; [by right|].
        destruct (IH _ Hc) as [?|?]; [left; by right|by right].
      * apply elem_of_cons in Hc as [->|Hc]; [left; by left|].
        destruct (IH _ Hc) as [?|?]; [left; by right|by right].
    + destruct (IH _ Hc) as [?|?]; [left; by right|by right].
Qed.

(** A replacement brings in nothing but the code points of [new]. *)
Lemma replace_keeps_absent (s old new : str) (c : N) :
  c ∉ s -> c ∉ new -> c ∉ replace s old new.
Proof.
  intros Hs Hn Hc. unfold replace in Hc. destruct old as [|a old].
  - apply elem_of_app in Hc as [?|Hc]; [done|].
    apply list_elem_of_In, List.in_flat_map in Hc as (x & Hx & Hc).
    apply list_elem_of_In in Hx, Hc.
    apply elem_of_cons in Hc as [->|?]; done.
  - by destruct (replace_go_elem_of _ _ _ _ _ Hc).
Qed.

(** Replacing a single code point leaves no occurrence of it. *)
Lemma replace_single_removes (s new : str) (a : N) :
  a ∉ new -> a ∉ replace s [a] new.
Proof.
  intros Hn. unfold replace.
  induction s as [|x s IH]; [by intros ?%not_elem_of_nil|].
  cbn [replace_go startswith].
  assert (startswith s [] = true) as -> by (by destruct s).
  rewrite andb_true_r.
  change (length [a] - 1)%nat with 0%nat.
  destruct (N.eqb_spec a x) as [->|Hne].
  - intros [?|?]%elem_of_app; done.
  - intros [?|?]%elem_of_cons; done.
Qed.

(** X13: the three single-code-point anomalies of the table (the byte-level
    markers for space, newline and tab) are gone from every rewritten
    string: their replacements come last in the table and no value of the
    table brings them back. *)
Lemma fix_anomalies_clean (k : str) (c : N) :
  c ∈ [0x120; 0x10a; 0x109]%N -> c ∉ fix_anomalies k.
Proof.
  unfold fix_anomalies, HTML_ANOMALIES. cbn [foldl].
  set (s6 := replace (replace (replace (replace (replace (replace k _ _) _ _)
                _ _) _ _) _ _) _ _).
  intros [->|[->|[->|Hc]%elem_of_cons]%elem_of_cons]%elem_of_cons.
  - apply replace_keeps_absent; [apply replace_keeps_absent|];
      [apply replace_single_removes|..];
      by intros ?%list_elem_of_singleton.
  - apply replace_keeps_absent; [apply replace_single_removes|];
      by intros ?%list_elem_of_singleton.
  - apply replace_single_removes. by intros ?%list_elem_of_singleton.
  - by inversion Hc.
Qed.

Lemma invert_fold_lookup_notin (vocab : list (str * Z)) (m : gmap Z str) i :
  i ∉ vocab.*2 ->
  foldl (fun new_vocab_dict '(k, v) => <[v := fix_anomalies k]> new_vocab_dict)
        m vocab !! i = m !! i.
Proof.
  revert m; induction vocab as [|[k v] vocab IH]; intros m Hi; [done|].
  simpl in *. apply not_elem_of_cons in Hi as [Hne Hi].
  rewrite IH by done. by rewrite lookup_insert_ne.
Qed.


Lemma invert_fold_dom (vocab : list (str * Z)) (m : gmap Z str) :
  dom (foldl (fun new_vocab_dict '(k, v) =>
                <[v := fix_anomalies k]> new_vocab_dict) m vocab)
  = dom m ∪ list_to_set vocab.*2.
Proof.
  revert m; induction vocab as [|[k v] vocab IH]; intros m; simpl.
  - set_solver.
  - rewrite IH, dom_insert_L. set_solver.
Qed.

Lemma pad_fold_lookup (ids : list Z) (m : gmap Z str) i :
  foldl (fun m i => <[i := OUT_OF_RANGE_TOKEN]> m) m ids !! i
  = if decide (i ∈ ids) then Some OUT_OF_RANGE_TOKEN else m !! i.
Proof.
  revert m; induction ids as [|j ids IH]; intros m; cbn [foldl].
  - case_decide as Hin; [by inversion Hin|done].
  - rewrite IH. destruct (decide (i ∈ ids)) as [Hin|Hin].
    + rewrite decide_True; [done|by right].
    + destruct (decide (i = j)) as [->|Hne].
      * rewrite decide_True by left. by rewrite lookup_insert_eq.
      * rewrite decide_False by (by intros [?|?]%elem_of_cons).
        by rewrite lookup_insert_ne.
Qed.

(** Every entry of the table: the padding loop writes the sentinel on the
    ids from the number of inverted entries up to [d_vocab], over whatever
    was there; the other ids keep their inverted entry, if any. *)
Lemma get_vocab_dict_lookup (vocab : list (str * Z)) (d_vocab : Z) (i : Z) :
  get_vocab_dict vocab d_vocab !! i
  = if decide (Z.of_nat (size (invert_vocab vocab)) <= i < d_vocab)
    then Some OUT_OF_RANGE_TOKEN
    else invert_vocab vocab !! i.
Proof.
  unfold get_vocab_dict, pad_vocab, range2. rewrite pad_fold_lookup.
  destruct (decide (i ∈ seqZ _ _)) as [Hin|Hin];
    destruct (decide (_ <= i < d_vocab)) as [Hr|Hr]; try done; exfalso.
  - apply elem_of_seqZ in Hin. lia.
  - apply Hin, elem_of_seqZ. lia.
Qed.



(** The two curly double quotes are where the table of the source and the
    intended one part: the opening one is replaced by thirteen code points
    of source text, the closing one is left as it is. *)
Example fix_anomalies_curly_quotes :
  fix_anomalies [0xe2; 0x122; 0x13e]%N
  = [0x2c; 0x0a; 0x20; 0x20; 0x20; 0x20; 0x22; 0xe2; 0x122; 0x13f; 0x22;
     0x3a; 0x20]%N
  /\ substitute_intended [0xe2; 0x122; 0x13e]%N = [0x22]%N
  /\ fix_anomalies [0xe2; 0x122; 0x13f]%N = [0xe2; 0x122; 0x13f]%N
  /\ substitute_intended [0xe2; 0x122; 0x13f]%N = [0x22]%N.
Proof. repeat split; reflexivity. Qed.





(** ** Paths of the output directory *)

Lemma string_app_length (s t : string) :
  String.length (s +:+ t) = (String.length s + String.length t)%nat.
Proof. induction s as [|a s IH]; simpl; [done|]. by rewrite IH. Qed.

Lemma string_app_inj_r (s1 s2 t : string) :
  s1 +:+ t = s2 +:+ t -> s1 = s2.
Proof.
  revert s2; induction s1 as [|a s1 IH]; intros [|b s2] Heq; simpl in Heq.
  - done.
  - apply (f_equal String.length) in Heq.
    rewrite !string_app_length in Heq. simpl in Heq. lia.
  - apply (f_equal String.length) in Heq.
    rewrite !string_app_length in Heq. simpl in Heq. lia.
  - injection Heq as -> Heq. f_equal. by apply IH.
Qed.

Lemma batch_path_inj c i j : batch_path c i = batch_path c j -> i = j.
Proof.
  unfold batch_path. intros Heq.
  apply (inj (String.app (outputs_dir c))) in Heq.
  apply (inj (String.app "/batch-")) in Heq.
  apply string_app_inj_r in Heq. by apply (inj pretty).
Qed.

Lemma run_settings_path_not_batch c i : run_settings_path c <> batch_path c i.
Proof.
  unfold run_settings_path, batch_path. intros Heq.
  apply (inj (String.app (outputs_dir c))) in Heq. discriminate.
Qed.

Lemma run_settings_path_not_skipped c :
  run_settings_path c <> skipped_indexes_path c.
Proof.
  unfold run_settings_path, skipped_indexes_path. intros Heq.
  apply (inj (String.app (outputs_dir c))) in Heq. discriminate.
Qed.

Lemma run_settings_path_not_tokens c : run_settings_path c <> tokens_path c.
Proof.
  unfold run_settings_path, tokens_path. intros Heq.
  apply (inj (String.app (outputs_dir c))) in Heq. discriminate.
Qed.

Lemma skipped_path_not_batch c i : skipped_indexes_path c <> batch_path c i.
Proof.
  unfold skipped_indexes_path, batch_path. intros Heq.
  apply (inj (String.app (outputs_dir c))) in Heq. discriminate.
Qed.

Lemma tokens_path_not_batch c i : tokens_path c <> batch_path c i.
Proof.
  unfold tokens_path, batch_path. intros Heq.
  apply (inj (String.app (outputs_dir c))) in Heq. discriminate.
Qed.

(** ** The batch loop *)

Section BatchFacts.

Context `{Collaborators}.

Implicit Types (r : NeuronpediaRunner) (w : World) (tokens : Tensor2).

Lemma run_batch_out_of_bounds r tokens i features w :
  in_bounds (cfg r) i = false -> run_batch r tokens i features w = (Ok tt, w).
Proof.
  unfold in_bounds, run_batch. intros Hb.
  destruct (Z.of_nat i <? start_batch (cfg r)); [done|].
  destruct (after_end (cfg r) i); [done|]. done.
Qed.

Lemma run_batch_artifact_exists r tokens i features w :
  is_Some (fs w !! batch_path (cfg r) i) ->
  run_batch r tokens i features w = (Ok tt, w).
Proof.
  unfold run_batch. intros Hex.
  destruct (Z.of_nat i <? start_batch (cfg r)); [done|].
  destruct (after_end (cfg r) i); [done|].
  unfold bind, isfile. by rewrite bool_decide_true.
Qed.

Lemma run_batch_runs r tokens i features w :
  to_run (cfg r) (fs w) (i, features) = true ->
  run_batch r tokens i features w
  = match SaeVisRunner_run features tokens with
    | Ok feature_data =>
        match convert_to_np_json feature_data (vocab_dict r) with
        | Ok json_object =>
            (Ok tt,
             {| fs := <[batch_path (cfg r) i := BatchJson json_object]> (fs w);
                activations_store := activations_store w;
                generator := generator w;
                extraction_calls := extraction_calls w ++ [features] |})
        | Raise e =>
            (Raise e,
             {| fs := fs w;
                activations_store := activations_store w;
                generator := generator w;
                extraction_calls := extraction_calls w ++ [features] |})
        end
    | Raise e =>
        (Raise e,
         {| fs := fs w;
            activations_store := activations_store w;
            generator := generator w;
            extraction_calls := extraction_calls w ++ [features] |})
    end.
Proof.
  unfold to_run, in_bounds, run_batch; simpl. intros Hrun.
  apply andb_true_iff in Hrun as [Hb Hnone].
  apply andb_true_iff in Hb as [Hs He].
  apply negb_true_iff in Hs, He. rewrite Hs, He.
  apply bool_decide_eq_true in Hnone.
  unfold bind at 1, isfile. rewrite bool_decide_false
    by (rewrite Hnone; by intros [? ?]).
  unfold bind at 1, extract.
  destruct (SaeVisRunner_run features tokens) as [fd|e]; [|done].
  unfold bind, lift; simpl.
  by destruct (convert_to_np_json fd (vocab_dict r)).
Qed.

Lemma to_run_false r w b :
  to_run (cfg r) (fs w) b = false ->
  in_bounds (cfg r) b.1 = false \/ is_Some (fs w !! batch_path (cfg r) b.1).
Proof.
  unfold to_run. intros [?|Hex]%andb_false_iff; [by left|right].
  apply bool_decide_eq_false in Hex.
  by destruct (fs w !! batch_path (cfg r) b.1); [eexists|].
Qed.

Lemma batch_loop_cons r tokens i features batches w :
  batch_loop r tokens ((i, features) :: batches) w
  = match run_batch r tokens i features w with
    | (Ok _, w1) => batch_loop r tokens batches w1
    | (Raise e, w1) => (Raise e, w1)
    end.
Proof. reflexivity. Qed.

(** A loop all of whose batches are out of bounds or already have their
    artifact does nothing at all. *)
Lemma batch_loop_all_skipped r tokens batches w :
  (forall b, b ∈ batches -> to_run (cfg r) (fs w) b = false) ->
  batch_loop r tokens batches w = (Ok tt, w).
Proof.
  induction batches as [|[i features] batches IH]; intros Hall; [done|].
  rewrite batch_loop_cons.
  assert (run_batch r tokens i features w = (Ok tt, w)) as ->.
  { destruct (to_run_false r w (i, features)) as [?|?];
      [apply Hall; left
      |by apply run_batch_out_of_bounds
      |by apply run_batch_artifact_exists]. }
  apply IH. intros b Hb. apply Hall. by right.
Qed.

(** The loop in general: [ran] are the batches handed to the extraction
    engine, all of them if the loop ends normally. *)
Lemma batch_loop_spec r tokens batches : forall w,
  NoDup batches.*1 ->
  exists ran,
    ran `prefix_of` List.filter (to_run (cfg r) (fs w)) batches
    /\ extraction_calls (batch_loop r tokens batches w).2
       = extraction_calls w ++ ran.*2
    /\ activations_store (batch_loop r tokens batches w).2 = activations_store w
    /\ generator (batch_loop r tokens batches w).2 = generator w
    /\ (forall p c, fs w !! p = Some c ->
          fs (batch_loop r tokens batches w).2 !! p = Some c)
    /\ (forall p, (forall b, b ∈ ran -> p <> batch_path (cfg r) b.1) ->
          fs (batch_loop r tokens batches w).2 !! p = fs w !! p)
    /\ match (batch_loop r tokens batches w).1 with
       | Ok _ =>
           ran = List.filter (to_run (cfg r) (fs w)) batches
           /\ forall b, b ∈ ran ->
                exists json_object,
                  fs (batch_loop r tokens batches w).2 !! batch_path (cfg r) b.1
                  = Some (BatchJson json_object)
       | Raise _ => ran <> []
       end.
Proof.
  induction batches as [|[i features] batches IH]; intros w Hnd.
  { exists []. simpl. rewrite app_nil_r. repeat split; try done.
    intros b Hb. by inversion Hb. }
  simpl in Hnd. apply NoDup_cons in Hnd as [Hi Hnd].
  rewrite batch_loop_cons. cbn [List.filter].
  destruct (to_run (cfg r) (fs w) (i, features)) eqn:Erun.
  - rewrite (run_batch_runs _ _ _ _ _ Erun).
    assert (fs w !! batch_path (cfg r) i = None) as Hnone.
    { unfold to_run in Erun. apply andb_true_iff in Erun as [_ Hn].
      by apply bool_decide_eq_true in Hn. }
    destruct (SaeVisRunner_run features tokens) as [fd|e].
    2:{ exists [(i, features)]. simpl.
        split; [apply prefix_cons, prefix_nil|]. repeat split; try done. }
    destruct (convert_to_np_json fd (vocab_dict r)) as [json|e].
    2:{ exists [(i, features)]. simpl.
        split; [apply prefix_cons, prefix_nil|]. repeat split; try done. }
    set (w1 := {| fs := <[batch_path (cfg r) i := BatchJson json]> (fs w);
                  activations_store := activations_store w;
                  generator := generator w;
                  extraction_calls := extraction_calls w ++ [features] |}).
    assert (List.filter (to_run (cfg r) (fs w1)) batches
            = List.filter (to_run (cfg r) (fs w)) batches) as Hsame.
    { apply List.filter_ext_in. intros [j g] Hj%list_elem_of_In.
      unfold to_run, w1; simpl. f_equal. f_equal.
      rewrite lookup_insert_ne; [done|].
      intros Heq%batch_path_inj. subst j. apply Hi.
      apply list_elem_of_fmap. by exists (i, g). }
    destruct (IH w1 Hnd) as (ran & Hpre & Hcalls & Hst & Hgen & Hkeep & Hother & Hres).
    rewrite Hsame in Hpre, Hres.
    exists ((i, features) :: ran). split; [by apply prefix_cons|].
    split; [rewrite Hcalls; simpl; by rewrite <- app_assoc|].
    split; [done|]. split; [done|]. split; [|split].
    + intros p c Hp. apply Hkeep. unfold w1; simpl.
      rewrite lookup_insert_ne; [done|]. congruence.
    + intros p Hp. rewrite Hother.
      * unfold w1; simpl. rewrite lookup_insert_ne; [done|].
        intros Heq. by apply (Hp (i, features)); [left|].
      * intros b Hb. apply Hp. by right.
    + destruct (batch_loop r tokens batches w1).1.
      * destruct Hres as [-> Hart]. split; [done|].
        intros b [->|Hb]%elem_of_cons; [|by apply Hart].
        exists json. apply Hkeep. unfold w1; simpl. by rewrite lookup_insert_eq.
      * done.
  - assert (run_batch r tokens i features w = (Ok tt, w)) as ->.
    { destruct (to_run_false r w (i, features) Erun) as [?|?];
        [by apply run_batch_out_of_bounds|by apply run_batch_artifact_exists]. }
    apply IH, Hnd.
Qed.

Lemma enumerate_ordinals {A} (l : list A) : (enumerate l).*1 = seq 0 (length l).
Proof. unfold enumerate. apply fst_zip. by rewrite length_seq. Qed.

Lemma enumerate_NoDup {A} (l : list A) : NoDup (enumerate l).*1.
Proof. rewrite enumerate_ordinals. apply NoDup_seq. Qed.

End BatchFacts.

Lemma List_filter_sublist {A} (f : A -> bool) (l : list A) :
  List.filter f l `sublist_of` l.
Proof.
  induction l as [|x l IH]; simpl; [constructor|].
  destruct (f x); by constructor.
Qed.

Section BatchTheorems.

Context `{Collaborators}.

Implicit Types (r : NeuronpediaRunner) (w : World) (tokens : Tensor2).

Lemma in_bounds_false c (i : nat) :
  in_bounds c i = false
  <-> Z.of_nat i < start_batch c
      \/ exists m, end_batch c = Some m /\ m < Z.of_nat i.
Proof.
  unfold in_bounds, after_end. rewrite andb_false_iff, !negb_false_iff.
  rewrite Z.ltb_lt. destruct (end_batch c) as [m|].
  - rewrite Z.ltb_lt. split.
    + intros [?|?]; [by left|right; by exists m].
    + intros [?|(m' & [= <-] & ?)]; [by left|by right].
  - split; [intros [?|?]; [by left|done]|].
    intros [?|(m' & ? & ?)]; [by left|done].
Qed.

(** C5: resumption is idempotent.  If the batch loop has run to its end over
    a plan, running it again over the same plan in the world it left calls
    the extraction engine not once and changes nothing: no file, no log
    entry.  A batch whose artifact exists is skipped as it is, and no run of
    the loop ever alters a file that already exists. *)
Theorem batch_loop_resume r tokens tokens' plan w w1 :
  batch_loop r tokens (enumerate plan) w = (Ok tt, w1) ->
  batch_loop r tokens' (enumerate plan) w1 = (Ok tt, w1)
  /\ (forall i features w0,
        is_Some (fs w0 !! batch_path (cfg r) i) ->
        run_batch r tokens' i features w0 = (Ok tt, w0))
  /\ (forall plan' w0 p content,
        fs w0 !! p = Some content ->
        fs (batch_loop r tokens' (enumerate plan') w0).2 !! p = Some content).
Proof.
  intros Hrun. split; [|split].
  - destruct (batch_loop_spec r tokens (enumerate plan) w (enumerate_NoDup plan))
      as (ran & _ & _ & _ & _ & Hkeep & _ & Hres).
    rewrite Hrun in Hkeep, Hres. simpl in Hkeep, Hres. destruct Hres as [-> Hart].
    apply batch_loop_all_skipped. intros b Hb.
    unfold to_run. destruct (in_bounds (cfg r) b.1) eqn:Eb; [|done]. simpl.
    apply bool_decide_eq_false.
    destruct (fs w !! batch_path (cfg r) b.1) as [c|] eqn:Ew.
    + by rewrite (Hkeep _ _ Ew).
    + destruct (Hart b) as [json ->]; [|done].
      apply list_elem_of_In, List.filter_In. split; [by apply list_elem_of_In|].
      unfold to_run. rewrite Eb. simpl. by apply bool_decide_eq_true.
  - intros i features w0. apply run_batch_artifact_exists.
  - intros plan' w0 p content Hp.
    destruct (batch_loop_spec r tokens' (enumerate plan') w0
                (enumerate_NoDup plan'))
      as (ran & _ & _ & _ & _ & Hkeep & _). by apply Hkeep.
Qed.

(** C6 (as the code has it): a batch whose ordinal is below [start_batch],
    or above a configured [end_batch], is skipped: the extraction engine is
    not called and no file is written, and after the loop the file at its
    path is what it was.  The batches handed to the extraction engine are,
    in ascending plan order, the batches within the bounds whose artifact
    does not exist yet: all of them when the loop ends normally, a leading
    part of them when a collaborator raises. *)
Theorem batch_loop_start_end r tokens plan w :
  let c := cfg r in
  let todo := List.filter (to_run c (fs w)) (enumerate plan) in
  let out := batch_loop r tokens (enumerate plan) w in
  (forall i : nat,
     in_bounds c i = false
     <-> Z.of_nat i < start_batch c
         \/ exists m, end_batch c = Some m /\ m < Z.of_nat i)
  /\ (forall i features w0,
        in_bounds c i = false ->
        run_batch r tokens i features w0 = (Ok tt, w0))
  /\ (forall i, in_bounds c i = false ->
        fs out.2 !! batch_path c i = fs w !! batch_path c i)
  /\ exists ran,
       ran `prefix_of` todo
       /\ ran `sublist_of` enumerate plan
       /\ (forall b, b ∈ ran ->
             in_bounds c b.1 = true /\ fs w !! batch_path c b.1 = None)
       /\ extraction_calls out.2 = extraction_calls w ++ ran.*2
       /\ (is_ok out.1 = true -> ran = todo).
Proof.
  intros c todo out.
  destruct (batch_loop_spec r tokens (enumerate plan) w (enumerate_NoDup plan))
    as (ran & Hpre & Hcalls & _ & _ & _ & Hother & Hres).
  fold c todo out in Hpre, Hcalls, Hother, Hres.
  assert (forall b, b ∈ ran ->
            in_bounds c b.1 = true /\ fs w !! batch_path c b.1 = None) as Hran.
  { intros b Hb.
    assert (b ∈ todo) as Ht by (by eapply elem_of_prefix).
    apply list_elem_of_In, List.filter_In in Ht as [_ Ht].
    unfold to_run in Ht. apply andb_true_iff in Ht as [? Hn].
    by apply bool_decide_eq_true in Hn. }
  assert (ran `sublist_of` todo) as Hsub.
  { destruct Hpre as [k Hk]. rewrite Hk. by apply sublist_inserts_r. }
  split; [apply in_bounds_false|]. split; [|split].
  - intros i features w0. apply run_batch_out_of_bounds.
  - intros i Hi. apply Hother. intros b Hb Heq%batch_path_inj. subst i.
    destruct (Hran b Hb) as [Hin _]. congruence.
  - exists ran. split; [done|]. split.
    + etrans; [exact Hsub|apply List_filter_sublist].
    + split; [done|]. split; [done|].
      intros Hok. destruct out.1; [by destruct Hres|done].
Qed.

End BatchTheorems.

(** A first run over three batches in an empty directory, then a second
    run in the world it left. *)
Lemma batch_loop_resume_witness :
  exists w1,
    batch_loop (H := Demo.collaborators) (Demo.runner Demo.config) Demo.corpus
      (enumerate [[0; 1]; [2; 3]; [4; 5]]) (Demo.world ∅) = (Ok tt, w1)
    /\ extraction_calls w1 = [[0; 1]; [2; 3]; [4; 5]]
    /\ batch_loop (H := Demo.collaborators) (Demo.runner Demo.config) Demo.corpus
         (enumerate [[0; 1]; [2; 3]; [4; 5]]) w1 = (Ok tt, w1).
Proof.
  eexists.
  assert (batch_loop (H := Demo.collaborators) (Demo.runner Demo.config)
            Demo.corpus (enumerate [[0; 1]; [2; 3]; [4; 5]]) (Demo.world ∅)
          = (Ok tt, _)) as Hrun by (vm_compute; reflexivity).
  split; [exact Hrun|]. split; [reflexivity|].
  exact (proj1 (batch_loop_resume _ Demo.corpus Demo.corpus _ _ _ Hrun)).
Defined.

(** The scenario [start_batch = 1], [end_batch = 1] over a plan of three
    batches in an empty output directory: the extraction engine is called
    once, on the features of batch 1, and [batch-1.json] is the one file. *)
Lemma batch_loop_start_end_witness :
  let r := Demo.runner (Demo.config_of 1 (Some 1) None None false false) in
  let plan := [[0; 1]; [2; 3]; [4; 5]] in
  let out :=
    batch_loop (H := Demo.collaborators) r Demo.corpus (enumerate plan)
      (Demo.world ∅) in
  out.1 = Ok tt
  /\ extraction_calls out.2 = [[2; 3]]
  /\ fs out.2 = {[ "out/gpt2-small_res-jb/batch-1.json" := BatchJson "features:2" ]}
  /\ exists ran,
       ran `prefix_of` List.filter (to_run (cfg r) ∅) (enumerate plan)
       /\ ran `sublist_of` enumerate plan
       /\ (forall b, b ∈ ran ->
             in_bounds (cfg r) b.1 = true
             /\ (∅ : gmap string Content) !! batch_path (cfg r) b.1 = None)
       /\ extraction_calls out.2 = [] ++ ran.*2
       /\ (is_ok out.1 = true ->
           ran = List.filter (to_run (cfg r) ∅) (enumerate plan)).
Proof.
  intros r plan out.
  split; [vm_compute; reflexivity|]. split; [vm_compute; reflexivity|].
  split; [vm_compute; reflexivity|].
  exact (proj2 (proj2 (proj2
    (batch_loop_start_end (H := Demo.collaborators) r Demo.corpus plan
       (Demo.world ∅))))).
Defined.

(** C6 as stated fails.  With [start_batch = 1], [end_batch = 1] and a plan
    of three batches, batch 1 is within the bounds; when [batch-1.json]
    exists it is skipped all the same, and the loop ends without a single
    extraction call and without touching a file. *)
Lemma batch_loop_in_bounds_not_processed :
  let r := Demo.runner (Demo.config_of 1 (Some 1) None None false false) in
  let files : gmap string Content :=
    {[ batch_path (cfg r) 1 := BatchJson "earlier" ]} in
  in_bounds (cfg r) 1 = true
  /\ batch_loop (H := Demo.collaborators) r Demo.corpus
       (enumerate [[0; 1]; [2; 3]; [4; 5]]) (Demo.world files)
     = (Ok tt, Demo.world files)
  /\ extraction_calls (Demo.world files) = [].
Proof.
  split; [reflexivity|]. split; [vm_compute; reflexivity|reflexivity].
Qed.

(** ** The run as a whole *)

Lemma add_prefix_suffix_too_long prefix suffix prepend_bos tokens :
  prefix <> None \/ suffix <> None ->
  (0 < shape1 tokens)%nat ->
  Z.of_nat (shape1 tokens)
    - Z.of_nat (length (default [] prefix))
    - Z.of_nat (length (default [] suffix)) <= 0 ->
  add_prefix_suffix_to_tokens prefix suffix prepend_bos tokens
  = Raise (ValueError "Prefix and suffix are too long for the given tokens.").
Proof.
  intros Hsome Hpos Hkeep. unfold add_prefix_suffix_to_tokens, column0.
  assert ((shape1 tokens =? 0)%nat = false) as -> by (apply Nat.eqb_neq; lia).
  cbn [rbind]. rewrite both_none_match.
  rewrite bool_decide_false by (intros [? ?]; by destruct Hsome).
  assert (forall d : option (list Z),
            (if truthy d then length (default [] d) else 0%nat)
            = length (default [] d)) as Hlen
    by (by intros [[|??]|]).
  rewrite !Hlen. destruct (_ <=? 0) eqn:E; [done|lia].
Qed.

Section RunTheorems.

Context `{Collaborators}.

Implicit Types (r : NeuronpediaRunner) (w : World) (tokens : Tensor2).

Lemma generate_loop_only_drew shuffle n iters : forall acc w,
  only_drew w (generate_loop shuffle n iters acc w).2.
Proof.
  induction iters as [|iters IH]; intros acc w; [apply only_drew_refl|].
  rewrite generate_loop_S.
  destruct (pending (activations_store w)) as [|b rest] eqn:Hp.
  { rewrite (get_batch_tokens_nil w Hp). apply only_drew_refl. }
  destruct (get_batch_tokens_cons w b rest Hp) as (w1 & -> & _ & Hd1).
  destruct (shuffled_spec shuffle b w1) as (b' & w2 & -> & _ & _ & _ & Hd2).
  cbv zeta. destruct (_ <=? _).
  - by eapply only_drew_trans.
  - eapply only_drew_trans; [by eapply only_drew_trans|apply IH].
Qed.

Lemma generate_tokens_only_drew shuffle n w :
  only_drew w (generate_tokens shuffle n w).2.
Proof.
  destruct (decide (store_batch_size_prompts (activations_store w) = 0))
    as [Hz|Hbs].
  { unfold generate_tokens. rewrite Hz. apply only_drew_refl. }
  rewrite generate_tokens_unfold by done.
  pose proof (generate_loop_only_drew shuffle n
    (Z.to_nat (n / store_batch_size_prompts (activations_store w))) ([], ∅) w)
    as Hd.
  destruct (generate_loop _ _ _ _ w) as [[l|e] w1]; [|done].
  destruct (cat0 l) as [a|e]; [|done].
  destruct (shuffled_spec shuffle (slice_rows n a) w1)
    as (t' & w2 & -> & _ & _ & _ & Hd2).
  by eapply only_drew_trans.
Qed.

(** [get_tokens] calls no extraction and touches no file but the corpus. *)
Lemma get_tokens_world c w :
  extraction_calls (get_tokens c w).2 = extraction_calls w
  /\ forall p, p <> tokens_path c -> fs (get_tokens c w).2 !! p = fs w !! p.
Proof.
  cut (forall out, get_tokens c w = out ->
         extraction_calls out.2 = extraction_calls w
         /\ forall p, p <> tokens_path c -> fs out.2 !! p = fs w !! p);
    [by intros Hcut; apply Hcut|].
  unfold get_tokens. unfold bind at 1, isfile.
  destruct (bool_decide (is_Some (fs w !! tokens_path c))).
  - unfold bind, torch_load.
    destruct (fs w !! tokens_path c) as [[?|? ? ? ? ?|t|?]|];
      intros out <-; simpl; try done.
    unfold raise, ret. by destruct (has_duplicate_rows t).
  - unfold bind at 1 2.
    destruct (generate_tokens_only_drew (shuffle_tokens c) (n_prompts_total c) w)
      as (Hfs & Hcalls & _).
    destruct (generate_tokens _ _ w) as [[t|e] w1]; simpl in *;
      [|intros out <-; simpl; split; [done|]; intros; by rewrite Hfs].
    unfold bind, write_file, ret, raise; simpl. intros out <-.
    destruct (has_duplicate_rows t); simpl;
      (split; [done|]; intros p Hp; by rewrite lookup_insert_ne, Hfs).
Qed.

(** [run], stage by stage. *)
Lemma run_unfold r w :
  run r w
  = let target := get_alive_features (sae_cfg_d_sae r) in
    let w_settings :=
      (write_file (run_settings_path (cfg r)) (RunSettings (cfg r)) w).2 in
    match get_feature_batches target (n_features_at_a_time (cfg r)) with
    | Raise e => (Raise e, w_settings)
    | Ok plan =>
        if Z.of_nat (length plan) <=? start_batch (cfg r)
        then (Raise SystemExit, w_settings)
        else
          let w0 :=
            (record_skipped_features r (sae_cfg_d_sae r) target w_settings).2 in
          match get_tokens (cfg r) w0 with
          | (Raise e, w1) => (Raise e, w1)
          | (Ok tokens, w1) =>
              match add_prefix_suffix_to_tokens (prefix_tokens (cfg r))
                      (suffix_tokens (cfg r)) (sae_cfg_prepend_bos r) tokens with
              | Raise e => (Raise e, w1)
              | Ok tokens' => batch_loop r tokens' (enumerate plan) w1
              end
          end
    end.
Proof.
  unfold run. unfold bind at 1. cbn [write_file snd].
  unfold bind at 1, lift.
  destruct (get_feature_batches _ _) as [plan|e]; [|done].
  destruct (_ <=? _); [done|].
  unfold bind at 1. cbn [record_skipped_features write_file snd].
  unfold bind at 1.
  destruct (get_tokens _ _) as [[tokens|e] w1]; [|done].
  unfold bind. by destruct (add_prefix_suffix_to_tokens _ _ _ _).
Qed.

(** C10: when [start_batch] is at or beyond the number of batches of the
    plan, [run] ends in [exit()] right after planning.  The one thing it has
    done is to write the run settings: the skipped-feature record is not
    written, the corpus is neither loaded nor drawn nor saved, the generator
    is not used, no batch artifact is written and the extraction engine is
    not called. *)
Theorem run_exits_when_start_beyond_plan r w plan :
  get_feature_batches (get_alive_features (sae_cfg_d_sae r))
    (n_features_at_a_time (cfg r)) = Ok plan ->
  Z.of_nat (length plan) <= start_batch (cfg r) ->
  exists w',
    run r w = (Raise SystemExit, w')
    /\ fs w' = <[run_settings_path (cfg r) := RunSettings (cfg r)]> (fs w)
    /\ fs w' !! skipped_indexes_path (cfg r)
       = fs w !! skipped_indexes_path (cfg r)
    /\ fs w' !! tokens_path (cfg r) = fs w !! tokens_path (cfg r)
    /\ (forall i, fs w' !! batch_path (cfg r) i = fs w !! batch_path (cfg r) i)
    /\ activations_store w' = activations_store w
    /\ generator w' = generator w
    /\ extraction_calls w' = extraction_calls w.
Proof.
  intros Hplan Hstart. rewrite run_unfold. cbv zeta. rewrite Hplan.
  destruct (_ <=? _) eqn:E; [|lia].
  eexists; split; [done|]. simpl. split; [done|].
  split; [apply lookup_insert_ne, run_settings_path_not_skipped|].
  split; [apply lookup_insert_ne, run_settings_path_not_tokens|].
  split; [|done].
  intros i. apply lookup_insert_ne, run_settings_path_not_batch.
Qed.

(** C9 (as the code has it): more than one encoder-family flag is refused
    by the constructor, before any loader is asked.  A prefix and suffix
    that leave [keep_length <= 0] are refused inside [run], by
    [add_prefix_suffix_to_tokens], once the run settings and the
    skipped-feature record are written and the corpus is at hand: the run
    ends in that error before the batch loop, with no extraction call and
    no batch artifact written. *)
Theorem configuration_errors :
  (forall c,
     1 < Z.b2z (use_transcoder c) + Z.b2z (use_skip_transcoder c)
         + Z.b2z (use_clt c) ->
     NeuronpediaRunner_init c
     = Raise (ValueError
         "Only one of --use-transcoder, --use-skip-transcoder, or --use-clt can be set."))
  /\ (forall r w plan tokens w1,
        let target := get_alive_features (sae_cfg_d_sae r) in
        let w0 :=
          (record_skipped_features r (sae_cfg_d_sae r) target
             (write_file (run_settings_path (cfg r)) (RunSettings (cfg r)) w).2).2 in
        get_feature_batches target (n_features_at_a_time (cfg r)) = Ok plan ->
        start_batch (cfg r) < Z.of_nat (length plan) ->
        get_tokens (cfg r) w0 = (Ok tokens, w1) ->
        prefix_tokens (cfg r) <> None \/ suffix_tokens (cfg r) <> None ->
        (0 < shape1 tokens)%nat ->
        Z.of_nat (shape1 tokens)
          - Z.of_nat (length (default [] (prefix_tokens (cfg r))))
          - Z.of_nat (length (default [] (suffix_tokens (cfg r)))) <= 0 ->
        run r w
        = (Raise (ValueError
             "Prefix and suffix are too long for the given tokens."), w1)
        /\ fs w1 !! run_settings_path (cfg r) = Some (RunSettings (cfg r))
        /\ extraction_calls w1 = extraction_calls w
        /\ forall i, fs w1 !! batch_path (cfg r) i = fs w !! batch_path (cfg r) i).
Proof.
  split.
  - intros c Hflags. unfold NeuronpediaRunner_init. simpl.
    destruct (1 <? _) eqn:E; [done|]. lia.
  - intros r w plan tokens w1 target w0 Hplan Hstart Htok Hsome Hpos Hkeep.
    destruct (get_tokens_world (cfg r) w0) as [Hcalls Hfs].
    rewrite Htok in Hcalls, Hfs. simpl in Hcalls, Hfs.
    split.
    + rewrite run_unfold. cbv zeta. fold target. rewrite Hplan.
      destruct (_ <=? _) eqn:E; [lia|]. fold w0. rewrite Htok.
      by rewrite add_prefix_suffix_too_long.
    + split; [|split; [done|]].
      * rewrite Hfs by apply run_settings_path_not_tokens.
        rewrite lookup_insert_ne
          by (apply not_eq_sym, run_settings_path_not_skipped).
        by rewrite lookup_insert_eq.
      * intros i. rewrite Hfs by (apply not_eq_sym, tokens_path_not_batch).
        rewrite lookup_insert_ne by apply skipped_path_not_batch.
        by rewrite lookup_insert_ne by apply run_settings_path_not_batch.
Qed.

End RunTheorems.

(** The exit theorem at [start_batch = 5] over a plan of three batches. *)
Lemma run_exits_when_start_beyond_plan_witness :
  let r := Demo.runner (Demo.config_of 5 None None None false false) in
  let plan := [[0; 1]; [2; 3]; [4; 5]] in
  get_feature_batches (get_alive_features (sae_cfg_d_sae r))
    (n_features_at_a_time (cfg r)) = Ok plan
  /\ Z.of_nat (length plan) <= start_batch (cfg r)
  /\ exists w',
       run (H := Demo.collaborators) r (Demo.world ∅) = (Raise SystemExit, w')
       /\ fs w' = <[run_settings_path (cfg r) := RunSettings (cfg r)]> ∅
       /\ fs w' !! skipped_indexes_path (cfg r) = None
       /\ fs w' !! tokens_path (cfg r) = None
       /\ (forall i, fs w' !! batch_path (cfg r) i = None)
       /\ activations_store w' = activations_store (Demo.world ∅)
       /\ generator w' = tt
       /\ extraction_calls w' = [].
Proof.
  intros r plan.
  assert (get_feature_batches (get_alive_features (sae_cfg_d_sae r))
            (n_features_at_a_time (cfg r)) = Ok plan) as Hplan by reflexivity.
  assert (Z.of_nat (length plan) <= start_batch (cfg r)) as Hstart
    by (vm_compute; discriminate).
  split; [exact Hplan|]. split; [exact Hstart|].
  exact (run_exits_when_start_beyond_plan (H := Demo.collaborators)
           r (Demo.world ∅) plan Hplan Hstart).
Defined.

(** Two flags at once are refused by the constructor; a prefix of three
    tokens on sequences of length two is refused by [run]. *)
Lemma configuration_errors_witness :
  let both := Demo.config_of 0 None None None true true in
  let r := Demo.runner (Demo.config_of 0 None (Some [1; 2; 3]) None false false) in
  (1 < Z.b2z (use_transcoder both) + Z.b2z (use_skip_transcoder both)
       + Z.b2z (use_clt both)
   /\ exists msg,
        NeuronpediaRunner_init (H := Demo.collaborators) both
        = Raise (ValueError msg))
  /\ exists w1,
       run (H := Demo.collaborators) r (Demo.world ∅)
       = (Raise (ValueError
            "Prefix and suffix are too long for the given tokens."), w1)
       /\ fs w1 !! run_settings_path (cfg r) = Some (RunSettings (cfg r))
       /\ extraction_calls w1 = []
       /\ forall i, fs w1 !! batch_path (cfg r) i = None.
Proof.
  intros both r.
  destruct (configuration_errors (H := Demo.collaborators)) as [Hflags Hsplice].
  split.
  - assert (1 < Z.b2z (use_transcoder both) + Z.b2z (use_skip_transcoder both)
                + Z.b2z (use_clt both)) as Hsum by (vm_compute; reflexivity).
    split; [exact Hsum|]. eexists. exact (Hflags both Hsum).
  - eexists.
    refine (Hsplice r (Demo.world ∅) [[0; 1]; [2; 3]; [4; 5]] _ _
              eq_refl _ _ _ _ _).
    + vm_compute; reflexivity.
    + vm_compute; reflexivity.
    + left. discriminate.
    + vm_compute. lia.
    + vm_compute. discriminate.
Defined.

(** C9 as stated fails.  A prefix of three tokens on sequences of length two
    passes the constructor; [run] starts, writes the run settings and the
    skipped-feature record, draws and saves the corpus, and only then ends
    in the prefix/suffix error. *)
Lemma prefix_too_long_passes_construction :
  let c := Demo.config_of 0 None (Some [1; 2; 3]) None false false in
  exists r w',
    NeuronpediaRunner_init (H := Demo.collaborators) c = Ok r
    /\ run (H := Demo.collaborators) r (Demo.world ∅)
       = (Raise (ValueError
            "Prefix and suffix are too long for the given tokens."), w')
    /\ is_Some (fs w' !! run_settings_path (cfg r))
    /\ is_Some (fs w' !! skipped_indexes_path (cfg r))
    /\ is_Some (fs w' !! tokens_path (cfg r))
    /\ length (pending (activations_store w')) = 1%nat
    /\ length (pending (activations_store (Demo.world ∅))) = 3%nat.
Proof.
  intros c. exists (Demo.runner c). eexists.
  split; [reflexivity|]. split; [vm_compute; reflexivity|].
  repeat split; vm_compute; eauto.
Qed.

(** * Further properties *)

(** ** Construction: devices, loader family, CLT weights, dataset path *)

Lemma or_str_set (x : option string) (d : string) :
  d <> "" -> Init.str_set (Init.or_str x d) = true.
Proof.
  intros Hd. unfold Init.or_str. destruct (Init.str_set x) eqn:E; [done|].
  simpl. by rewrite bool_decide_false.
Qed.

Lemma or_str_keeps (x : option string) (d : string) :
  Init.str_set x = true -> Init.or_str x d = x.
Proof. intros Hx. unfold Init.or_str. by rewrite Hx. Qed.

Lemma or_int_set (x : option Z) (d : Z) :
  d <> 0 -> Init.int_set (Init.or_int x d) = true.
Proof.
  intros Hd. unfold Init.or_int. destruct (Init.int_set x) eqn:E; [done|].
  simpl. apply negb_true_iff, Z.eqb_neq, Hd.
Qed.

Lemma or_int_keeps (x : option Z) (d : Z) :
  Init.int_set x = true -> Init.or_int x d = x.
Proof. intros Hx. unfold Init.or_int. by rewrite Hx. Qed.

Lemma cuda_last_device_nonempty (n : Z) : "cuda:" +:+ pretty n <> "".
Proof. discriminate. Qed.

(** X1: after the device block of [__init__] the encoder, model and
    activation-store devices are always set (neither [None] nor empty),
    whatever torch reports and whatever was configured.  The number of model
    devices is set too, with one exception: on CUDA (without MPS) with at
    most one device it stays as configured, unset included. *)
Theorem resolve_devices_always_set (env : Init.TorchEnv) (c : Init.DeviceConfig) :
  let c' := (Init.resolve_devices env c).1 in
  Init.str_set (Init.sae_device c') = true
  /\ Init.str_set (Init.model_device c') = true
  /\ Init.str_set (Init.activation_store_device c') = true
  /\ (Init.int_set (Init.model_n_devices c') = false
      <-> Init.mps_is_available env = false
          /\ Init.cuda_is_available env = true
          /\ Init.cuda_device_count env <= 1
          /\ Init.int_set (Init.model_n_devices c) = false).
Proof.
  unfold Init.resolve_devices.
  destruct (Init.mps_is_available env); [|destruct (Init.cuda_is_available env)];
    cbn [fst Init.sae_device Init.model_device Init.activation_store_device
         Init.model_n_devices].
  - rewrite !or_str_set, or_int_set by done. naive_solver.
  - destruct (Z.ltb_spec 1 (Init.cuda_device_count env)) as [Hdc|Hdc];
      cbn [Init.sae_device Init.model_device Init.activation_store_device
           Init.model_n_devices].
    + rewrite !or_str_set by done.
      rewrite or_int_set by lia. split; [done|]. split; [done|].
      split; [done|]. split; [done|]. intros (_ & _ & ? & _). lia.
    + rewrite !or_str_set by done. naive_solver.
  - rewrite !or_str_set, or_int_set by done. naive_solver.
Qed.

(** X2: the device block never replaces a device that was configured: a
    set encoder device, model device, activation-store device or number of
    model devices comes out as it went in, on MPS, CUDA and CPU alike. *)
Theorem resolve_devices_keeps_overrides (env : Init.TorchEnv)
    (c : Init.DeviceConfig) :
  let c' := (Init.resolve_devices env c).1 in
  (Init.str_set (Init.sae_device c) = true ->
     Init.sae_device c' = Init.sae_device c)
  /\ (Init.str_set (Init.model_device c) = true ->
        Init.model_device c' = Init.model_device c)
  /\ (Init.str_set (Init.activation_store_device c) = true ->
        Init.activation_store_device c' = Init.activation_store_device c)
  /\ (Init.int_set (Init.model_n_devices c) = true ->
        Init.model_n_devices c' = Init.model_n_devices c).
Proof.
  unfold Init.resolve_devices.
  destruct (Init.mps_is_available env); [|destruct (Init.cuda_is_available env)];
    [| destruct (1 <? Init.cuda_device_count env) |];
    cbn [fst Init.sae_device Init.model_device Init.activation_store_device
         Init.model_n_devices];
    repeat split; intros Hset;
    rewrite ?or_str_keeps, ?or_int_keeps; try done;
    by rewrite or_str_keeps.
Qed.

(** X3: the device block is idempotent: run on its own result, under the
    same torch, it changes nothing. *)
Theorem resolve_devices_idempotent (env : Init.TorchEnv) (c : Init.DeviceConfig) :
  Init.resolve_devices env (Init.resolve_devices env c).1
  = Init.resolve_devices env c.
Proof.
  unfold Init.resolve_devices.
  destruct (Init.mps_is_available env); [|destruct (Init.cuda_is_available env)];
    [| destruct (Z.ltb_spec 1 (Init.cuda_device_count env)) as [Hdc|Hdc] |];
    cbn [fst Init.sae_device Init.model_device Init.activation_store_device
         Init.model_n_devices];
    repeat first
      [ rewrite (or_str_keeps (Init.or_str _ _)) by (by apply or_str_set)
      | rewrite (or_int_keeps (Init.or_int _ _)) by (apply or_int_set; lia) ];
    done.
Qed.

(** The validation block as [__init__] runs it: its error is raised before
    the loaders are asked. *)
Lemma init_validation `{Collaborators} (c : NeuronpediaRunnerConfig) :
  match Init.validation_error c with
  | Some msg => NeuronpediaRunner_init c = Raise (ValueError msg)
  | None =>
      NeuronpediaRunner_init c
      = rbind (load_models c) (fun l =>
          Ok {| cfg := with_outputs_dir c (resolved_outputs_dir l);
                sae_cfg_d_sae := loaded_d_sae l;
                sae_cfg_prepend_bos := loaded_prepend_bos l;
                model_id := loaded_model_id l;
                layer := loaded_layer l;
                vocab_dict := get_vocab_dict (tokenizer_vocab l) (d_vocab l) |})
  end.
Proof.
  unfold Init.validation_error, NeuronpediaRunner_init.
  destruct (1 <? _); [done|]. by destruct (_ && _).
Qed.

(** X4: for a configuration that passes the validation block, the order of
    the [if]/[elif] chain that picks the loader does not matter: the family
    picked is the one whose flag is set, the plain SAE loader when none is;
    and in the CLT branch the assertion that [clt_layer_idx] is not [None]
    cannot fail. *)
Theorem loader_family_after_validation (c : NeuronpediaRunnerConfig) :
  Init.validation_error c = None ->
  (Init.loader_family c = Init.SkipTranscoderFamily
     <-> use_skip_transcoder c = true)
  /\ (Init.loader_family c = Init.TranscoderFamily <-> use_transcoder c = true)
  /\ (Init.loader_family c = Init.CLTFamily <-> use_clt c = true)
  /\ (Init.loader_family c = Init.SAEFamily
      <-> use_skip_transcoder c = false /\ use_transcoder c = false
          /\ use_clt c = false)
  /\ (Init.loader_family c = Init.CLTFamily -> clt_layer_idx c <> None).
Proof.
  unfold Init.validation_error, Init.loader_family. simpl.
  destruct (use_skip_transcoder c), (use_transcoder c), (use_clt c);
    simpl; intros Hval; try discriminate;
    repeat split; try done; try (intros; discriminate);
    try (by intros (? & ? & ?)).
  all: intros _ Hnone; rewrite Hnone in Hval; discriminate.
Qed.

(** The CLT family alone, with its layer index given. *)
Lemma loader_family_after_validation_witness :
  let c := Demo.config_of 0 None None None false true in
  Init.validation_error c = None
  /\ Init.loader_family c = Init.CLTFamily
  /\ clt_layer_idx c <> None.
Proof.
  intros c.
  assert (Init.validation_error c = None) as Hval by reflexivity.
  split; [exact Hval|].
  destruct (loader_family_after_validation c Hval) as (_ & _ & Hclt & _ & Hidx).
  split; [by apply Hclt|]. apply Hidx. by apply Hclt.
Defined.

Section CLTWeightsFacts.

Context {Path : Type} (path_join : string -> string -> Path)
  (is_file : Path -> bool) (glob_safetensors : string -> list Path).

(** X5: an explicit weights file name that exists wins: it is the file that
    is loaded, whatever else lies in the directory. *)
Theorem weights_path_explicit (sae_path explicit_filename : string) :
  explicit_filename <> "" ->
  is_file (path_join sae_path explicit_filename) = true ->
  Init.weights_path Path path_join is_file glob_safetensors
    sae_path explicit_filename
  = Some (path_join sae_path explicit_filename).
Proof.
  intros Hne Hfile. unfold Init.weights_path, Init.candidate_paths.
  rewrite bool_decide_false by done. cbv zeta. rewrite Hfile. simpl.
  by rewrite Hfile.
Qed.

(** X6: without an explicit name, or with one that is not a file, the
    search falls back without complaint: the file loaded is the first
    existing one among the [*.safetensors] files of the directory, in sorted
    order, then [model.safetensors], [model.pt], [model.bin]; and no file is
    loaded exactly when none of these exists. *)
Theorem weights_path_fallback (sae_path explicit_filename : string) :
  explicit_filename = ""
  \/ is_file (path_join sae_path explicit_filename) = false ->
  let fallback :=
    glob_safetensors sae_path
      ++ [path_join sae_path "model.safetensors";
          path_join sae_path "model.pt";
          path_join sae_path "model.bin"] in
  Init.weights_path Path path_join is_file glob_safetensors
    sae_path explicit_filename
  = List.find is_file fallback
  /\ (Init.weights_path Path path_join is_file glob_safetensors
        sae_path explicit_filename = None
      <-> forall p, p ∈ fallback -> is_file p = false).
Proof.
  intros Hcase fallback.
  assert (Init.weights_path Path path_join is_file glob_safetensors
            sae_path explicit_filename = List.find is_file fallback) as Heq.
  { unfold Init.weights_path, Init.candidate_paths.
    case_bool_decide as He; cbv zeta.
    - done.
    - destruct Hcase as [?|Hnf]; [done|]. rewrite Hnf. simpl. by rewrite Hnf. }
  split; [done|]. rewrite Heq. split.
  - intros Hnone p Hp%list_elem_of_In.
    by apply (List.find_none _ _ Hnone).
  - intros Hall. destruct (List.find is_file fallback) as [p|] eqn:Ef; [|done].
    apply List.find_some in Ef as [Hin Hf].
    apply list_elem_of_In, Hall in Hin. congruence.
Qed.

End CLTWeightsFacts.

(** A directory holding [b.safetensors] and [model.pt] only, searched for an
    explicit [model.pt]. *)
Lemma weights_path_explicit_witness :
  let is_file := fun p : string => bool_decide (p ∈ ["d/b.safetensors"; "d/model.pt"]) in
  let join := fun dir name : string => dir +:+ "/" +:+ name in
  "model.pt" <> ""
  /\ is_file (join "d" "model.pt") = true
  /\ Init.weights_path string join is_file (fun _ => ["d/b.safetensors"])
       "d" "model.pt" = Some "d/model.pt".
Proof.
  intros is_file join.
  assert ("model.pt" <> "") as Hne by discriminate.
  assert (is_file (join "d" "model.pt") = true) as Hfile by reflexivity.
  split; [exact Hne|]. split; [exact Hfile|].
  exact (weights_path_explicit join is_file (fun _ => ["d/b.safetensors"])
           "d" "model.pt" Hne Hfile).
Defined.

(** The same directory searched for an explicit [weights.bin] that is not
    there: [b.safetensors] is loaded instead. *)
Lemma weights_path_fallback_witness :
  let is_file := fun p : string => bool_decide (p ∈ ["d/b.safetensors"; "d/model.pt"]) in
  let join := fun dir name : string => dir +:+ "/" +:+ name in
  ("weights.bin" = "" \/ is_file (join "d" "weights.bin") = false)
  /\ Init.weights_path string join is_file (fun _ => ["d/b.safetensors"])
       "d" "weights.bin" = Some "d/b.safetensors".
Proof.
  intros is_file join.
  assert ("weights.bin" = "" \/ is_file (join "d" "weights.bin") = false)
    as Hcase by (right; reflexivity).
  split; [exact Hcase|].
  rewrite (proj1 (weights_path_fallback join is_file
                    (fun _ => ["d/b.safetensors"]) "d" "weights.bin" Hcase)).
  reflexivity.
Defined.

(** X7: the two dataset-path steps of [__init__] never replace a dataset
    path the encoder's config already has; the configured path reaches the
    encoder's config only when that has none.  Afterwards the two paths
    agree, unless both were given and differ. *)
Theorem reconcile_dataset_path_spec (huggingface_dataset_path : string)
    (sae_dataset_path : option string) :
  let out :=
    Init.reconcile_dataset_path huggingface_dataset_path sae_dataset_path in
  (Init.str_set sae_dataset_path = true -> out.2 = sae_dataset_path)
  /\ (Init.str_set sae_dataset_path = false -> out.2 = out.1)
  /\ (huggingface_dataset_path <> "" -> out.1 = Some huggingface_dataset_path)
  /\ (huggingface_dataset_path = "" -> out.1 = sae_dataset_path)
  /\ (out.1 = out.2
      \/ (huggingface_dataset_path <> ""
          /\ Init.str_set sae_dataset_path = true
          /\ sae_dataset_path <> Some huggingface_dataset_path)).
Proof.
  unfold Init.reconcile_dataset_path. cbv zeta. simpl.
  case_bool_decide as Hhf; destruct (Init.str_set sae_dataset_path) eqn:Es;
    repeat split; try done; try (by left).
  destruct (decide (sae_dataset_path = Some huggingface_dataset_path))
    as [->|Hne]; [by left|by right].
Qed.

(** ** The output directory *)

Lemma starts_with_slash_no_slash (s : string) :
  ~ In Pathlib.slash (String.list_ascii_of_string s) ->
  Pathlib.starts_with_slash s = false.
Proof.
  destruct s as [|c s]; [done|]. simpl. intros Hs.
  apply Ascii.eqb_neq. intros ->. apply Hs. by left.
Qed.

Lemma split_slash_no_slash (s : string) :
  ~ In Pathlib.slash (String.list_ascii_of_string s) ->
  Pathlib.split_slash s = [s].
Proof.
  induction s as [|c s IH]; [done|]. simpl. intros Hs.
  destruct (Ascii.eqb_spec c Pathlib.slash) as [->|_];
    [exfalso; apply Hs; by left|].
  rewrite IH; [done|]. intros Hin. apply Hs. by right.
Qed.

(** Text without a slash appended to a path string goes to its last
    piece. *)
Lemma split_slash_app (b s : string) :
  ~ In Pathlib.slash (String.list_ascii_of_string s) ->
  exists init last,
    Pathlib.split_slash b = init ++ [last]
    /\ Pathlib.split_slash (b +:+ s) = init ++ [last +:+ s].
Proof.
  intros Hs. induction b as [|c b (init & last & Hb & Hbs)].
  - exists [], "". split; [done|]. simpl. by apply split_slash_no_slash.
  - change (String c b +:+ s) with (String c (b +:+ s)).
    cbn [Pathlib.split_slash]. rewrite Hb, Hbs.
    destruct (Ascii.eqb c Pathlib.slash).
    + by exists ("" :: init), last.
    + destruct init as [|x init]; simpl.
      * by exists [], (String c last).
      * by exists (String c x :: init), last.
Qed.

Lemma root_app (b s : string) :
  ~ In Pathlib.slash (String.list_ascii_of_string s) ->
  Pathlib.root (b +:+ s) = Pathlib.root b.
Proof.
  intros Hs. pose proof (starts_with_slash_no_slash s Hs) as Hst.
  destruct b as [|c1 [|c2 [|c3 b]]]; destruct s as [|c s]; simpl in *;
    rewrite ?Hst; repeat (destruct (Ascii.eqb _ Pathlib.slash)); done.
Qed.

Lemma kept_true (x : string) :
  Pathlib.kept x = true <-> x <> "" /\ x <> ".".
Proof.
  unfold Pathlib.kept. rewrite andb_true_iff, !negb_true_iff.
  by rewrite !String.eqb_neq.
Qed.

Lemma string_app_assoc (s t u : string) : (s +:+ t) +:+ u = s +:+ t +:+ u.
Proof.
  induction s as [|a s IH]; [done|].
  change (String a ((s +:+ t) +:+ u) = String a (s +:+ t +:+ u)).
  by rewrite IH.
Qed.

Lemma string_app_empty_r (s : string) : s +:+ "" = s.
Proof.
  induction s as [|a s IH]; [done|].
  change (String a (s +:+ "") = String a s). by rewrite IH.
Qed.

Lemma join_slash_snoc (l : list string) (x : string) :
  Pathlib.join_slash (l ++ [x])
  = match l with
    | [] => x
    | _ :: _ => Pathlib.join_slash l +:+ "/" +:+ x
    end.
Proof.
  induction l as [|y l IH]; [done|].
  cbn [app Pathlib.join_slash]. rewrite IH.
  destruct l as [|z l]; [done|]. cbn [app].
  by rewrite !string_app_assoc.
Qed.

Lemma string_app_nil (s t : string) : s +:+ t = "" -> s = "" /\ t = "".
Proof. destruct s; [done|]. discriminate. Qed.

(** Two paths with the same root and the same leading components, each
    with at most one more component, print alike only when they agree. *)
Lemma to_str_last (r : string) (l : list string) (t1 t2 : list string) :
  (t1 = [] \/ exists x, t1 = [x] /\ Pathlib.kept x = true) ->
  (t2 = [] \/ exists x, t2 = [x] /\ Pathlib.kept x = true) ->
  Pathlib.to_str (Pathlib.mkPath r (l ++ t1))
  = Pathlib.to_str (Pathlib.mkPath r (l ++ t2)) ->
  t1 = t2.
Proof.
  assert (forall x,
            Pathlib.kept x = true ->
            Pathlib.to_str (Pathlib.mkPath r (l ++ []))
            <> Pathlib.to_str (Pathlib.mkPath r (l ++ [x]))) as Hdiff.
  { intros x [Hx1 Hx2]%kept_true. unfold Pathlib.to_str.
    cbn [Pathlib.path_root Pathlib.path_parts].
    rewrite app_nil_r, join_slash_snoc.
    assert (0 < String.length x)%nat as Hlen
      by (destruct x; [done|simpl; lia]).
    destruct l as [|y l].
    - cbn [Pathlib.join_slash].
      destruct (String.eqb_spec (r +:+ "") "") as [He|He];
        destruct (String.eqb_spec (r +:+ x) "") as [He'|He'].
      + by apply string_app_nil in He' as [_ ?].
      + apply string_app_nil in He as [-> _].
        change ("" +:+ x) with x. congruence.
      + by apply string_app_nil in He' as [_ ?].
      + intros Heq%(inj (String.app r)). congruence.
    - set (j := Pathlib.join_slash (y :: l)).
      destruct (String.eqb_spec (r +:+ j +:+ "/" +:+ x) "") as [He'|He'].
      { apply string_app_nil in He' as [_ He'].
        by apply string_app_nil in He' as [_ ?]. }
      destruct (String.eqb_spec (r +:+ j) "") as [He|He].
      + apply string_app_nil in He as [-> ->].
        intros Heq%(f_equal String.length).
        rewrite !string_app_length in Heq. simpl in Heq. lia.
      + intros Heq%(f_equal String.length).
        rewrite !string_app_length in Heq. simpl in Heq. lia. }
  intros [->|(x1 & -> & Hk1)] [->|(x2 & -> & Hk2)] Heq.
  - done.
  - by destruct (Hdiff x2 Hk2).
  - by destruct (Hdiff x1 Hk1).
  - f_equal. revert Heq. unfold Pathlib.to_str.
    cbn [Pathlib.path_root Pathlib.path_parts].
    rewrite !join_slash_snoc.
    apply kept_true in Hk1 as [Hx1 _]. apply kept_true in Hk2 as [Hx2 _].
    destruct l as [|y l].
    + destruct (String.eqb_spec (r +:+ x1) "") as [He|He];
        [by apply string_app_nil in He as [_ ?]|].
      destruct (String.eqb_spec (r +:+ x2) "") as [He'|He'];
        [by apply string_app_nil in He' as [_ ?]|].
      by intros Heq%(inj (String.app r)).
    + set (j := Pathlib.join_slash (y :: l)).
      destruct (String.eqb_spec (r +:+ j +:+ "/" +:+ x1) "") as [He|He].
      { apply string_app_nil in He as [_ He].
        by apply string_app_nil in He as [_ ?]. }
      destruct (String.eqb_spec (r +:+ j +:+ "/" +:+ x2) "") as [He'|He'].
      { apply string_app_nil in He' as [_ He'].
        by apply string_app_nil in He' as [_ ?]. }
      intros Heq%(inj (String.app r)). apply (inj (String.app j)) in Heq.
      by apply (inj (String.app "/")) in Heq.
Qed.

(** X8: the directory [create_output_directory] returns tells runs with
    different [np_sae_id_suffix] apart, as long as the suffixes hold no
    slash: for the same output directory, model, set, hook and width, two
    different suffixes, or a suffix (the empty one included) and none,
    never give the same path.  (With slashes they can: pathlib drops a
    trailing slash, so the suffixes [a] and [a/] share a directory.) *)
Theorem create_output_directory_suffix_inj (is_file : string -> bool)
    (cfg_outputs_dir model_id sae_set hook_name : string) (d_sae : Z)
    (suffix1 suffix2 : option string) (dir1 dir2 : string) :
  Init.create_output_directory is_file cfg_outputs_dir model_id sae_set
    hook_name d_sae suffix1 = Ok dir1 ->
  Init.create_output_directory is_file cfg_outputs_dir model_id sae_set
    hook_name d_sae suffix2 = Ok dir2 ->
  ~ In Pathlib.slash (String.list_ascii_of_string (default "" suffix1)) ->
  ~ In Pathlib.slash (String.list_ascii_of_string (default "" suffix2)) ->
  suffix1 <> suffix2 ->
  dir1 <> dir2.
Proof.
  unfold Init.create_output_directory. cbv zeta.
  destruct (is_file _); [done|]. intros [= <-].
  destruct (is_file _); [done|]. intros [= <-].
  intros Hs1 Hs2 Hne Heq. apply Hne. clear Hne. revert Heq.
  unfold Init.outputs_subdir. cbv zeta.
  set (base := model_id +:+ "_" +:+ sae_set +:+ "_" +:+ hook_name +:+ "_"
               +:+ pretty d_sae).
  set (tail := fun suffix : option string =>
                 match suffix with Some x => "_" +:+ x | None => "" end).
  assert (forall suffix : option string,
            match suffix with
            | Some x => base +:+ "_" +:+ x
            | None => base
            end = base +:+ tail suffix) as Hsub.
  { intros [x|]; simpl; [done|]. by rewrite string_app_empty_r. }
  rewrite !Hsub.
  assert (forall suffix : option string,
            ~ In Pathlib.slash
                (String.list_ascii_of_string (default "" suffix)) ->
            ~ In Pathlib.slash (String.list_ascii_of_string (tail suffix)))
    as Htail.
  { intros [x|] Hx; simpl in *; [|done].
    intros [Hc|?]; [|done]. by vm_compute in Hc. }
  apply Htail in Hs1, Hs2.
  destruct (split_slash_app base (tail suffix1) Hs1)
    as (init & last & Hb & Hb1).
  destruct (split_slash_app base (tail suffix2) Hs2)
    as (init' & last' & Hb' & Hb2).
  rewrite Hb in Hb'. apply app_inj_tail in Hb' as [<- <-].
  unfold Pathlib.joinpath, Pathlib.Path, Pathlib.parts.
  rewrite !root_app by done. rewrite Hb1, Hb2, !List.filter_app.
  assert (forall s : string,
            List.filter Pathlib.kept [last +:+ s] = []
            \/ exists x, List.filter Pathlib.kept [last +:+ s] = [x]
                         /\ Pathlib.kept x = true) as Hone.
  { intros s. cbn [List.filter].
    destruct (Pathlib.kept (last +:+ s)) eqn:Hk; [right; by eexists|by left]. }
  assert (List.filter Pathlib.kept [last +:+ tail suffix1]
          = List.filter Pathlib.kept [last +:+ tail suffix2] ->
          suffix1 = suffix2) as Hdone.
  { cbn [List.filter].
    assert (forall suffix : option string, tail suffix <> ".") as Hdot
      by (by intros [[|??]|]).
    assert (forall suffix : option string,
              Pathlib.kept (last +:+ tail suffix) = false ->
              last = "" /\ tail suffix = ""
              \/ last = "." /\ tail suffix = "") as Hout.
    { intros suffix Hk. unfold Pathlib.kept in Hk.
      apply andb_false_iff in Hk as [Hk|Hk]; apply negb_false_iff in Hk;
        apply String.eqb_eq in Hk.
      - left. by apply string_app_nil.
      - destruct last as [|c [|??]]; [by destruct (Hdot suffix)|..].
        + injection Hk as -> Hk. right. split; [done|].
          by destruct (tail suffix).
        + injection Hk as _ Hk. by destruct s. }
    assert (tail suffix1 = tail suffix2 -> suffix1 = suffix2) as Hinj.
    { destruct suffix1 as [x|], suffix2 as [y|]; simpl; try done.
      intros Heq%(inj (String.app "_")). by subst. }
    destruct (Pathlib.kept (last +:+ tail suffix1)) eqn:Hk1;
      destruct (Pathlib.kept (last +:+ tail suffix2)) eqn:Hk2; try done.
    - intros [= Heq%(inj (String.app last))]. by apply Hinj.
    - intros _. apply Hinj.
      destruct (Hout _ Hk1) as [[_ ->]|[_ ->]];
        by destruct (Hout _ Hk2) as [[_ ->]|[_ ->]]. }
  set (T1 := List.filter Pathlib.kept [last +:+ tail suffix1]) in *.
  set (T2 := List.filter Pathlib.kept [last +:+ tail suffix2]) in *.
  assert (T1 = [] \/ exists x, T1 = [x] /\ Pathlib.kept x = true) as H1
    by apply Hone.
  assert (T2 = [] \/ exists x, T2 = [x] /\ Pathlib.kept x = true) as H2
    by apply Hone.
  clearbody T1 T2.
  destruct (String.eqb (Pathlib.root base) ""); intros Heq; apply Hdone.
  - rewrite !(assoc_L (++)) in Heq. by eapply to_str_last.
  - by eapply to_str_last.
Qed.

(** An empty suffix is not no suffix; a trailing slash is lost. *)
Lemma create_output_directory_suffix_inj_witness :
  let create :=
    Init.create_output_directory (fun _ => false) "out" "gpt2-small" "res-jb"
      "blocks.0.hook_resid_pre" 24576 in
  create (Some "") = Ok "out/gpt2-small_res-jb_blocks.0.hook_resid_pre_24576_"
  /\ create None = Ok "out/gpt2-small_res-jb_blocks.0.hook_resid_pre_24576"
  /\ "out/gpt2-small_res-jb_blocks.0.hook_resid_pre_24576_"
     <> "out/gpt2-small_res-jb_blocks.0.hook_resid_pre_24576"
  /\ create (Some "a") = create (Some "a/").
Proof.
  intros create.
  assert (create (Some "")
          = Ok "out/gpt2-small_res-jb_blocks.0.hook_resid_pre_24576_") as H1
    by (by vm_compute).
  assert (create None
          = Ok "out/gpt2-small_res-jb_blocks.0.hook_resid_pre_24576") as H2
    by (by vm_compute).
  split; [exact H1|]. split; [exact H2|]. split; [|by vm_compute].
  apply (create_output_directory_suffix_inj _ _ _ _ _ _ _ _ _ _ H1 H2);
    [by intros []|by intros []|done].
Defined.

(** ** The planner's errors *)

(** X9: the outcomes of [get_feature_batches] for a feature count below
    [2^53].  It returns a plan exactly when there is at least one feature
    and the batch size is positive and below [d_sae * 2^1075].  A batch size
    of zero raises [ZeroDivisionError].  No feature, a negative batch size,
    or a batch size of [d_sae * 2^1075] or more (where the quotient rounds
    to the double zero) gives a section count that is not positive, and
    numpy's [array_split] raises its [ValueError]. *)
Theorem get_feature_batches_outcome (d_sae n_features_at_a_time : Z) :
  d_sae < 2 ^ 53 ->
  match get_feature_batches (get_alive_features d_sae) n_features_at_a_time with
  | Ok plan =>
      0 < d_sae /\ 0 < n_features_at_a_time < d_sae * 2 ^ 1075
  | Raise e =>
      (e = ZeroDivisionError /\ n_features_at_a_time = 0)
      \/ (e = ValueError "number sections must be larger than 0."
          /\ n_features_at_a_time <> 0
          /\ (d_sae <= 0 \/ n_features_at_a_time < 0
              \/ d_sae * 2 ^ 1075 <= n_features_at_a_time))
  end.
Proof.
  intros Hd. unfold get_feature_batches.
  assert (2 ^ 53 < 2 ^ 63) as H63 by (apply Z.pow_lt_mono_r; lia).
  rewrite torch_tensor_features by lia. cbn [rbind].
  destruct (Z.eq_dec n_features_at_a_time 0) as [->|Hk].
  { unfold Float64.true_divide. rewrite Z.eqb_refl. by left. }
  destruct (Z.le_gt_cases d_sae 0) as [Hle|Hpos].
  - assert (length (get_alive_features d_sae) = 0%nat) as ->.
    { unfold get_alive_features, range. rewrite length_seqZ. lia. }
    unfold Float64.true_divide.
    destruct (Z.eqb_spec n_features_at_a_time 0) as [?|_]; [done|].
    simpl. right. split; [done|]. split; [done|]. by left.
  - rewrite get_alive_features_length by lia.
    destruct (Z.lt_trichotomy n_features_at_a_time 0) as [Hneg|[?|Hkpos]];
      [|done|].
    + destruct (true_divide_ceil_neg d_sae n_features_at_a_time
                  ltac:(lia) Hneg) as (q & -> & Hq).
      cbn [rbind]. unfold Numpy.array_split.
      destruct (Z.leb_spec (Float64.astype_int (Float64.np_ceil q)) 0);
        [|lia].
      right. split; [done|]. split; [done|]. right. by left.
    + destruct (true_divide_ceil d_sae n_features_at_a_time
                  ltac:(lia) Hkpos) as (q & -> & Hq).
      cbn [rbind]. rewrite Hq. unfold Numpy.array_split.
      destruct (Z.leb_spec (d_sae * 2 ^ 1075) n_features_at_a_time)
        as [Hunder|Hnorm].
      * simpl. right. split; [done|]. split; [done|]. right. by right.
      * pose proof (ceil_quotient_bounds d_sae n_features_at_a_time Hkpos) as B.
        destruct (Z.leb_spec
                    ((d_sae + n_features_at_a_time - 1) / n_features_at_a_time)
                    0); [nia|].
        lia.
Qed.

(** Ten features: a plan at batch size 4, none at batch size [10 * 2^1075]. *)
Lemma get_feature_batches_outcome_witness :
  10 < 2 ^ 53
  /\ (exists plan, get_feature_batches (get_alive_features 10) 4 = Ok plan)
  /\ match get_feature_batches (get_alive_features 10) (10 * 2 ^ 1075) with
     | Ok plan => 0 < 10 /\ 0 < 10 * 2 ^ 1075 < 10 * 2 ^ 1075
     | Raise e =>
         (e = ZeroDivisionError /\ 10 * 2 ^ 1075 = 0)
         \/ (e = ValueError "number sections must be larger than 0."
             /\ 10 * 2 ^ 1075 <> 0
             /\ (10 <= 0 \/ 10 * 2 ^ 1075 < 0
                 \/ 10 * 2 ^ 1075 <= 10 * 2 ^ 1075))
     end.
Proof.
  assert (10 < 2 ^ 53) as Hd by (by vm_compute).
  split; [exact Hd|]. split.
  - generalize (get_feature_batches_outcome 10 4 Hd).
    destruct (get_feature_batches (get_alive_features 10) 4) as [plan|e];
      [by exists plan|].
    intros [[_ ?]|(_ & _ & [?|[?|?]])]; done.
  - exact (get_feature_batches_outcome 10 (10 * 2 ^ 1075) Hd).
Defined.

(** ** The splice: outcomes and content *)

(** An id outside int64 in a prefix or suffix that is put to use ends the
    splice in the error of [torch.tensor]. *)
Lemma add_prefix_suffix_overflow
    (prefix suffix : option (list Z)) (prepend_bos : bool) (tokens : Tensor2) :
  (0 < shape1 tokens)%nat ->
  0 < Z.of_nat (shape1 tokens)
      - Z.of_nat (length (default [] prefix))
      - Z.of_nat (length (default [] suffix)) ->
  ~ (Forall (fun x => - 2 ^ 63 <= x < 2 ^ 63) (default [] prefix)
     /\ Forall (fun x => - 2 ^ 63 <= x < 2 ^ 63) (default [] suffix)) ->
  exists e,
    add_prefix_suffix_to_tokens prefix suffix prepend_bos tokens = Raise e.
Proof.
  intros Hpos Hkeep Hfit. unfold add_prefix_suffix_to_tokens, column0.
  assert ((shape1 tokens =? 0)%nat = false) as -> by (apply Nat.eqb_neq; lia).
  cbn [rbind]. rewrite both_none_match.
  rewrite bool_decide_false
    by (intros [-> ->]; apply Hfit; split; constructor).
  assert (forall d : option (list Z),
            (if truthy d then length (default [] d) else 0%nat)
            = length (default [] d)) as Hlen
    by (by intros [[|??]|]).
  rewrite !Hlen. destruct (_ <=? 0) eqn:E; [lia|]. cbv zeta.
  assert (forall d : option (list Z),
            ~ Forall (fun x => - 2 ^ 63 <= x < 2 ^ 63) (default [] d) ->
            truthy d = true) as Htruthy.
  { intros [[|??]|] Hd; try done; exfalso; apply Hd; constructor. }
  destruct (decide (Forall (fun x => - 2 ^ 63 <= x < 2 ^ 63)
                      (default [] prefix))) as [Hpre|Hpre].
  - assert (~ Forall (fun x => - 2 ^ 63 <= x < 2 ^ 63) (default [] suffix))
      as Hsuf by (intros ?; by apply Hfit).
    rewrite (Htruthy suffix Hsuf), (torch_tensor_Raise _ Hsuf). cbn [rbind].
    match goal with |- exists e, rbind ?c _ = _ => destruct c end;
      eexists; done.
  - rewrite (Htruthy prefix Hpre), (torch_tensor_Raise _ Hpre). cbn [rbind].
    by eexists.
Qed.

(** X10: the outcomes of [add_prefix_suffix_to_tokens] on a rectangular
    corpus.  Sequences of length 0 raise [IndexError], with or without
    prefix and suffix (the first column is read first).  With neither prefix
    nor suffix configured the corpus comes back as it is.  Otherwise
    [keep_length <= 0] raises the [ValueError].  With [keep_length > 0], a
    prefix or suffix id outside int64 ends the splice in the error of
    [torch.tensor]; with all ids in int64 the result has the shape of the
    input when the prefix is non-empty or the encoder has no leading marker,
    and the final assertion fails in the one remaining case (leading marker,
    no non-empty prefix). *)
Theorem add_prefix_suffix_outcome
    (prefix suffix : option (list Z)) (prepend_bos : bool) (tokens : Tensor2) :
  wf tokens ->
  let keep_length :=
    Z.of_nat (shape1 tokens) - Z.of_nat (length (default [] prefix))
    - Z.of_nat (length (default [] suffix)) in
  let fits (ids : option (list Z)) :=
    Forall (fun x => - 2 ^ 63 <= x < 2 ^ 63) (default [] ids) in
  match add_prefix_suffix_to_tokens prefix suffix prepend_bos tokens with
  | Ok out =>
      (0 < shape1 tokens)%nat
      /\ ((prefix = None /\ suffix = None /\ out = tokens)
          \/ ((prefix <> None \/ suffix <> None)
              /\ 0 < keep_length
              /\ fits prefix /\ fits suffix
              /\ (truthy prefix = true \/ prepend_bos = false)
              /\ shape1 out = shape1 tokens
              /\ shape0 out = shape0 tokens
              /\ wf out))
  | Raise e =>
      (e = IndexError /\ shape1 tokens = 0%nat)
      \/ (e = ValueError "Prefix and suffix are too long for the given tokens."
          /\ (0 < shape1 tokens)%nat
          /\ (prefix <> None \/ suffix <> None)
          /\ keep_length <= 0)
      \/ ((0 < shape1 tokens)%nat
          /\ 0 < keep_length
          /\ ~ (fits prefix /\ fits suffix))
      \/ (e = AssertionError ""
          /\ (prefix <> None \/ suffix <> None)
          /\ 0 < keep_length
          /\ fits prefix /\ fits suffix
          /\ truthy prefix = false
          /\ prepend_bos = true)
  end.
Proof.
  intros Hwf keep_length fits.
  destruct (decide (shape1 tokens = 0%nat)) as [Hz|Hnz].
  { unfold add_prefix_suffix_to_tokens, column0. rewrite Hz. simpl. by left. }
  destruct (decide (prefix = None /\ suffix = None)) as [[-> ->]|Hsome].
  { unfold add_prefix_suffix_to_tokens, column0.
    assert ((shape1 tokens =? 0)%nat = false) as -> by (by apply Nat.eqb_neq).
    simpl. split; [lia|]. by left. }
  assert (prefix <> None \/ suffix <> None) as Hsome'.
  { destruct prefix; [by left|]. destruct suffix; [by right|].
    by destruct Hsome. }
  destruct (Z.le_gt_cases keep_length 0) as [Hle|Hgt].
  { rewrite add_prefix_suffix_too_long by (done || lia).
    right; left. repeat split; (done || lia). }
  destruct (decide (fits prefix /\ fits suffix)) as [[Hpre Hsuf]|Hfit].
  2:{ destruct (add_prefix_suffix_overflow prefix suffix prepend_bos tokens
                  ltac:(lia) ltac:(fold keep_length; lia) Hfit) as [e ->].
      right; right; left. split; [lia|]. by split. }
  destruct (truthy prefix) eqn:Ep; [|destruct prepend_bos].
  - destruct (add_prefix_suffix_length_preserved prefix suffix prepend_bos
                tokens Hwf ltac:(fold keep_length; lia) ltac:(by left)
                Hpre Hsuf)
      as (out & -> & ? & ? & ?).
    split; [lia|]. right. repeat split; try done. by left.
  - rewrite add_prefix_suffix_marker_dropped by (done || (fold keep_length; lia)).
    right; right; right. by repeat split.
  - destruct (add_prefix_suffix_length_preserved prefix suffix false
                tokens Hwf ltac:(fold keep_length; lia) ltac:(by right)
                Hpre Hsuf)
      as (out & -> & ? & ? & ?).
    split; [lia|]. right. repeat split; try done. by right.
Qed.

(** On the demo corpus a one-token prefix keeps the shape, leading marker
    included; the same prefix with the id [2^63] does not return. *)
Lemma add_prefix_suffix_outcome_witness :
  wf Demo.corpus
  /\ (exists out,
        add_prefix_suffix_to_tokens (Some [100]) None true Demo.corpus = Ok out
        /\ shape1 out = shape1 Demo.corpus
        /\ shape0 out = shape0 Demo.corpus)
  /\ exists e,
       add_prefix_suffix_to_tokens (Some [2 ^ 63]) None true Demo.corpus
       = Raise e.
Proof.
  assert (wf Demo.corpus) as Hwf by (repeat constructor).
  split; [exact Hwf|]. split.
  - generalize (add_prefix_suffix_outcome (Some [100]) None true Demo.corpus
                  Hwf).
    cbv zeta.
    destruct (add_prefix_suffix_to_tokens (Some [100]) None true Demo.corpus)
      as [out|e].
    + intros (_ & [(? & _)|(_ & _ & _ & _ & _ & ? & ? & _)]); [done|].
      by exists out.
    + intros [(_ & ?)|[(_ & _ & _ & Hk)|[(_ & _ & Hf)|(_ & _ & _ & _ & _ & ? & _)]]];
        [done| | |done]; exfalso.
      * revert Hk. by vm_compute.
      * apply Hf. split; repeat constructor; by vm_compute.
  - by eexists.
Defined.

Lemma cat1_rows (a b : Tensor2) :
  shape0 a = shape0 b ->
  cat1 a b = Ok {| shape1 := shape1 a + shape1 b;
                   rows := zip_with app (rows a) (rows b) |}.
Proof. intros Hab. unfold cat1. by rewrite Hab, Nat.eqb_refl. Qed.

Lemma zip_with_fmap_same {A B C D} (f : B -> C -> D) (g : A -> B) (h : A -> C)
    (l : list A) :
  zip_with f (g <$> l) (h <$> l) = (fun x => f (g x) (h x)) <$> l.
Proof. induction l as [|x l IH]; [done|]. csimpl. by f_equal. Qed.

Lemma replicate_as_fmap {A B} (l : list A) (v : B) :
  replicate (length l) v = (fun _ => v) <$> l.
Proof. induction l as [|x l IH]; [done|]. csimpl. by f_equal. Qed.

Local Ltac rows_as_map :=
  unfold shape0, unsqueeze1, repeat_row, slice_cols; cbn [rows shape1];
  repeat first
    [ rewrite length_fmap
    | rewrite replicate_as_fmap
    | rewrite zip_with_fmap_same
    | rewrite <- list_fmap_compose ].

(** X11: what the splice puts in each row.  Whenever
    [add_prefix_suffix_to_tokens] returns with a prefix or a suffix
    configured, every sequence of the result is: the sequence's own first
    token when the encoder has a leading marker, then the prefix, then the
    leading [keep_length - prepend_bos] tokens of the sequence, then the
    suffix.  The rows stay in corpus order, and it is the tail of each
    sequence that is dropped. *)
Theorem add_prefix_suffix_rows
    (prefix suffix : option (list Z)) (prepend_bos : bool)
    (tokens out : Tensor2) :
  wf tokens ->
  prefix <> None \/ suffix <> None ->
  add_prefix_suffix_to_tokens prefix suffix prepend_bos tokens = Ok out ->
  let p := default [] prefix in
  let s := default [] suffix in
  let kept :=
    Z.to_nat (Z.of_nat (shape1 tokens) - Z.of_nat (length p)
              - Z.of_nat (length s) - Z.b2z prepend_bos) in
  rows out
  = (fun row =>
       (if prepend_bos then take 1 row else []) ++ p ++ take kept row ++ s)
    <$> rows tokens.
Proof.
  intros Hwf Hsome Hok p s kept. pose proof Hok as Hok0.
  unfold add_prefix_suffix_to_tokens, column0 in Hok.
  destruct (shape1 tokens =? 0)%nat eqn:Hcol; [done|].
  apply Nat.eqb_neq in Hcol. cbn [rbind] in Hok.
  rewrite both_none_match, bool_decide_false in Hok
    by (intros [-> ->]; by destruct Hsome).
  assert (forall d : option (list Z),
            (if truthy d then length (default [] d) else 0%nat)
            = length (default [] d)) as Hlen
    by (by intros [[|??]|]).
  rewrite !Hlen in Hok. fold p s in Hok.
  destruct (Z.leb_spec (Z.of_nat (shape1 tokens) - Z.of_nat (length p)
                        - Z.of_nat (length s)) 0) as [|Hkeep]; [done|].
  cbv zeta in Hok.
  assert (Forall (fun x => - 2 ^ 63 <= x < 2 ^ 63) p
          /\ Forall (fun x => - 2 ^ 63 <= x < 2 ^ 63) s) as [Hpre Hsuf].
  { destruct (decide (Forall (fun x => - 2 ^ 63 <= x < 2 ^ 63) p
                      /\ Forall (fun x => - 2 ^ 63 <= x < 2 ^ 63) s))
      as [?|Hfit]; [done|].
    destruct (add_prefix_suffix_overflow prefix suffix prepend_bos tokens
                ltac:(lia) Hkeep Hfit) as [e He].
    by rewrite He in Hok0. }
  assert (truthy prefix = true \/ prepend_bos = false) as Hcase.
  { destruct (truthy prefix) eqn:Ep; [by left|].
    destruct prepend_bos; [|by right].
    by rewrite add_prefix_suffix_marker_dropped in Hok0. }
  clear Hok0.
  rewrite !torch_tensor_Ok in Hok by done. cbn [rbind] in Hok.
  assert (forall row : list Z,
            slice_to (Z.of_nat (shape1 tokens) - Z.of_nat (length p)
                      - Z.of_nat (length s) - Z.b2z prepend_bos) row
            = take kept row) as Hslice.
  { intros row. unfold slice_to.
    destruct (Z.ltb_spec (Z.of_nat (shape1 tokens) - Z.of_nat (length p)
                          - Z.of_nat (length s) - Z.b2z prepend_bos) 0);
      [destruct prepend_bos; simpl in *; lia|done]. }
  assert (Forall (fun row : list Z => take 1 row = [default 0 (head row)])
            (rows tokens)) as Hhead.
  { eapply Forall_impl; [exact Hwf|]. intros [|x row] Hrow; simpl in *;
      [lia|done]. }
  assert (truthy prefix = false -> p = []) as Hp0
    by (subst p; by destruct prefix as [[|??]|]).
  assert (truthy suffix = false -> s = []) as Hs0
    by (subst s; by destruct suffix as [[|??]|]).
  destruct (truthy prefix) eqn:Ep, prepend_bos, (truthy suffix) eqn:Es;
    try (by destruct Hcase);
    cbn [rbind] in Hok;
    repeat (rewrite cat1_rows in Hok by (rows_as_map; done);
            cbn [rbind] in Hok);
    (destruct (_ =? _)%nat in Hok; [|done]);
    injection Hok as <-; rows_as_map;
    apply Forall_fmap_ext;
    (eapply Forall_impl; [exact Hhead|]); intros row Hrow; cbn beta;
    rewrite ?Hslice, ?Hrow, ?Hp0, ?Hs0 by done;
    simpl; by rewrite <- ?(assoc_L (++)), ?app_nil_r.
Qed.

Lemma add_prefix_suffix_rows_witness :
  wf Demo.corpus
  /\ exists out,
       add_prefix_suffix_to_tokens (Some [100]) (Some [7]) true Demo.corpus
       = Ok out
       /\ rows out
          = (fun row => take 1 row ++ [100] ++ take 1 row ++ [7])
            <$> rows Demo.corpus.
Proof.
  assert (wf Demo.corpus) as Hwf by (repeat constructor).
  split; [exact Hwf|]. eexists. split; [reflexivity|].
  apply (add_prefix_suffix_rows (Some [100]) (Some [7]) true Demo.corpus _ Hwf);
    [by left|reflexivity].
Defined.


(** ** The vocabulary table in general *)

Lemma fix_anomalies_clean_witness :
  (0x120 ∈ [0x120; 0x10a; 0x109])%N
  /\ (0x120 ∈ [0x120; 0x62; 0x10a])%N
  /\ (0x120 ∉ fix_anomalies [0x120; 0x62; 0x10a])%N.
Proof.
  assert (0x120 ∈ [0x120; 0x10a; 0x109])%N as Hc by left.
  split; [exact Hc|]. split; [left|].
  exact (fix_anomalies_clean [0x120; 0x62; 0x10a]%N 0x120%N Hc).
Defined.

Lemma replace_absent_head (s old new : str) (a : N) :
  a ∉ s -> replace s (a :: old) new = s.
Proof.
  unfold replace. induction s as [|x s IH]; intros Ha; [done|].
  apply not_elem_of_cons in Ha as [Hne Ha].
  cbn [replace_go startswith].
  assert ((a =? x)%N = false) as -> by (by apply N.eqb_neq).
  cbn [andb]. by rewrite IH.
Qed.

(** X14: a token string that holds none of the code points U+00E2, U+0120,
    U+010A and U+0109, the first code points of the nine anomalies, goes
    through the substitutions of [get_vocab_dict] unchanged. *)
Theorem fix_anomalies_plain (k : str) :
  Forall (fun c => c ∉ [0xe2; 0x120; 0x10a; 0x109]%N) k ->
  fix_anomalies k = k.
Proof.
  intros Hk.
  assert (forall a : N, a ∈ [0xe2; 0x120; 0x10a; 0x109]%N -> a ∉ k) as Habs.
  { intros a Ha Hin. by apply (proj1 (Forall_forall _ _) Hk a Hin). }
  unfold fix_anomalies, HTML_ANOMALIES. cbn [foldl].
  repeat (rewrite (replace_absent_head k)
            by (apply Habs; repeat first [ by left | right ])).
  done.
Qed.

Lemma fix_anomalies_plain_witness :
  Forall (fun c => c ∉ [0xe2; 0x120; 0x10a; 0x109]%N) (str_of_ascii "the")
  /\ fix_anomalies (str_of_ascii "the") = str_of_ascii "the".
Proof.
  assert (Forall (fun c => c ∉ [0xe2; 0x120; 0x10a; 0x109]%N)
            (str_of_ascii "the")) as Hk.
  { repeat constructor;
      intros Hin; repeat (apply elem_of_cons in Hin as [Hin|Hin]; [done|]);
      by inversion Hin. }
  split; [exact Hk|]. exact (fix_anomalies_plain _ Hk).
Defined.

(** X12: the table [get_vocab_dict] builds, for any raw vocabulary and any
    [d_vocab].  With [n] the number of distinct ids of the raw vocabulary,
    the padding loop writes the sentinel at every id of [[n, d_vocab)],
    whether or not the id had an entry.  Outside that range an id has an
    entry exactly when the raw vocabulary has it, and when several token
    strings carry one id the last one in iteration order wins.  A raw
    vocabulary with [d_vocab] distinct ids or more is not padded and not
    cut. *)
Theorem get_vocab_dict_entries (vocab : list (str * Z)) (d_vocab : Z) :
  let table := get_vocab_dict vocab d_vocab in
  let n := Z.of_nat (size (list_to_set vocab.*2 : gset Z)) in
  (forall i, n <= i < d_vocab -> table !! i = Some OUT_OF_RANGE_TOKEN)
  /\ (forall i, ~ n <= i < d_vocab -> i ∉ vocab.*2 -> table !! i = None)
  /\ (forall before k v after,
        vocab = before ++ (k, v) :: after -> v ∉ after.*2 ->
        ~ n <= v < d_vocab ->
        table !! v = Some (fix_anomalies k))
  /\ (d_vocab <= n -> table = invert_vocab vocab).
Proof.
  intros table n.
  assert (Z.of_nat (size (invert_vocab vocab)) = n) as Hsize.
  { unfold n, invert_vocab.
    by rewrite <- size_dom, invert_fold_dom, dom_empty_L, (left_id_L ∅ (∪)). }
  assert (forall i, table !! i
            = if decide (n <= i < d_vocab) then Some OUT_OF_RANGE_TOKEN
              else invert_vocab vocab !! i) as Hlook.
  { intros i. unfold table. by rewrite get_vocab_dict_lookup, Hsize. }
  split; [|split; [|split]].
  - intros i Hi. rewrite Hlook. by rewrite decide_True.
  - intros i Hi Hnot. rewrite Hlook, decide_False by done.
    unfold invert_vocab. by rewrite invert_fold_lookup_notin.
  - intros before k v after -> Hlast Hv. rewrite Hlook, decide_False by done.
    unfold invert_vocab. rewrite foldl_app. cbn [foldl].
    rewrite invert_fold_lookup_notin by done. by rewrite lookup_insert_eq.
  - intros Hd. apply map_eq. intros i. rewrite Hlook.
    rewrite decide_False; [done|lia].
Qed.

(** ** The corpus: edge cases, order and the saved file *)

Section CorpusFurther.

Context `{Collaborators}.

(** X15: a target below one draw.  With a positive draw size and
    [n_prompts] smaller than it, [n_prompts // batch_size] is not positive,
    the loop body never runs and [torch.cat] is handed an empty list:
    [generate_tokens] raises its [RuntimeError] with the stream unread and
    the world as it was. *)
Theorem generate_tokens_below_one_batch (shuffle : bool) (n_prompts : Z) w :
  0 < store_batch_size_prompts (activations_store w) ->
  n_prompts < store_batch_size_prompts (activations_store w) ->
  generate_tokens shuffle n_prompts w
  = (Raise (RuntimeError "torch.cat(): expected a non-empty list of Tensors"),
     w).
Proof.
  intros Hbs Hn. rewrite generate_tokens_unfold by lia.
  assert (Z.to_nat (n_prompts / store_batch_size_prompts (activations_store w))
          = 0%nat) as ->; [|done].
  cut (n_prompts / store_batch_size_prompts (activations_store w) < 1); [lia|].
  apply Z.div_lt_upper_bound; lia.
Qed.

Lemma foldl_keep_unique_sublist (l : list (list Z)) : forall acc,
  exists l', (foldl keep_unique acc l).1 = acc.1 ++ l' /\ l' `sublist_of` l.
Proof.
  induction l as [|x l IH]; intros [kept seen]; cbn [foldl].
  - exists []. by rewrite app_nil_r.
  - unfold keep_unique at 2, hash_tensor. case_decide.
    + destruct (IH (kept, seen)) as (l' & -> & Hsub).
      exists l'. split; [done|]. by apply sublist_cons.
    + destruct (IH (kept ++ [x], {[x]} ∪ seen)) as (l' & -> & Hsub).
      exists (x :: l'). cbn [fst]. rewrite <- (assoc_L (++)).
      split; [done|]. by apply sublist_skip.
Qed.

Lemma generate_loop_order (n : Z) (iters : nat) : forall acc w l w',
  generate_loop false n iters acc w = (Ok l, w') ->
  exists l',
    l = acc.1 ++ l'
    /\ l' `sublist_of` drawn (pending (activations_store w))
    /\ generator w' = generator w.
Proof.
  induction iters as [|iters IH]; intros acc w l w' Hloop.
  - injection Hloop as <- <-. exists []. rewrite app_nil_r.
    split; [done|]. split; [apply sublist_nil_l|done].
  - rewrite generate_loop_S in Hloop. unfold get_batch_tokens in Hloop.
    destruct (pending (activations_store w)) as [|b rest] eqn:Hp; [done|].
    unfold shuffled, ret in Hloop. cbv zeta in Hloop.
    destruct (foldl_keep_unique_sublist (rows b) acc) as (l1 & Hl1 & Hsub1).
    unfold drawn. cbn [fmap list_fmap concat].
    destruct (_ <=? _).
    + injection Hloop as <- <-. exists l1. split; [done|].
      split; [by apply sublist_inserts_r|done].
    + apply IH in Hloop as (l2 & -> & Hsub2 & Hgen). cbn in Hsub2, Hgen.
      exists (l1 ++ l2). rewrite Hl1, <- (assoc_L (++)). split; [done|].
      split; [by apply sublist_app|done].
Qed.

(** X16: without shuffling the corpus keeps the draw order: its sequences
    are a subsequence of the stream as it stood, and the random generator
    is not used. *)
Theorem generate_tokens_draw_order (n_prompts : Z) w tokens w' :
  generate_tokens false n_prompts w = (Ok tokens, w') ->
  rows tokens `sublist_of` drawn (pending (activations_store w))
  /\ generator w' = generator w.
Proof.
  intros Hgen.
  destruct (decide (store_batch_size_prompts (activations_store w) = 0))
    as [Hz|Hbs].
  { unfold generate_tokens in Hgen. by rewrite Hz in Hgen. }
  rewrite generate_tokens_unfold in Hgen by done.
  destruct (generate_loop _ _ _ _ w) as [[l|e] w1] eqn:Hloop; [|done].
  destruct (cat0 l) as [a|e] eqn:Ecat; [|done].
  injection Hgen as <- <-.
  apply generate_loop_order in Hloop as (l' & -> & Hsub & Hg).
  apply cat0_Ok in Ecat as (Hrows & _ & _).
  split; [|done]. cbn [slice_rows rows]. rewrite Hrows.
  etrans; [apply slice_to_sublist|done].
Qed.

Lemma generate_tokens_NoDup shuffle n w tokens w' :
  generate_tokens shuffle n w = (Ok tokens, w') -> NoDup (rows tokens).
Proof.
  intros Hgen.
  destruct (decide (store_batch_size_prompts (activations_store w) = 0))
    as [Hz|Hbs].
  { unfold generate_tokens in Hgen. by rewrite Hz in Hgen. }
  destruct (generate_tokens_Ok _ _ _ _ _ Hbs Hgen)
    as (l & w1 & a & Hloop & _ & Hperm & _).
  destruct (generate_loop_spec shuffle n
              (Z.to_nat (n / store_batch_size_prompts (activations_store w)))
              ([], ∅) w) as (pulled & rest & _ & _ & _ & Hres).
  { split; [constructor|done]. }
  rewrite Hloop in Hres. destruct Hres as (_ & _ & Hnd & _).
  rewrite Hperm. eapply sublist_NoDup; [done|apply slice_to_sublist].
Qed.

Lemma generate_tokens_errors shuffle n w e w' :
  generate_tokens shuffle n w = (Raise e, w') ->
  e = ZeroDivisionError \/ e = StopIteration \/ exists msg, e = RuntimeError msg.
Proof.
  intros Hgen.
  destruct (decide (store_batch_size_prompts (activations_store w) = 0))
    as [Hz|Hbs].
  { unfold generate_tokens in Hgen. rewrite Hz in Hgen.
    injection Hgen as <- _. by left. }
  rewrite generate_tokens_unfold in Hgen by done.
  destruct (generate_loop_spec shuffle n
              (Z.to_nat (n / store_batch_size_prompts (activations_store w)))
              ([], ∅) w) as (pulled & rest & _ & _ & _ & Hres).
  { split; [constructor|done]. }
  destruct (generate_loop _ _ _ _ w) as [[l|e0] w1].
  - destruct (cat0 l) as [a|e0] eqn:Ecat.
    + destruct (shuffled_spec shuffle (slice_rows n a) w1)
        as (t' & w2 & Hs & _). by rewrite Hs in Hgen.
    + injection Hgen as <- _. right; right.
      by destruct (cat0_Raise _ _ Ecat) as [? _].
  - injection Hgen as <- _. destruct Hres as (-> & _). right; by left.
Qed.

(** A corpus file that is there is loaded, and checked, without a draw. *)
Lemma get_tokens_load c w tokens :
  fs w !! tokens_path c = Some (TokensPt tokens) ->
  get_tokens c w
  = (if has_duplicate_rows tokens
     then Raise (AssertionError "Duplicate rows in tokens")
     else Ok tokens, w).
Proof.
  intros Hfile. unfold get_tokens. unfold bind at 1, isfile.
  rewrite bool_decide_true by (by rewrite Hfile).
  unfold bind, torch_load. rewrite Hfile.
  unfold raise, ret. by destruct (has_duplicate_rows tokens).
Qed.

Lemma get_tokens_Ok_file c w tokens w1 :
  get_tokens c w = (Ok tokens, w1) ->
  fs w1 !! tokens_path c = Some (TokensPt tokens)
  /\ has_duplicate_rows tokens = false.
Proof.
  unfold get_tokens. unfold bind at 1, isfile.
  case_bool_decide as Hex.
  - unfold bind, torch_load.
    destruct (fs w !! tokens_path c) as [[?|? ? ? ? ?|t|?]|] eqn:Hfile;
      try done.
    unfold raise, ret. destruct (has_duplicate_rows t) eqn:Hdup; [done|].
    by intros [= <- <-].
  - unfold bind at 1 2.
    destruct (generate_tokens _ _ w) as [[t|e] w0]; [|done].
    unfold bind, write_file, ret, raise; simpl.
    destruct (has_duplicate_rows t) eqn:Hdup; [done|].
    intros [= <- <-]. simpl. by rewrite lookup_insert_eq.
Qed.

(** X17: the saved corpus round-trips.  When [get_tokens] returns a corpus,
    the file at the corpus path holds exactly that corpus, and calling
    [get_tokens] again in the world it left returns the same corpus and
    leaves that world as it is: nothing is drawn or written a second
    time. *)
Theorem get_tokens_round_trip c w tokens w1 :
  get_tokens c w = (Ok tokens, w1) ->
  fs w1 !! tokens_path c = Some (TokensPt tokens)
  /\ get_tokens c w1 = (Ok tokens, w1).
Proof.
  intros [Hfile Hdup]%get_tokens_Ok_file. split; [done|].
  by rewrite (get_tokens_load _ _ _ Hfile), Hdup.
Qed.

(** X18: the duplicate check of [get_tokens] can only fail on a corpus that
    was loaded.  When no corpus file exists, [get_tokens] never ends in an
    [AssertionError]: a corpus [generate_tokens] has just built has no
    repeated sequence, and [generate_tokens] itself raises other errors. *)
Theorem get_tokens_fresh_never_asserts c w :
  fs w !! tokens_path c = None ->
  forall msg, (get_tokens c w).1 <> Raise (AssertionError msg).
Proof.
  intros Hnone msg. unfold get_tokens. unfold bind at 1, isfile.
  rewrite bool_decide_false by (rewrite Hnone; by intros [? ?]).
  unfold bind at 1 2.
  destruct (generate_tokens _ _ w) as [[t|e] w0] eqn:Hgen.
  - apply generate_tokens_NoDup in Hgen.
    unfold bind, write_file, ret, raise; simpl.
    unfold has_duplicate_rows. by rewrite bool_decide_true.
  - simpl. apply generate_tokens_errors in Hgen as [->|[->|[m ->]]]; done.
Qed.

End CorpusFurther.

(** A target of 3 with draws of 4. *)
Lemma generate_tokens_below_one_batch_witness :
  0 < store_batch_size_prompts (activations_store (Demo.world ∅))
  /\ 3 < store_batch_size_prompts (activations_store (Demo.world ∅))
  /\ generate_tokens (H := Demo.collaborators) true 3 (Demo.world ∅)
     = (Raise (RuntimeError "torch.cat(): expected a non-empty list of Tensors"),
        Demo.world ∅).
Proof.
  assert (0 < store_batch_size_prompts (activations_store (Demo.world ∅)))
    as Hbs by (simpl; lia).
  assert (3 < store_batch_size_prompts (activations_store (Demo.world ∅)))
    as Hn by (simpl; lia).
  split; [exact Hbs|]. split; [exact Hn|].
  exact (generate_tokens_below_one_batch (H := Demo.collaborators) true 3
           (Demo.world ∅) Hbs Hn).
Defined.

(** The stream with repeats, read in order. *)
Lemma generate_tokens_draw_order_witness :
  exists tokens w',
    generate_tokens (H := Demo.collaborators) false 8 (Demo.world ∅)
    = (Ok tokens, w')
    /\ rows tokens `sublist_of` drawn Demo.stream
    /\ generator w' = generator (Demo.world ∅).
Proof.
  eexists _, _.
  assert (generate_tokens (H := Demo.collaborators) false 8 (Demo.world ∅)
          = (Ok _, _)) as Hrun by (vm_compute; reflexivity).
  split; [exact Hrun|].
  exact (generate_tokens_draw_order (H := Demo.collaborators) 8
           (Demo.world ∅) _ _ Hrun).
Defined.

Lemma get_tokens_round_trip_witness :
  exists tokens w1,
    get_tokens (H := Demo.collaborators) Demo.config (Demo.world ∅)
    = (Ok tokens, w1)
    /\ fs w1 !! tokens_path Demo.config = Some (TokensPt tokens)
    /\ get_tokens (H := Demo.collaborators) Demo.config w1 = (Ok tokens, w1).
Proof.
  eexists _, _.
  assert (get_tokens (H := Demo.collaborators) Demo.config (Demo.world ∅)
          = (Ok _, _)) as Hrun by (vm_compute; reflexivity).
  split; [exact Hrun|].
  exact (get_tokens_round_trip (H := Demo.collaborators) Demo.config
           (Demo.world ∅) _ _ Hrun).
Defined.

Lemma get_tokens_fresh_never_asserts_witness :
  fs (Demo.world ∅) !! tokens_path Demo.config = None
  /\ forall msg,
       (get_tokens (H := Demo.collaborators) Demo.config (Demo.world ∅)).1
       <> Raise (AssertionError msg).
Proof.
  assert (fs (Demo.world ∅) !! tokens_path Demo.config = None) as Hnone
    by reflexivity.
  split; [exact Hnone|].
  exact (get_tokens_fresh_never_asserts (H := Demo.collaborators) Demo.config
           (Demo.world ∅) Hnone).
Defined.

(** ** The files of an output directory *)

Lemma skipped_path_not_tokens c : skipped_indexes_path c <> tokens_path c.
Proof.
  unfold skipped_indexes_path, tokens_path. intros Heq.
  apply (inj (String.app (outputs_dir c))) in Heq. discriminate.
Qed.

(** X19: no two artifacts of one output directory share a path.  The batch
    artifacts of different ordinals have different paths, corpus files of
    different [n_prompts_total] have different paths, and the run settings,
    the skipped-feature record, the corpus file and the batch artifacts are
    pairwise apart. *)
Theorem output_paths_distinct (c : NeuronpediaRunnerConfig) :
  (forall i j : nat, batch_path c i = batch_path c j -> i = j)
  /\ (forall c', outputs_dir c' = outputs_dir c ->
        tokens_path c' = tokens_path c ->
        n_prompts_total c' = n_prompts_total c)
  /\ (forall i, run_settings_path c <> batch_path c i)
  /\ (forall i, skipped_indexes_path c <> batch_path c i)
  /\ (forall i, tokens_path c <> batch_path c i)
  /\ run_settings_path c <> skipped_indexes_path c
  /\ run_settings_path c <> tokens_path c
  /\ skipped_indexes_path c <> tokens_path c.
Proof.
  split; [apply batch_path_inj|]. split.
  { intros c' Hdir. unfold tokens_path. rewrite Hdir. intros Heq.
    apply (inj (String.app (outputs_dir c))) in Heq.
    apply (inj (String.app "/tokens_")) in Heq.
    apply string_app_inj_r in Heq. by apply (inj pretty). }
  split; [apply run_settings_path_not_batch|].
  split; [apply skipped_path_not_batch|].
  split; [apply tokens_path_not_batch|].
  split; [apply run_settings_path_not_skipped|].
  split; [apply run_settings_path_not_tokens|].
  apply skipped_path_not_tokens.
Qed.

(** ** The batch loop: what the artifacts hold, and failure *)

Section BatchFurther.

Context `{Collaborators}.

Implicit Types (r : NeuronpediaRunner) (w : World) (tokens : Tensor2).

Lemma enumerate_lookup {A} (l : list A) (i : nat) (x : A) :
  l !! i = Some x -> (i, x) ∈ enumerate l.
Proof.
  intros Hi. apply list_elem_of_lookup. exists i.
  unfold enumerate. rewrite lookup_zip_with.
  rewrite lookup_seq_lt by (by eapply lookup_lt_Some).
  simpl. by rewrite Hi.
Qed.

Lemma batch_loop_keeps r tokens batches w p content :
  NoDup batches.*1 ->
  fs w !! p = Some content ->
  fs (batch_loop r tokens batches w).2 !! p = Some content.
Proof.
  intros Hnd.
  destruct (batch_loop_spec r tokens batches w Hnd)
    as (ran & _ & _ & _ & _ & Hkeep & _).
  apply Hkeep.
Qed.

Lemma to_run_after r (files files' : gmap string Content) (b : nat * list Z) :
  (forall p content, files !! p = Some content -> files' !! p = Some content) ->
  to_run (cfg r) files b = false -> to_run (cfg r) files' b = false.
Proof.
  unfold to_run. intros Hkeep [Hb|Hex]%andb_false_iff.
  - by rewrite Hb.
  - apply bool_decide_eq_false in Hex.
    destruct (files !! batch_path (cfg r) b.1) as [content|] eqn:Hf; [|done].
    rewrite (bool_decide_eq_false_2 _); [apply andb_false_r|].
    by rewrite (Hkeep _ _ Hf).
Qed.

(** The loop over any list of numbered batches: what a normal end and a
    failure leave behind. *)
Lemma batch_loop_trace r tokens batches : forall w,
  NoDup batches.*1 ->
  match batch_loop r tokens batches w with
  | (Ok _, w1) =>
      forall b, b ∈ List.filter (to_run (cfg r) (fs w)) batches ->
        exists feature_data json_object,
          SaeVisRunner_run b.2 tokens = Ok feature_data
          /\ convert_to_np_json feature_data (vocab_dict r) = Ok json_object
          /\ fs w1 !! batch_path (cfg r) b.1 = Some (BatchJson json_object)
  | (Raise e, w1) =>
      exists finished failed rest,
        List.filter (to_run (cfg r) (fs w)) batches
        = finished ++ failed :: rest
        /\ extraction_calls w1
           = extraction_calls w ++ (finished ++ [failed]).*2
        /\ (SaeVisRunner_run failed.2 tokens = Raise e
            \/ exists feature_data,
                 SaeVisRunner_run failed.2 tokens = Ok feature_data
                 /\ convert_to_np_json feature_data (vocab_dict r) = Raise e)
        /\ List.filter (to_run (cfg r) (fs w1)) batches = failed :: rest
  end.
Proof.
  induction batches as [|[i features] batches IH]; intros w Hnd.
  { simpl. intros b Hb. by inversion Hb. }
  simpl in Hnd. apply NoDup_cons in Hnd as [Hi Hnd].
  rewrite batch_loop_cons. cbn [List.filter].
  destruct (to_run (cfg r) (fs w) (i, features)) eqn:Erun.
  - rewrite (run_batch_runs _ _ _ _ _ Erun).
    destruct (SaeVisRunner_run features tokens) as [fd|e] eqn:Eextract.
    2:{ exists [], (i, features), (List.filter (to_run (cfg r) (fs w)) batches).
        cbn [fs List.filter]. rewrite Erun. repeat split; try done. by left. }
    destruct (convert_to_np_json fd (vocab_dict r)) as [json|e] eqn:Ejson.
    2:{ exists [], (i, features), (List.filter (to_run (cfg r) (fs w)) batches).
        cbn [fs List.filter]. rewrite Erun. repeat split; try done.
        right. by exists fd. }
    set (w1 := {| fs := <[batch_path (cfg r) i := BatchJson json]> (fs w);
                  activations_store := activations_store w;
                  generator := generator w;
                  extraction_calls := extraction_calls w ++ [features] |}).
    assert (List.filter (to_run (cfg r) (fs w1)) batches
            = List.filter (to_run (cfg r) (fs w)) batches) as Hsame.
    { apply List.filter_ext_in. intros [j g] Hj%list_elem_of_In.
      unfold to_run, w1; simpl. f_equal. f_equal.
      rewrite lookup_insert_ne; [done|].
      intros Heq%batch_path_inj. subst j. apply Hi.
      apply list_elem_of_fmap. by exists (i, g). }
    assert (fs (batch_loop r tokens batches w1).2 !! batch_path (cfg r) i
            = Some (BatchJson json)) as Hart.
    { apply batch_loop_keeps; [done|]. unfold w1; simpl.
      by rewrite lookup_insert_eq. }
    specialize (IH w1 Hnd). rewrite Hsame in IH.
    destruct (batch_loop r tokens batches w1) as [[u|e] w2]; simpl in Hart.
    + intros b [->|Hb]%elem_of_cons; [|by apply IH].
      by exists fd, json.
    + destruct IH as (finished & failed & rest & Hfilter & Hcalls & Hwhy & Hnext).
      exists ((i, features) :: finished), failed, rest.
      split; [simpl; by rewrite Hfilter|].
      split; [rewrite Hcalls; unfold w1; simpl; by rewrite <- app_assoc|].
      split; [done|].
      assert (to_run (cfg r) (fs w2) (i, features) = false) as ->; [|done].
      unfold to_run. simpl. rewrite Hart. apply andb_false_r.
  - assert (run_batch r tokens i features w = (Ok tt, w)) as ->.
    { destruct (to_run_false r w (i, features) Erun) as [?|?];
        [by apply run_batch_out_of_bounds|by apply run_batch_artifact_exists]. }
    specialize (IH w Hnd).
    assert (to_run (cfg r) (fs (batch_loop r tokens batches w).2) (i, features)
            = false) as Hstill.
    { eapply to_run_after; [|exact Erun]. intros p content.
      by apply batch_loop_keeps. }
    destruct (batch_loop r tokens batches w) as [[u|e] w2]; simpl in Hstill;
      [done|].
    by rewrite Hstill.
Qed.

(** X20: what the artifacts hold.  When the batch loop ends normally, every
    batch of the plan that was within the bounds and had no artifact now has
    one, and it holds the serialization, with the runner's vocabulary table,
    of what the extraction engine returned for that batch's features on the
    tokens of the run. *)
Theorem batch_loop_artifacts r tokens plan w w1 :
  batch_loop r tokens (enumerate plan) w = (Ok tt, w1) ->
  forall (i : nat) features,
    plan !! i = Some features ->
    in_bounds (cfg r) i = true ->
    fs w !! batch_path (cfg r) i = None ->
    exists feature_data json_object,
      SaeVisRunner_run features tokens = Ok feature_data
      /\ convert_to_np_json feature_data (vocab_dict r) = Ok json_object
      /\ fs w1 !! batch_path (cfg r) i = Some (BatchJson json_object).
Proof.
  intros Hloop i features Hi Hb Hnone.
  pose proof (batch_loop_trace r tokens (enumerate plan) w (enumerate_NoDup plan))
    as Htrace.
  rewrite Hloop in Htrace.
  apply (Htrace (i, features)).
  apply list_elem_of_In, List.filter_In.
  split; [by apply list_elem_of_In, enumerate_lookup|].
  unfold to_run. simpl. rewrite Hb. simpl. by apply bool_decide_eq_true.
Qed.


End BatchFurther.

(** The second batch of three, in an empty directory. *)
Lemma batch_loop_artifacts_witness :
  let r := Demo.runner Demo.config in
  exists w1,
    batch_loop (H := Demo.collaborators) r Demo.corpus
      (enumerate [[0; 1]; [2; 3]; [4; 5]]) (Demo.world ∅) = (Ok tt, w1)
    /\ exists feature_data json_object,
         SaeVisRunner_run (Collaborators := Demo.collaborators) [2; 3]
           Demo.corpus = Ok feature_data
         /\ convert_to_np_json (Collaborators := Demo.collaborators)
              feature_data (vocab_dict r) = Ok json_object
         /\ fs w1 !! batch_path (cfg r) 1 = Some (BatchJson json_object).
Proof.
  intros r. eexists.
  assert (batch_loop (H := Demo.collaborators) r Demo.corpus
            (enumerate [[0; 1]; [2; 3]; [4; 5]]) (Demo.world ∅)
          = (Ok tt, _)) as Hrun by (vm_compute; reflexivity).
  split; [exact Hrun|].
  apply (batch_loop_artifacts (H := Demo.collaborators) r Demo.corpus
           [[0; 1]; [2; 3]; [4; 5]] (Demo.world ∅) _ Hrun 1%nat [2; 3]);
    reflexivity.
Defined.


(** ** The run as a whole: what every run leaves, and running again *)

Section RunFurther.

Context `{Collaborators}.

Implicit Types (r : NeuronpediaRunner) (w : World) (tokens : Tensor2).

Lemma write_file_same p content w :
  fs w !! p = Some content -> (write_file p content w).2 = w.
Proof.
  intros Hp. unfold write_file. simpl. rewrite (insert_id _ _ _ Hp).
  by destruct w.
Qed.

Lemma no_skipped_indexes (n_features : Z) :
  elements (list_to_set (range n_features)
            ∖ list_to_set (get_alive_features n_features) : gset Z) = [].
Proof.
  unfold get_alive_features. by rewrite difference_diag_L, elements_empty.
Qed.

Lemma get_tokens_existing c w :
  is_Some (fs w !! tokens_path c) -> (get_tokens c w).2 = w.
Proof.
  intros Hex. unfold get_tokens. unfold bind at 1, isfile.
  rewrite bool_decide_true by done.
  unfold bind, torch_load.
  destruct (fs w !! tokens_path c) as [[?|? ? ? ? ?|t|?]|]; try done.
  unfold raise, ret. by destruct (has_duplicate_rows t).
Qed.

(** A loop that has run to its end has left no batch with work to do. *)
Lemma batch_loop_done r tokens batches w w1 :
  NoDup batches.*1 ->
  batch_loop r tokens batches w = (Ok tt, w1) ->
  forall b, b ∈ batches -> to_run (cfg r) (fs w1) b = false.
Proof.
  intros Hnd Hrun b Hb.
  destruct (batch_loop_spec r tokens batches w Hnd)
    as (ran & _ & _ & _ & _ & Hkeep & _ & Hres).
  rewrite Hrun in Hkeep, Hres. simpl in Hkeep, Hres. destruct Hres as [-> Hart].
  unfold to_run. destruct (in_bounds (cfg r) b.1) eqn:Eb; [|done]. simpl.
  apply bool_decide_eq_false.
  destruct (fs w !! batch_path (cfg r) b.1) as [c|] eqn:Ew.
  - by rewrite (Hkeep _ _ Ew).
  - destruct (Hart b) as [json ->]; [|done].
    apply list_elem_of_In, List.filter_In. split; [by apply list_elem_of_In|].
    unfold to_run. rewrite Eb. simpl. by apply bool_decide_eq_true.
Qed.

(** X22: every run leaves the run settings on file, however it ends: with
    a planner error, with [exit()], with a corpus or splice error, with a
    failed batch or normally, the file at the run-settings path holds the
    configuration of this run. *)
Theorem run_settings_always_written r w :
  fs (run r w).2 !! run_settings_path (cfg r) = Some (RunSettings (cfg r)).
Proof.
  rewrite run_unfold. cbv zeta.
  destruct (get_feature_batches _ _) as [plan|e];
    [|simpl; by rewrite lookup_insert_eq].
  destruct (_ <=? _); [simpl; by rewrite lookup_insert_eq|].
  match goal with
  | |- context [get_tokens ?c ?w0] =>
      destruct (get_tokens_world c w0) as [_ Hfs];
      specialize (Hfs (run_settings_path c) (run_settings_path_not_tokens c));
      assert (fs w0 !! run_settings_path c = Some (RunSettings c)) as Hw0
        by (simpl;
            rewrite lookup_insert_ne
              by (apply not_eq_sym, run_settings_path_not_skipped);
            by rewrite lookup_insert_eq);
      rewrite Hw0 in Hfs; clear Hw0;
      destruct (get_tokens c w0) as [[tokens|e] w1]
  end; simpl in Hfs; [|done].
  destruct (add_prefix_suffix_to_tokens _ _ _ _) as [tokens'|e]; [|done].
  apply batch_loop_keeps; [apply enumerate_NoDup|done].
Qed.

(** X23: a run that gets past the planner and the start check records no
    skipped feature: with the sparsity filter disabled every feature is a
    target, and the skipped-feature record it writes lists none, under the
    runner's model id, layer, set name and sparsity threshold. *)
Theorem run_records_no_skipped_feature r w plan :
  get_feature_batches (get_alive_features (sae_cfg_d_sae r))
    (n_features_at_a_time (cfg r)) = Ok plan ->
  start_batch (cfg r) < Z.of_nat (length plan) ->
  fs (run r w).2 !! skipped_indexes_path (cfg r)
  = Some (SkippedIndexes (model_id r) (layer r) (sae_set (cfg r))
            (sparsity_threshold (cfg r)) []).
Proof.
  intros Hplan Hstart. rewrite run_unfold. cbv zeta. rewrite Hplan.
  destruct (_ <=? _) eqn:E; [lia|].
  match goal with
  | |- context [get_tokens ?c ?w0] =>
      destruct (get_tokens_world c w0) as [_ Hfs];
      specialize (Hfs (skipped_indexes_path c));
      assert (fs w0 !! skipped_indexes_path c
              = Some (SkippedIndexes (model_id r) (layer r) (sae_set c)
                        (sparsity_threshold c) [])) as Hw0
        by (simpl; by rewrite lookup_insert_eq, no_skipped_indexes);
      rewrite Hw0 in Hfs; clear Hw0;
      destruct (get_tokens c w0) as [[tokens|e] w1]
  end; simpl in Hfs.
  2:{ apply Hfs, skipped_path_not_tokens. }
  assert (fs w1 !! skipped_indexes_path (cfg r)
          = Some (SkippedIndexes (model_id r) (layer r) (sae_set (cfg r))
                    (sparsity_threshold (cfg r)) [])) as Hw1
    by apply Hfs, skipped_path_not_tokens.
  destruct (add_prefix_suffix_to_tokens _ _ _ _) as [tokens'|e]; [|done].
  apply batch_loop_keeps; [apply enumerate_NoDup|done].
Qed.

(** X24: a completed run is a fixed point of the output directory.  When
    [run] ends normally and leaves the files [fs w1], a run of the same
    runner in any world with those files (whatever its stream, generator
    and extraction log) ends normally and leaves that world as it is: the
    settings and the skipped-feature record are rewritten with what they
    hold, the corpus is loaded from its file, no batch is extracted, nothing
    is drawn from the stream and no file changes. *)
Theorem run_idempotent r w w1 :
  run r w = (Ok tt, w1) ->
  forall w2, fs w2 = fs w1 -> run r w2 = (Ok tt, w2).
Proof.
  intros Hrun. rewrite run_unfold in Hrun. cbv zeta in Hrun.
  destruct (get_feature_batches _ _) as [plan|e] eqn:Hplan; [|done].
  destruct (_ <=? _) eqn:Hstart; [done|].
  set (w0 := (record_skipped_features r (sae_cfg_d_sae r)
                (get_alive_features (sae_cfg_d_sae r))
                (write_file (run_settings_path (cfg r)) (RunSettings (cfg r))
                   w).2).2) in Hrun.
  destruct (get_tokens (cfg r) w0) as [[tokens|e] wt] eqn:Htok; [|done].
  destruct (add_prefix_suffix_to_tokens _ _ _ tokens) as [tokens'|e] eqn:Hadd;
    [|done].
  destruct (get_tokens_world (cfg r) w0) as [_ Hfs].
  rewrite Htok in Hfs. simpl in Hfs.
  destruct (get_tokens_Ok_file _ _ _ _ Htok) as [Hfile Hdup].
  assert (forall p content,
            fs wt !! p = Some content -> fs w1 !! p = Some content) as Hkeep.
  { intros p content Hp.
    pose proof (batch_loop_keeps r tokens' (enumerate plan) wt p content
                  (enumerate_NoDup plan) Hp) as Hk.
    by rewrite Hrun in Hk. }
  assert (fs w1 !! run_settings_path (cfg r) = Some (RunSettings (cfg r)))
    as Hsettings.
  { apply Hkeep. rewrite Hfs by apply run_settings_path_not_tokens.
    unfold w0. simpl.
    rewrite lookup_insert_ne
      by (apply not_eq_sym, run_settings_path_not_skipped).
    by rewrite lookup_insert_eq. }
  assert (fs w1 !! skipped_indexes_path (cfg r)
          = Some (SkippedIndexes (model_id r) (layer r) (sae_set (cfg r))
                    (sparsity_threshold (cfg r))
                    (elements (list_to_set (range (sae_cfg_d_sae r))
                               ∖ list_to_set
                                   (get_alive_features (sae_cfg_d_sae r))
                               : gset Z)))) as Hskipped.
  { apply Hkeep. rewrite Hfs by apply skipped_path_not_tokens.
    unfold w0. simpl. by rewrite lookup_insert_eq. }
  assert (fs w1 !! tokens_path (cfg r) = Some (TokensPt tokens)) as Hcorpus
    by (by apply Hkeep).
  pose proof (batch_loop_done r tokens' (enumerate plan) wt w1
                (enumerate_NoDup plan) Hrun) as Hdone.
  intros w2 Hfs2. rewrite <- Hfs2 in Hsettings, Hskipped, Hcorpus, Hdone.
  rewrite run_unfold. cbv zeta. rewrite Hplan, Hstart.
  rewrite (write_file_same _ _ _ Hsettings).
  unfold record_skipped_features. rewrite (write_file_same _ _ _ Hskipped).
  rewrite (get_tokens_load _ _ _ Hcorpus), Hdup, Hadd.
  by apply batch_loop_all_skipped.
Qed.

(** X25: with the corpus on file a run reads no stream and uses no
    randomness.  When a file exists at the corpus path, whatever it holds
    and however the run ends, the token stream and the random generator are
    after the run what they were before it. *)
Theorem run_with_corpus_file_draws_nothing r w :
  is_Some (fs w !! tokens_path (cfg r)) ->
  activations_store (run r w).2 = activations_store w
  /\ generator (run r w).2 = generator w.
Proof.
  intros Hex. rewrite run_unfold. cbv zeta.
  destruct (get_feature_batches _ _) as [plan|e]; [|done].
  destruct (_ <=? _); [done|].
  set (w0 := (record_skipped_features r (sae_cfg_d_sae r)
                (get_alive_features (sae_cfg_d_sae r))
                (write_file (run_settings_path (cfg r)) (RunSettings (cfg r))
                   w).2).2).
  assert ((get_tokens (cfg r) w0).2 = w0) as Hsame.
  { apply get_tokens_existing. unfold w0. simpl.
    rewrite lookup_insert_ne by apply skipped_path_not_tokens.
    by rewrite lookup_insert_ne by apply run_settings_path_not_tokens. }
  destruct (get_tokens (cfg r) w0) as [[tokens|e] w1]; simpl in Hsame;
    subst w1; [|done].
  destruct (add_prefix_suffix_to_tokens _ _ _ _) as [tokens'|e]; [|done].
  destruct (batch_loop_spec r tokens' (enumerate plan) w0 (enumerate_NoDup plan))
    as (ran & _ & _ & Hstore & Hgen & _).
  by rewrite Hstore, Hgen.
Qed.

End RunFurther.

(** A plan of three batches from [start_batch = 0]. *)
Lemma run_records_no_skipped_feature_witness :
  let r := Demo.runner Demo.config in
  let plan := [[0; 1]; [2; 3]; [4; 5]] in
  get_feature_batches (get_alive_features (sae_cfg_d_sae r))
    (n_features_at_a_time (cfg r)) = Ok plan
  /\ start_batch (cfg r) < Z.of_nat (length plan)
  /\ fs (run (H := Demo.collaborators) r (Demo.world ∅)).2
       !! skipped_indexes_path (cfg r)
     = Some (SkippedIndexes "gpt2-small" "0" "res-jb" 1 []).
Proof.
  intros r plan.
  assert (get_feature_batches (get_alive_features (sae_cfg_d_sae r))
            (n_features_at_a_time (cfg r)) = Ok plan) as Hplan by reflexivity.
  assert (start_batch (cfg r) < Z.of_nat (length plan)) as Hstart
    by (vm_compute; reflexivity).
  split; [exact Hplan|]. split; [exact Hstart|].
  exact (run_records_no_skipped_feature (H := Demo.collaborators) r
           (Demo.world ∅) plan Hplan Hstart).
Defined.

(** A full run in an empty directory, and the same run again on the
    directory it left, with the stream unread. *)
Lemma run_idempotent_witness :
  let r := Demo.runner Demo.config in
  exists w1,
    run (H := Demo.collaborators) r (Demo.world ∅) = (Ok tt, w1)
    /\ extraction_calls w1 = [[0; 1]; [2; 3]; [4; 5]]
    /\ fs (Demo.world (fs w1)) = fs w1
    /\ run (H := Demo.collaborators) r (Demo.world (fs w1))
       = (Ok tt, Demo.world (fs w1)).
Proof.
  intros r. eexists.
  assert (run (H := Demo.collaborators) r (Demo.world ∅) = (Ok tt, _)) as Hrun
    by (vm_compute; reflexivity).
  split; [exact Hrun|]. split; [reflexivity|]. split; [reflexivity|].
  exact (run_idempotent (H := Demo.collaborators) r (Demo.world ∅) _ Hrun
           (Demo.world _) eq_refl).
Defined.

(** A run on a stored corpus. *)
Lemma run_with_corpus_file_draws_nothing_witness :
  let r := Demo.runner Demo.config in
  let w := Demo.world {[ tokens_path (cfg r) := TokensPt Demo.corpus ]} in
  is_Some (fs w !! tokens_path (cfg r))
  /\ activations_store (run (H := Demo.collaborators) r w).2
     = activations_store w
  /\ generator (run (H := Demo.collaborators) r w).2 = generator w.
Proof.
  intros r w.
  assert (is_Some (fs w !! tokens_path (cfg r))) as Hex
    by (eexists; vm_compute; reflexivity).
  split; [exact Hex|].
  exact (run_with_corpus_file_draws_nothing (H := Demo.collaborators) r w Hex).
Defined.
